(** * Live-preview rendering of inline fields and inline queries

    A shallow embedding of [src/ui/lp-render.ts] of obsidian-dataview:
    the selection-overlap predicate, the inline widget and its equality,
    the construction of query widgets, the decoration store with its
    range query / range filter / sorted insertion, and the reconciliation
    pass [updateTree] with the editor-event dispatcher [update].

    The file holds two revisions of [inlinePlugin].  The last one, which
    handles inline fields and inline queries, is embedded at top level;
    the first one, which handles queries only and still consults
    [index.initialized], is embedded in [Module QueryOnly].

    Document offsets are JavaScript numbers holding integers; they are
    modelled as [Z].  Strings are [string]; class lists and token
    property sets are [list string].  The mutable field
    [this.decorations] is threaded explicitly through every method, and
    a method that may throw returns an [Outcome].  The decoration store
    is CodeMirror's [RangeSet], modelled as the list of its ranges in
    iteration order with the three operations the plugin calls:
    [between], [update] with a filter, and [update] with additions. *)

From Stdlib Require Import ZArith List String Ascii Bool Lia.
From Stdlib Require Import Sorted.
Import ListNotations.
Open Scope string_scope.
Open Scope Z_scope.

Set Implicit Arguments.

(** ** Selection *)

(** One [SelectionRange] of the editor selection. *)
Record SelectionRange : Type := mkSel { sel_from : Z; sel_to : Z }.

(** [EditorSelection.ranges]. *)
Definition EditorSelection : Type := list SelectionRange.

(** [selectionAndRangeOverlap]: the [for ... of] loop with its early
    [return true]. *)
Fixpoint selectionAndRangeOverlap (selection : EditorSelection)
         (rangeFrom rangeTo : Z) : bool :=
  match selection with
  | [] => false
  | range :: rest =>
      if (sel_from range <=? rangeTo) && (sel_to range >=? rangeFrom)
      then true
      else selectionAndRangeOverlap rest rangeFrom rangeTo
  end.

(** ** DOM elements and widgets *)

(** How a promise settles. *)
Inductive Settled (V : Type) : Type :=
| Fulfilled : V -> Settled V
| Rejected : string -> Settled V.
Arguments Fulfilled {V} _.
Arguments Rejected {V} _.

(** What an element shows.  [createSpan] gives an [Empty] element;
    [el.innerText = s] gives [Text s]; [renderValue] fills the element
    with a rendered value; [Deferred p] is an empty element on whose
    behalf a [then] callback is registered on a promise that settles as
    [p]: the callback calls [renderValue] when the promise fulfils. *)
Inductive Content (V : Type) : Type :=
| Empty : Content V
| Text : string -> Content V
| Rendered : V -> Content V
| Deferred : Settled V -> Content V.
Arguments Empty {V}.
Arguments Text {V} _.
Arguments Rendered {V} _.
Arguments Deferred {V} _.

(** What the element shows once every registered promise has settled:
    the [then] callback has only a fulfilment handler, so a rejection
    leaves the element as [createSpan] made it. *)
Definition settled_content {V} (c : Content V) : Content V :=
  match c with
  | Deferred (Fulfilled v) => Rendered v
  | Deferred (Rejected _) => Empty
  | c => c
  end.

(** The part of an [HTMLElement] the plugin touches: its class list and
    its content. *)
Record HTMLElement (V : Type) : Type := mkEl {
  classList : list string;
  content : Content V
}.

Definition includes (l : list string) (v : string) : bool :=
  existsb (String.eqb v) l.

(** [el.addClass(c)]: [classList.add], a no-op when already present. *)
Definition addClass {V} (el : HTMLElement V) (c : string) : HTMLElement V :=
  if includes (classList el) c then el
  else mkEl (classList el ++ [c]) (content el).

(** [el.removeClass(c)]: [classList.remove]. *)
Definition removeClass {V} (el : HTMLElement V) (c : string) : HTMLElement V :=
  mkEl (filter (fun x => negb (String.eqb c x)) (classList el)) (content el).

(** [el.addClasses(cs)]. *)
Definition addClasses {V} (el : HTMLElement V) (cs : list string)
  : HTMLElement V :=
  fold_left addClass cs el.

(** [createSpan({cls})]. *)
Definition createSpan {V} (cls : list string) : HTMLElement V :=
  mkEl cls Empty.

(** [class InlineWidget]: [cssClasses], [sourceString] and the private
    element [el].  (The [view] field is only read by [ignoreEvent].) *)
Record InlineWidget (V : Type) : Type := mkWidget {
  cssClasses : list string;
  sourceString : string;
  el : HTMLElement V
}.

(** Body of the loop of [InlineWidget.eq]: for one class [value] of the
    other widget, remove it from [this.el] when [this.cssClasses] lacks
    it and add it otherwise. *)
Definition eq_patch {V} (thisClasses : list string)
           (e : HTMLElement V) (value : string) : HTMLElement V :=
  if negb (includes thisClasses value) then removeClass e value
  else addClass e value.

(** [InlineWidget.eq(other)], called on [this].  Returns the boolean
    and [this] with its element as the loop left it. *)
Definition widget_eq {V} (this other : InlineWidget V)
  : bool * InlineWidget V :=
  if String.eqb (sourceString other) (sourceString this) then
    (true,
     mkWidget (cssClasses this) (sourceString this)
              (fold_left (eq_patch (cssClasses this)) (cssClasses other)
                         (el this)))
  else (false, this).

(** [InlineWidget.toDOM]: adds the widget's classes to its element. *)
Definition toDOM {V} (w : InlineWidget V) : InlineWidget V :=
  mkWidget (cssClasses w) (sourceString w) (addClasses (el w) (cssClasses w)).

(** ** Strings and the document *)

(** [s.startsWith(p)]. *)
Definition startsWith (s p : string) : bool := String.prefix p s.

(** [s.substring(n)] for [0 <= n]: everything from index [n] on. *)
Definition substringFrom (n : nat) (s : string) : string :=
  String.substring n (String.length s - n) s.

(** White space removed by [String.prototype.trim], restricted to the
    characters a one-byte [ascii] can hold: TAB, LF, VT, FF, CR, space. *)
Definition isSpace (c : ascii) : bool :=
  let n := nat_of_ascii c in
  ((9 <=? n)%nat && (n <=? 13)%nat) || (n =? 32)%nat.

Fixpoint trimStart (s : string) : string :=
  match s with
  | String c rest => if isSpace c then trimStart rest else s
  | EmptyString => EmptyString
  end.

Fixpoint trimEnd (s : string) : string :=
  match s with
  | String c rest =>
      match trimEnd rest with
      | EmptyString => if isSpace c then EmptyString else String c EmptyString
      | t => String c t
      end
  | EmptyString => EmptyString
  end.

(** [s.trim()]. *)
Definition trim (s : string) : string := trimEnd (trimStart s).

(** [s.includes(sub)]. *)
Fixpoint str_includes (sub s : string) : bool :=
  String.prefix sub s ||
  match s with
  | String _ rest => str_includes sub rest
  | EmptyString => false
  end.

(** The document text of the editor state. *)
Definition Doc : Type := string.

Definition clip (len p : Z) : Z := Z.max 0 (Z.min len p).

(** [view.state.sliceDoc(from, to)] (the same as
    [view.state.doc.sliceString(from, to)]): the characters at offsets
    [from <= i < to], both ends clipped to the document. *)
Definition sliceDoc (doc : Doc) (from to : Z) : string :=
  let len := Z.of_nat (String.length doc) in
  let f := clip len from in
  let t := clip len to in
  String.substring (Z.to_nat f) (Z.to_nat (t - f)) doc.

(** The line-feed string ["\n"]. *)
Definition newline : string := String (ascii_of_nat 10) EmptyString.

(** ** Settings and syntax nodes *)

(** The options of [DataviewSettings] read by this file. *)
Record DataviewSettings : Type := mkSettings {
  inlineQueryPrefix : string;
  inlineJsQueryPrefix : string;
  enableInlineDataview : bool;
  enableInlineDataviewJs : bool
}.

(** A [SyntaxNode]: its extent and the token classes found in
    [node.type.prop(tokenClassNodeProp)?.split(" ")] (empty when the
    prop is absent). *)
Record SyntaxNode : Type := mkNode {
  node_from : Z;
  node_to : Z;
  node_props : list string
}.

(** [getCssClasses(props)]. *)
Definition getCssClasses (props : list string) : list string :=
  ((if includes props "strong" then ["cm-strong"] else []) ++
   (if includes props "em" then ["cm-em"] else []) ++
   (if includes props "highlight" then ["cm-highlight"] else []) ++
   (if includes props "strikethrough" then ["cm-strikethrough"] else []) ++
   (if includes props "comment" then ["cm-comment"] else []))%list.

(** ** Exceptions and results *)

(** A thrown value, told apart by what string conversion ([`${e}`])
    makes of it.  [Err s] converts to the string [s]: an [Error], a
    string, a number.  [Opaque e] has no string conversion: converting
    it throws [e] in turn, as for a [Symbol], where the conversion
    throws a [TypeError], or for an object whose [toString] throws. *)
Inductive Thrown : Type :=
| Err : string -> Thrown
| Opaque : Thrown -> Thrown.

Coercion Err : string >-> Thrown.

(** A computation that returns or throws. *)
Inductive Outcome (A : Type) : Type :=
| Ok : A -> Outcome A
| Raise : Thrown -> Outcome A.
Arguments Ok {A} _.
Arguments Raise {A} _.

(** [`${e}`]: the string conversion of a caught value, which throws
    for a value that has none. *)
Definition toText (e : Thrown) : Outcome string :=
  match e with
  | Err s => Ok s
  | Opaque e' => Raise e'
  end.

Definition bind {A B} (m : Outcome A) (k : A -> Outcome B) : Outcome B :=
  match m with
  | Ok a => k a
  | Raise e => Raise e
  end.

(** [try { body } catch (e) { handler }]. *)
Definition try_catch {A} (body : Outcome A) (handler : Thrown -> Outcome A)
  : Outcome A :=
  match body with
  | Ok a => Ok a
  | Raise e => handler e
  end.

(** Dataview's [Result<T, string>]. *)
Inductive Result (T : Type) : Type :=
| Success : T -> Result T
| Failure : string -> Result T.
Arguments Success {T} _.
Arguments Failure {T} _.

(** ** External collaborators *)

(** The collaborators [createQueryWidget] calls, each of which may
    throw: the expression parser, the execution engine (with the page
    index and the settings it closes over), the template-literal
    rendering of a parsed field, and [eval] of a script with [this]
    bound to the inline API of the file at [path].  [settles v] tells
    how [v], the promise returned by the asynchronous wrapper, settles. *)
Record Host (Expr V : Type) : Type := mkHost {
  parseField : string -> Outcome (Result Expr);
  executeInline : Expr -> string -> Outcome (Result V);
  exprToString : Expr -> string;
  evalInContext : string -> string -> Outcome V;
  settles : V -> Settled V
}.

(** Modelled from the spec: the error text that [tryOrPropogate] gives
    a thrown value, which never throws in turn: the string the value
    converts to, or else the text of what its conversion throws. *)
Fixpoint describe (e : Thrown) : string :=
  match e with
  | Err s => s
  | Opaque e' => describe e'
  end.

(** Modelled from the spec: [tryOrPropogate] of [util/normalize], which
    is not among the sources.  It runs the thunk and turns a thrown
    exception into a failed [Result], so that parse and evaluation
    failures never throw outward. *)
Definition tryOrPropogate {T} (func : Outcome (Result T)) : Result T :=
  match func with
  | Ok r => r
  | Raise e => Failure (describe e)
  end.

(** Modelled from the spec: [renderValue] of [ui/render], which is not
    among the sources.  It populates the widget element with the value
    and returns nothing (the fill-in may be scheduled for later). *)
Definition renderValue {V} (value : V) (e : HTMLElement V) : HTMLElement V :=
  mkEl (classList e) (Rendered value).

(** [el.innerText = s]. *)
Definition setInnerText {V} (e : HTMLElement V) (s : string) : HTMLElement V :=
  mkEl (classList e) (Text s).

(** The empty element with a [then] callback pending on promise [v]. *)
Definition thenRender {V} (p : Settled V) (e : HTMLElement V) : HTMLElement V :=
  mkEl (classList e) (Deferred p).

Definition PREAMBLE : string := "const dataview=this;const dv=this;".

(** ** Decorations and the decoration store *)

(** A [Decoration]: [Decoration.replace({widget, inclusive: false})] or
    [Decoration.mark({class, inclusive})]. *)
Inductive Decoration (V : Type) : Type :=
| Replace : InlineWidget V -> Decoration V
| Mark : string -> bool -> Decoration V.
Arguments Replace {V} _.
Arguments Mark {V} _ _.

(** A [Range<Decoration>]. *)
Record Range (V : Type) : Type := mkRange {
  from : Z;
  to : Z;
  value : Decoration V
}.

(** A [DecorationSet], in iteration order. *)
Definition DecorationSet (V : Type) : Type := list (Range V).

Definition isReplace {V} (r : Range V) : bool :=
  match value r with
  | Replace _ => true
  | Mark _ _ => false
  end.

(** [value.startSide] as CodeMirror assigns it: a replace decoration
    that is not inclusive starts one below a non-inclusive mark; an
    inclusive mark starts at [-1]. *)
Definition startSide {V} (d : Decoration V) : Z :=
  match d with
  | Replace _ => 500000000 - 1
  | Mark _ inclusive => if inclusive then -1 else 500000000
  end.

(** [value.endSide]: a replace decoration that is not inclusive ends
    one above a non-inclusive mark; an inclusive mark ends at [1]. *)
Definition endSide {V} (d : Decoration V) : Z :=
  match d with
  | Replace _ => - 600000000 + 1
  | Mark _ inclusive => if inclusive then 1 else - 600000000
  end.

(** A range touches the region [a .. b], both ends included. *)
Definition touches {V} (a b : Z) (r : Range V) : bool :=
  (from r <=? b) && (to r >=? a).

(** [set.between(a, b, f)]: the ranges [f] is called with, in order.
    None of the callbacks of this file returns [false], so the
    iteration is never cut short. *)
Definition between {V} (set : DecorationSet V) (a b : Z) : list (Range V) :=
  filter (touches a b) set.

(** [set.update({filterFrom, filterTo, filter})]: a range is kept when it
    lies outside [filterFrom .. filterTo] or [filter] accepts it. *)
Definition update_filter {V} (set : DecorationSet V) (filterFrom filterTo : Z)
           (keep : Range V -> bool) : DecorationSet V :=
  filter (fun r => (filterFrom >? to r) || (filterTo <? from r) || keep r) set.

(** The test of the merge loop of [RangeSet.update]: the added range [a]
    is emitted before the stored range [c]. *)
Definition goes_before {V} (a c : Range V) : bool :=
  if from c - from a =? 0
  then startSide (value c) - startSide (value a) >=? 0
  else from c - from a >=? 0.

Fixpoint merge {V} (add cur : list (Range V)) : list (Range V) :=
  match add with
  | [] => cur
  | a :: add' =>
      (fix inner (cur : list (Range V)) : list (Range V) :=
         match cur with
         | [] => a :: add'
         | c :: cur' =>
             if goes_before a c then a :: merge add' cur
             else c :: inner cur'
         end) cur
  end.

(** [cmpRange(a, b) <= 0]. *)
Definition cmpRange_le {V} (a b : Range V) : bool :=
  if from a - from b =? 0
  then startSide (value a) - startSide (value b) <=? 0
  else from a - from b <=? 0.

Fixpoint insert_sorted {V} (x : Range V) (l : list (Range V))
  : list (Range V) :=
  match l with
  | [] => [x]
  | y :: l' => if cmpRange_le y x then y :: insert_sorted x l' else x :: y :: l'
  end.

(** [add.slice().sort(cmpRange)], a stable sort. *)
Definition sortRanges {V} (add : list (Range V)) : list (Range V) :=
  fold_left (fun acc x => insert_sorted x acc) add [].

(** [set.update({add, sort})].  With [sort: false] the caller passes
    ranges that are already in order (here always a single one). *)
Definition update_add {V} (set : DecorationSet V) (add : list (Range V))
           (sort : bool) : DecorationSet V :=
  merge (if sort then sortRanges add else add) set.

(** The body shared by [removeFieldDecorator] and [removeQueryDecorator]:
    [between] walks the set as it was on entry and every range it finds
    filters the current set over that range's own extent. *)
Definition removeBetween {V} (decorations : DecorationSet V) (a b : Z)
  : DecorationSet V :=
  fold_left
    (fun cur r => update_filter cur (from r) (to r) (fun _ => false))
    (between decorations a b) decorations.

(** The existence check of the two [add...Decorator] methods. *)
Definition existsBetween {V} (decorations : DecorationSet V) (a b : Z) : bool :=
  match between decorations a b with
  | [] => false
  | _ :: _ => true
  end.

(** ** Lines, fields and the editor view *)

(** A [Line] of the document. *)
Record Line : Type := mkLine {
  line_from : Z;
  line_to : Z;
  line_number : Z;
  line_text : string
}.

(** An [InlineField] as the field scanner returns it.  [wrapping] is a
    string for bracketed fields and absent for full-line fields. *)
Record InlineField : Type := mkField {
  field_key : string;
  field_value : string;
  field_start : Z;
  field_startValue : Z;
  field_end : Z;
  field_wrapping : option string
}.

(** The field scanner of [data-import/inline-field], which is not among
    the sources: [extractInlineFields] and [extractFullLineField]. *)
Record Scanner : Type := mkScanner {
  extractInlineFields : string -> list InlineField;
  extractFullLineField : string -> option InlineField
}.

Definition LF : ascii := ascii_of_nat 10.

(** The lines of a document, numbered from [n], the first one starting
    at offset [start]; [acc] holds the text of the line being read. *)
Fixpoint linesFrom (s : string) (acc : string) (start n : Z) : list Line :=
  match s with
  | EmptyString =>
      [mkLine start (start + Z.of_nat (String.length acc)) n acc]
  | String c rest =>
      if Ascii.eqb c LF
      then mkLine start (start + Z.of_nat (String.length acc)) n acc
             :: linesFrom rest EmptyString
                  (start + Z.of_nat (String.length acc) + 1) (n + 1)
      else linesFrom rest (acc ++ String c EmptyString) start n
  end.

Definition docLines (doc : Doc) : list Line := linesFrom doc EmptyString 0 1.

(** [doc.lineAt(pos)]; a position outside the document is a
    [RangeError]. *)
Definition lineAt (doc : Doc) (pos : Z) : Outcome Line :=
  match find (fun l => (line_from l <=? pos) && (pos <=? line_to l))
             (docLines doc) with
  | Some l => Ok l
  | None => Raise "RangeError: Invalid position"
  end.

(** The lines [doc.line(i)] for [i = lineFrom .. lineTo], in order. *)
Definition linesBetween (doc : Doc) (lineFrom lineTo : Z) : list Line :=
  filter (fun l => (lineFrom <=? line_number l) && (line_number l <=? lineTo))
         (docLines doc).

(** What a reconciliation pass reads from the editor and the
    application: the document, the selection, the visible ranges, the
    nodes of the syntax tree in the order [iterate] enters them, the
    live-preview flag of the state and the path of the active file, if
    there is one. *)
Record EditorView : Type := mkView {
  doc : Doc;
  selection : EditorSelection;
  visibleRanges : list (Z * Z);
  tree : list SyntaxNode;
  livePreviewField : bool;
  activeFile : option string
}.

(** [syntaxTree(state).iterate({from, to, enter})]: the nodes that
    touch [from .. to], in tree order.  No [enter] callback of this file
    returns [false], so no subtree is skipped. *)
Definition iterate (view : EditorView) (a b : Z) : list SyntaxNode :=
  filter (fun n => (node_from n <=? b) && (node_to n >=? a)) (tree view).

(** Monadic left fold: the body of a [for] loop run over a list. *)
Fixpoint foldM {A S} (f : S -> A -> Outcome S) (l : list A) (s : S)
  : Outcome S :=
  match l with
  | [] => Ok s
  | x :: l' => bind (f s x) (foldM f l')
  end.

(** ** The view plugin *)

Section Plugin.

Variables Expr V : Type.
Variable host : Host Expr V.
Variable scanner : Scanner.
Variable settings : DataviewSettings.

(** The fields of the plugin value that a pass reads and writes. *)
Record PluginValue : Type := mkPlugin {
  decorations : DecorationSet V;
  livepreview : bool
}.

(** [createQueryWidget(node, view, currentFile)]; [None] is the bare
    [return]. *)
Definition createQueryWidget (node : SyntaxNode) (view : EditorView)
           (currentFile : string) : Outcome (option (Range V)) :=
  (* safety net against unclosed inline code *)
  if String.eqb (sliceDoc (doc view) (node_to node) (node_to node + 1))
                newline
  then Ok None
  else
    let text := sliceDoc (doc view) (node_from node) (node_to node) in
    let el := createSpan ["dataview"; "dataview-inline"] in
    let isQuery := startsWith text (inlineQueryPrefix settings) in
    let isJsQuery := startsWith text (inlineJsQueryPrefix settings) in
    if negb isQuery && negb isJsQuery then Ok None
    else
      bind
        (if (isQuery && negb (enableInlineDataview settings))
            || (isJsQuery && negb (enableInlineDataviewJs settings))
         then Ok (EmptyString,
                  setInnerText el "(disabled; enable in settings)")
         else if isQuery then
           let code :=
             trim (substringFrom
                     (String.length (inlineQueryPrefix settings)) text) in
           match tryOrPropogate (parseField host code) with
           | Failure error =>
               Ok (code,
                   setInnerText el
                     ("Dataview (inline field '" ++ code ++ "'): " ++ error))
           | Success fieldValue =>
               match tryOrPropogate
                       (executeInline host fieldValue currentFile) with
               | Failure error =>
                   Ok (code,
                       setInnerText el
                         ("Dataview (for inline query '"
                            ++ exprToString host fieldValue ++ "'): "
                            ++ error))
               | Success value => Ok (code, renderValue value el)
               end
           end
         else if isJsQuery then
           let code :=
             trim (substringFrom
                     (String.length (inlineJsQueryPrefix settings)) text) in
           try_catch
             (if str_includes "await" code then
                bind (evalInContext host
                        ("(async () => { " ++ PREAMBLE ++ code ++ " })()")
                        currentFile)
                     (fun promise =>
                        Ok (code, thenRender (settles host promise) el))
              else
                bind (evalInContext host (PREAMBLE ++ code) currentFile)
                     (fun result => Ok (code, renderValue result el)))
             (fun e =>
                bind (toText e)
                     (fun message =>
                        Ok (code,
                            setInnerText el
                              ("Dataview (for inline JS query '" ++ code
                                 ++ "'): " ++ message))))
         else Ok (EmptyString, el))
        (fun '(code, el) =>
           Ok (Some (mkRange (node_from node - 1) (node_to node + 1)
                             (Replace
                                (mkWidget (getCssClasses (node_props node))
                                          code el)))))%string.

(** [isInlineQuery(view, start, end)]. *)
Definition isInlineQuery (view : EditorView) (start end_ : Z) : bool :=
  let content := sliceDoc (doc view) start end_ in
  startsWith content (inlineQueryPrefix settings)
  || startsWith content (inlineJsQueryPrefix settings).

(** [queryRenderInfo(view, node)]: the pair [(render, isQuery)]. *)
Definition queryRenderInfo (view : EditorView) (node : SyntaxNode)
  : bool * bool :=
  let properties := node_props node in
  let isSelected :=
    selectionAndRangeOverlap (selection view)
                             (node_from node - 1) (node_to node + 1) in
  let isInlineQuery :=
    includes properties "inline-code"
    && negb (includes properties "formatting")
    && isInlineQuery view (node_from node) (node_to node) in
  (isInlineQuery && negb isSelected, isInlineQuery).

(** [fieldRenderInfo(view, line, field)]: the [render] flag. *)
Definition fieldRenderInfo (this : PluginValue) (view : EditorView)
           (line : Line) (field : InlineField) : bool :=
  let isSelected :=
    selectionAndRangeOverlap (selection view)
                             (line_from line + field_start field)
                             (line_from line + field_end field) in
  negb (livepreview this && isSelected).

(** [Decoration.mark(spec).range(from, to)]: CodeMirror refuses an
    empty mark with a [RangeError]. *)
Definition markRange (cls : string) (inclusive : bool) (a b : Z)
  : Outcome (Range V) :=
  if a >=? b then Raise "RangeError: Mark decorations may not be empty"
  else Ok (mkRange a b (Mark cls inclusive)).

(** [createFieldDecoratorSourceMode(view, line, field)]. *)
Definition createFieldDecoratorSourceMode (line : Line) (field : InlineField)
  : Outcome (list (Range V)) :=
  let isString :=
    match field_wrapping field with Some _ => true | None => false end in
  let openBracketPos := line_from line + field_start field in
  let keyPos :=
    if isString then line_from line + field_start field + 1
    else openBracketPos in
  let colonPos := line_from line + field_startValue field - 2 in
  let valuePos := line_from line + field_startValue field in
  let fieldEndPos := line_from line + field_end field in
  let closeBracketPos :=
    if isString then line_from line + field_end field - 1
    else fieldEndPos in
  let inline_or_fullline := if isString then "inline" else "fullline" in
  let isRounded :=
    match field_wrapping field with
    | Some w => String.eqb w "("
    | None => false
    end in
  let markBracket := markRange "dataview source-mode-inline-field-bracket"
                               false in
  let markColon :=
    markRange ("dataview source-mode-" ++ inline_or_fullline
                 ++ "-field-colon")%string false in
  let markKey :=
    markRange ("dataview source-mode-" ++ inline_or_fullline
                 ++ "-field-key"
                 ++ (if isRounded then "-hidden" else ""))%string
              true in
  let markValue :=
    markRange ("dataview source-mode-" ++ inline_or_fullline ++ "-field"
                 ++ (if isRounded then "-standalone" else "")
                 ++ "-value")%string
              true in
  bind (markColon colonPos valuePos) (fun colon =>
  bind (if isString then
          bind (markBracket openBracketPos keyPos) (fun ob =>
          bind (markBracket closeBracketPos fieldEndPos) (fun cb =>
          Ok [ob; cb]))
        else Ok []) (fun brackets =>
  bind (if keyPos =? colonPos then Ok []
        else bind (markKey keyPos colonPos) (fun k => Ok [k])) (fun key =>
  bind (if valuePos =? closeBracketPos then Ok []
        else bind (markValue valuePos closeBracketPos) (fun v => Ok [v]))
       (fun val =>
  Ok ([colon] ++ brackets ++ key ++ val)%list)))).

(** [createFieldDecoratorLivePreview]: logs "Method not implemented."
    and returns no decoration. *)
Definition createFieldDecoratorLivePreview (line : Line)
           (field : InlineField) : Outcome (list (Range V)) :=
  Ok [].

Definition setDecorations (this : PluginValue) (d : DecorationSet V)
  : PluginValue :=
  mkPlugin d (livepreview this).

(** [removeFieldDecorator(line, field)]. *)
Definition removeFieldDecorator (this : PluginValue) (line : Line)
           (field : InlineField) : PluginValue :=
  setDecorations this
    (removeBetween (decorations this)
                   (line_from line + field_start field)
                   (line_from line + field_end field)).

(** [removeQueryDecorator(node)]. *)
Definition removeQueryDecorator (this : PluginValue) (node : SyntaxNode)
  : PluginValue :=
  setDecorations this
    (removeBetween (decorations this)
                   (node_from node - 1) (node_to node + 1)).

(** [addFieldDecorator(view, line, field)]. *)
Definition addFieldDecorator (this : PluginValue) (view : EditorView)
           (line : Line) (field : InlineField) : Outcome PluginValue :=
  if existsBetween (decorations this)
                   (line_from line + field_start field)
                   (line_from line + field_end field)
  then Ok this
  else
    match activeFile view with
    | None => Ok this
    | Some currentFile =>
        bind (if livepreview this
              then createFieldDecoratorLivePreview line field
              else createFieldDecoratorSourceMode line field)
             (fun newDeco =>
                Ok (setDecorations this
                      (update_add (decorations this) newDeco true)))
    end.

(** [addQueryDecorator(node, view)]. *)
Definition addQueryDecorator (this : PluginValue) (node : SyntaxNode)
           (view : EditorView) : Outcome PluginValue :=
  if existsBetween (decorations this)
                   (node_from node - 1) (node_to node + 1)
  then Ok this
  else
    match activeFile view with
    | None => Ok this
    | Some currentFile =>
        bind (createQueryWidget node view currentFile)
             (fun w =>
                match w with
                | Some r =>
                    Ok (setDecorations this
                          (update_add (decorations this)
                             [mkRange (node_from node - 1)
                                      (node_to node + 1) (value r)]
                             false))
                | None => Ok this
                end)
    end.

(** The fields scanned on a line: the bracketed ones, or else the
    full-line field if the line is one. *)
Definition fieldsOfLine (line : Line) : list InlineField :=
  match extractInlineFields scanner (line_text line) with
  | [] =>
      match extractFullLineField scanner (line_text line) with
      | Some f => [f]
      | None => []
      end
  | fields => fields
  end.

(** Body of the innermost loop over fields. *)
Definition fieldStep (view : EditorView) (line : Line)
           (this : PluginValue) (field : InlineField) : Outcome PluginValue :=
  if negb (fieldRenderInfo this view line field)
  then Ok (removeFieldDecorator this line field)
  else addFieldDecorator this view line field.

(** The [enter] callback of the query loop. *)
Definition queryStep (view : EditorView) (this : PluginValue)
           (node : SyntaxNode) : Outcome PluginValue :=
  let '(render, isQuery) := queryRenderInfo view node in
  if negb render && isQuery then Ok (removeQueryDecorator this node)
  else if render then addQueryDecorator this node view
  else Ok this.

(** The first half of [updateTree]: inline fields. *)
Definition updateFields (view : EditorView) (this : PluginValue)
  : Outcome PluginValue :=
  foldM
    (fun this '(a, b) =>
       bind (lineAt (doc view) a) (fun la =>
       bind (lineAt (doc view) b) (fun lb =>
       foldM
         (fun this line => foldM (fieldStep view line) (fieldsOfLine line) this)
         (linesBetween (doc view) (line_number la) (line_number lb))
         this)))
    (visibleRanges view) this.

(** The second half of [updateTree]: inline queries. *)
Definition updateQueries (view : EditorView) (this : PluginValue)
  : Outcome PluginValue :=
  foldM
    (fun this '(a, b) => foldM (queryStep view) (iterate view a b) this)
    (visibleRanges view) this.

(** [updateTree(view)].  A pass that throws yields no plugin value:
    the editor drops a view plugin whose method throws. *)
Definition updateTree (view : EditorView) (this : PluginValue)
  : Outcome PluginValue :=
  bind (updateFields view this) (fun this =>
  if negb (livepreview this) then Ok this
  else updateQueries view this).

(** [constructor(view)]. *)
Definition construct (view : EditorView) : Outcome PluginValue :=
  updateTree view (mkPlugin [] (livePreviewField view)).

(** The effect of a change set on a range.  CodeMirror maps [from]
    with the start side of the decoration and [to] with its end side,
    and drops the ranges that the change deletes or collapses; so the
    effect is a function of the two sides and the two ends: the mapped
    extent, or [None] when the range is dropped. *)
Definition ChangeDesc : Type := Z -> Z -> Z -> Z -> option (Z * Z).

(** The mapped extent of a range. *)
Definition mapRange (changes : ChangeDesc) (r : Range V) : option (Z * Z) :=
  changes (startSide (value r)) (endSide (value r)) (from r) (to r).

(** [decorations.map(changes)]. *)
Definition mapDecorations (changes : ChangeDesc) (set : DecorationSet V)
  : DecorationSet V :=
  flat_map
    (fun r =>
       match mapRange changes r with
       | Some (a, b) => [mkRange a b (value r)]
       | None => []
       end)
    set.

(** A [ViewUpdate]. *)
Record ViewUpdate : Type := mkUpdate {
  u_view : EditorView;
  docChanged : bool;
  selectionSet : bool;
  viewportChanged : bool;
  changes : ChangeDesc
}.

(** [update(update)]. *)
Definition update (u : ViewUpdate) (this : PluginValue)
  : Outcome PluginValue :=
  let this := mkPlugin (decorations this) (livePreviewField (u_view u)) in
  if docChanged u then
    updateTree (u_view u)
      (setDecorations this (mapDecorations (changes u) (decorations this)))
  else if selectionSet u then updateTree (u_view u) this
  else if viewportChanged u then
    updateTree (u_view u) (setDecorations this [])
  else Ok this.

End Plugin.

(** ** The first revision of the plugin: queries only

    [lp-render.ts] holds an earlier revision of [inlinePlugin] that
    renders inline queries only.  Its [createQueryWidget],
    [isInlineQuery] and [renderInfo] read as [createQueryWidget],
    [isInlineQuery] and [queryRenderInfo] above (the widget branch tests
    [isQuery && settings.enableInlineDataview], whose second conjunct
    the preceding branch has already decided), and its [removeDeco] and
    [addDeco] are [removeQueryDecorator] and [addQueryDecorator]. *)

Module QueryOnly.
Section Plugin.

Variables Expr V : Type.
Variable host : Host Expr V.
Variable settings : DataviewSettings.

(** [index.initialized], read when the method runs. *)
Variable index_initialized : bool.

(** [inlineQueryRender(view)]; [None] is the bare [return]. *)
Definition inlineQueryRender (view : EditorView)
  : Outcome (option (DecorationSet V)) :=
  if negb index_initialized then Ok None
  else
    match activeFile view with
    | None => Ok None
    | Some currentFile =>
        bind
          (foldM
             (fun widgets '(a, b) =>
                foldM
                  (fun widgets node =>
                     if negb (fst (queryRenderInfo settings view node))
                     then Ok widgets
                     else
                       bind (createQueryWidget host settings node view
                                               currentFile)
                            (fun widget =>
                               match widget with
                               | Some w => Ok (widgets ++ [w])%list
                               | None => Ok widgets
                               end))
                  (iterate view a b) widgets)
             (visibleRanges view) [])
          (fun widgets => Ok (Some (sortRanges widgets)))
    end.

(** [updateTree(view)] on [this.decorations]. *)
Definition updateTree (view : EditorView) (decos : DecorationSet V)
  : Outcome (DecorationSet V) :=
  foldM
    (fun decos '(a, b) =>
       foldM
         (fun decos node =>
            let '(render, isQuery) := queryRenderInfo settings view node in
            if negb render && isQuery then
              Ok (removeBetween decos (node_from node - 1) (node_to node + 1))
            else if negb render then Ok decos
            else
              bind (addQueryDecorator host settings
                      (mkPlugin decos true) node view)
                   (fun this => Ok (decorations this)))
         (iterate view a b) decos)
    (visibleRanges view) decos.

(** [this.inlineQueryRender(view) ?? Decoration.none]. *)
Definition renderOrNone (view : EditorView) : Outcome (DecorationSet V) :=
  bind (inlineQueryRender view)
       (fun r => Ok match r with Some d => d | None => [] end).

(** [constructor(view)]. *)
Definition construct (view : EditorView) : Outcome (DecorationSet V) :=
  renderOrNone view.

(** [update(update)]. *)
Definition update (u : ViewUpdate) (decos : DecorationSet V)
  : Outcome (DecorationSet V) :=
  (* only activate in LP and not source mode *)
  if negb (livePreviewField (u_view u)) then Ok []
  else if docChanged u then
    updateTree (u_view u) (mapDecorations (changes u) decos)
  else if selectionSet u then updateTree (u_view u) decos
  else if viewportChanged u then renderOrNone (u_view u)
  else Ok decos.

End Plugin.
End QueryOnly.

(** ** Properties of stores and events used in the statements *)

(** A range covers the span [a .. b]. *)
Definition covers {V} (a b : Z) (r : Range V) : bool :=
  (from r <=? a) && (b <=? to r).

(** The decorations of a store covering a span. *)
Definition covering {V} (set : DecorationSet V) (a b : Z) : list (Range V) :=
  filter (covers a b) set.

(** The Replace-decorations of a store covering a span. *)
Definition replacing {V} (set : DecorationSet V) (a b : Z) : list (Range V) :=
  filter (fun r => isReplace r && covers a b r) set.

(** Two Replace-decorations share at most a boundary point. *)
Definition apart {V} (r1 r2 : Range V) : Prop :=
  isReplace r1 = true -> isReplace r2 = true ->
  to r1 <= from r2 \/ to r2 <= from r1.

(** The store invariant: the Replace-decorations are pairwise apart. *)
Definition exclusive {V} (set : DecorationSet V) : Prop :=
  ForallOrdPairs apart set.

(** No decoration of the store covers the span [a .. b]. *)
Definition uncovered {V} (a b : Z) (this : PluginValue V) : Prop :=
  forall d, In d (decorations this) -> covers a b d = false.

(** The plugin value is in live-preview mode. *)
Definition inLivePreview {V} (this : PluginValue V) : Prop :=
  livepreview this = true.

(** In live preview, with nothing covering the span [a .. b]. *)
Definition revealed {V} (a b : Z) (this : PluginValue V) : Prop :=
  inLivePreview this /\ uncovered a b this.

(** No decoration of the store touches [a .. b]. *)
Definition untouched {V} (a b : Z) (this : PluginValue V) : Prop :=
  between (decorations this) a b = [].

(** The one decoration of the store touching [a .. b] replaces exactly
    that span by the widget [w]. *)
Definition concealedBy {V} (w : InlineWidget V) (a b : Z)
           (this : PluginValue V) : Prop :=
  between (decorations this) a b = [mkRange a b (Replace w)].

(** The store of a plugin value keeps its Replace-decorations apart. *)
Definition exclusiveStore {V} (this : PluginValue V) : Prop :=
  exclusive (decorations this).

(** Position mapping through a change set keeps the order of offsets
    and of sides: when a range ends where or before another begins, and
    its end side is not above the start side of the other, it still
    ends where or before the other begins after the change. *)
Definition order_preserving (changes : ChangeDesc) : Prop :=
  forall s1 e1 f1 t1 s2 e2 f2 t2 f1' t1' f2' t2',
    t1 <= f2 -> e1 <= s2 ->
    changes s1 e1 f1 t1 = Some (f1', t1') ->
    changes s2 e2 f2 t2 = Some (f2', t2') ->
    t1' <= f2'.

(** The states of the plugin value: the one the constructor builds and
    those any sequence of [update] calls leads to. *)
Inductive reachable {Expr V} (host : Host Expr V) (scanner : Scanner)
          (settings : DataviewSettings) : PluginValue V -> Prop :=
| reach_construct : forall view this,
    construct host scanner settings view = Ok this ->
    reachable host scanner settings this
| reach_update : forall u this this',
    reachable host scanner settings this ->
    order_preserving (changes u) ->
    update host scanner settings u this = Ok this' ->
    reachable host scanner settings this'.

(** ** A concrete host, scanner and documents for the examples *)

Module Demo.

(** Expressions and values are strings.  The parser rejects
    ["bad+++syntax"]; the engine evaluates every parsed field; [eval]
    of a script containing [throw] throws, unless the script is the
    call of an asynchronous function, which returns a promise; [eval]
    otherwise returns the script itself as value; a promise whose
    script contains [reject] or [throw] is rejected. *)
Definition host : Host string string :=
  mkHost
    (fun code =>
       if String.eqb code "bad+++syntax"
       then Ok (Failure "PARSING FAILED")
       else Ok (Success code))
    (fun e _ => Ok (Success ("value of " ++ e)%string))
    (fun e => e)
    (fun script _ =>
       if startsWith script "(async" then Ok script
       else if str_includes "throw" script then Raise "Error: boom"
       else Ok script)
    (fun v =>
       if str_includes "reject" v || str_includes "throw" v
       then Rejected "Error: rejected"
       else Fulfilled v).

Definition settings : DataviewSettings := mkSettings "=" "$=" true true.

(** A bracketed field whose value is an inline query, directly
    followed by a second inline query. *)
Definition nestedDoc : Doc := "[k:: `= 1`]`= 2`".

Definition nestedField : InlineField :=
  mkField "k" "`= 1`" 0 4 11 (Some "[").

Definition scanner : Scanner :=
  mkScanner
    (fun text => if String.eqb text nestedDoc then [nestedField] else [])
    (fun _ => None).

Definition backtick (a : Z) : SyntaxNode :=
  mkNode a (a + 1) ["formatting"; "formatting-code"; "inline-code"].

Definition code (a b : Z) : SyntaxNode := mkNode a b ["inline-code"].

Definition innerQuery : SyntaxNode := code 6 9.
Definition outerQuery : SyntaxNode := code 12 15.

Definition nestedTree : list SyntaxNode :=
  [backtick 5; innerQuery; backtick 9; backtick 11; outerQuery; backtick 15].

(** The document shown whole, the cursor at its end, in source mode
    and in live preview. *)
Definition nestedView (lp : bool) : EditorView :=
  mkView nestedDoc [mkSel 16 16] [(0, 16)] nestedTree lp (Some "note.md").

Definition noChanges : ChangeDesc := fun _ _ a b => Some (a, b).

(** An update that only sets the selection. *)
Definition selectionEvent (view : EditorView) : ViewUpdate :=
  mkUpdate view false true false noChanges.

(** The marks the source-mode pass of the constructor puts on the
    field of [nestedDoc]. *)
Definition sourceMarks : DecorationSet string :=
  [mkRange 0 1 (Mark "dataview source-mode-inline-field-bracket" false);
   mkRange 1 2 (Mark "dataview source-mode-inline-field-key" true);
   mkRange 2 4 (Mark "dataview source-mode-inline-field-colon" false);
   mkRange 4 10 (Mark "dataview source-mode-inline-field-value" true);
   mkRange 10 11 (Mark "dataview source-mode-inline-field-bracket" false)].

(** A single inline query followed by text, the cursor in the text. *)
Definition queryDoc : Doc := "`= 1` abc".

Definition queryNode : SyntaxNode := code 1 4.

Definition queryView : EditorView :=
  mkView queryDoc [mkSel 8 8] [(0, 9)] [backtick 0; queryNode; backtick 4]
         true (Some "note.md").

(** The store the constructor builds for [queryView]. *)
Definition queryWidget : InlineWidget string :=
  mkWidget [] "1"
           (mkEl ["dataview"; "dataview-inline"] (Rendered "value of 1")).

Definition queryStore : PluginValue string :=
  mkPlugin [mkRange 0 5 (Replace queryWidget)] true.

(** The same document in source mode. *)
Definition sourceQueryView : EditorView :=
  mkView queryDoc [mkSel 8 8] [(0, 9)] [backtick 0; queryNode; backtick 4]
         false (Some "note.md").

(** The same document in live preview, the cursor inside the query. *)
Definition selectedView : EditorView :=
  mkView queryDoc [mkSel 2 2] [(0, 9)] [backtick 0; queryNode; backtick 4]
         true (Some "note.md").

(** The stores after a first and a second live-preview pass over
    [nestedDoc] that start from [sourceMarks]. *)
Definition firstPass : PluginValue string :=
  mkPlugin
    [mkRange 0 1 (Mark "dataview source-mode-inline-field-bracket" false);
     mkRange 1 2 (Mark "dataview source-mode-inline-field-key" true);
     mkRange 2 4 (Mark "dataview source-mode-inline-field-colon" false)]
    true.

Definition secondPass : PluginValue string :=
  mkPlugin
    [mkRange 0 1 (Mark "dataview source-mode-inline-field-bracket" false);
     mkRange 1 2 (Mark "dataview source-mode-inline-field-key" true);
     mkRange 2 4 (Mark "dataview source-mode-inline-field-colon" false);
     mkRange 5 10 (Replace queryWidget)]
    true.

(** An inline code span left open at the end of its line. *)
Definition openDoc : Doc := ("`= 1" ++ newline ++ "abc")%string.

Definition openView : EditorView :=
  mkView openDoc [mkSel 8 8] [(0, 8)] [backtick 0; queryNode]
         true (Some "note.md").

(** A deferred script whose promise is rejected. *)
Definition rejectDoc : Doc := "`$= await reject()` abc".

Definition rejectNode : SyntaxNode := code 1 18.

Definition rejectView : EditorView :=
  mkView rejectDoc [mkSel 22 22] [(0, 23)]
         [backtick 0; rejectNode; backtick 18] true (Some "note.md").

(** A widget on screen, carrying its classes, and a fresh widget for
    the same source with another class. *)
Definition shownWidget : InlineWidget string :=
  toDOM (mkWidget ["cm-strong"] "1"
                  (mkEl ["dataview"; "dataview-inline"]
                        (Rendered "value of 1"))).

Definition freshWidget : InlineWidget string :=
  mkWidget ["cm-em"] "1"
           (mkEl ["dataview"; "dataview-inline"] (Rendered "value of 1")).

End Demo.

(** ** Further concrete inputs for the examples *)

Module Examples.

(** A host whose engine throws on every field. *)
Definition brokenHost : Host string string :=
  mkHost
    (fun code => Ok (Success code))
    (fun _ _ => Raise "Error: no index")
    (fun e => e)
    (fun script _ => Ok script)
    (fun v => Fulfilled v).

(** Both kinds of inline query switched off. *)
Definition disabledSettings : DataviewSettings :=
  mkSettings "=" "$=" false false.

(** A script query that throws at once. *)
Definition throwDoc : Doc := "`$= throw 1` abc".

Definition throwNode : SyntaxNode := Demo.code 1 11.

Definition throwView : EditorView :=
  mkView throwDoc [mkSel 15 15] [(0, 16)]
         [Demo.backtick 0; throwNode; Demo.backtick 11] true (Some "note.md").

(** [Demo.nestedDoc] in live preview with the cursor inside the key of
    its field. *)
Definition fieldSelectedView : EditorView :=
  mkView Demo.nestedDoc [mkSel 1 1] [(0, 16)] Demo.nestedTree true
         (Some "note.md").

(** The same document and cursor in source-display mode. *)
Definition fieldSelectedSourceView : EditorView :=
  mkView Demo.nestedDoc [mkSel 1 1] [(0, 16)] Demo.nestedTree false
         (Some "note.md").

(** A host whose scripts throw a [Symbol]: a value whose string
    conversion throws a [TypeError]. *)
Definition symbolHost : Host string string :=
  mkHost
    (fun code => Ok (Success code))
    (fun e _ => Ok (Success e))
    (fun e => e)
    (fun script _ =>
       if str_includes "throw" script
       then Raise (Opaque
                     "TypeError: Cannot convert a Symbol value to a string")
       else Ok script)
    (fun v => Fulfilled v).

End Examples.

(** The store is in the order of its start offsets. *)
Definition sortedByFrom {V} (set : DecorationSet V) : Prop :=
  StronglySorted (fun r1 r2 : Range V => from r1 <= from r2) set.

(** The half-open extent [from, to) of a range holds the offset [p]. *)
Definition holds {V} (p : Z) (r : Range V) : bool :=
  (from r <=? p) && (p <? to r).

(** ** Events on a widget *)

(** The part of a DOM event [ignoreEvent] reads.  [shiftKey] is false
    for an event that has none. *)
Record DomEvent : Type := mkEvent {
  ev_type : string;
  ev_shiftKey : bool;
  ev_x : Z;
  ev_y : Z
}.

(** [InlineWidget.ignoreEvent(event)].  [posAtCoords] is
    [this.view.posAtCoords] and [hasEditor] tells whether the editor
    info field holds an editor.  The result is the boolean returned and
    the offset [editor.setCursor] is called with, if it is called.  The
    test [if (currentPos)] fails for [null] and for offset 0. *)
Definition ignoreEvent (posAtCoords : Z -> Z -> option Z) (hasEditor : bool)
           (event : DomEvent) : bool * option Z :=
  if String.eqb (ev_type event) "mousedown" then
    let currentPos := posAtCoords (ev_x event) (ev_y event) in
    if ev_shiftKey event then
      (false,
       match currentPos with
       | Some p => if p =? 0 then None
                   else if hasEditor then Some p else None
       | None => None
       end)
    else (true, None)
  else (true, None).

(** ** The second revision: fields as live-preview marks

    The second revision of [inlinePlugin] (the first of the two
    near-duplicates kept beside [lp-render.ts]) renders an inline field
    in live preview by hiding its brackets, its colons and the white
    space around key and value and by marking what is left.  Its
    from-scratch render [inlineRender] is embedded here together with
    [createFieldWidget]; its query side reads as in the other
    revisions. *)

Module SecondRevision.

(** What [createFieldWidget] attaches to a range: [hide], which is
    [Decoration.replace({})], or a mark with a class. *)
Inductive FieldDecoration : Type :=
| Hide : FieldDecoration
| MarkSpan : string -> FieldDecoration.

Record FieldRange : Type := mkFieldRange {
  fr_from : Z;
  fr_to : Z;
  fr_value : FieldDecoration
}.

(** [hide.range(a, b)]: CodeMirror refuses a replacing decoration that
    is not inclusive over an empty or inverted range. *)
Definition hideRange (a b : Z) : Outcome FieldRange :=
  if a >=? b then Raise "RangeError: Invalid range for replacement decoration"
  else Ok (mkFieldRange a b Hide).

(** [Decoration.mark({class}).range(a, b)]. *)
Definition markSpanRange (cls : string) (a b : Z) : Outcome FieldRange :=
  if a >=? b then Raise "RangeError: Mark decorations may not be empty"
  else Ok (mkFieldRange a b (MarkSpan cls)).

(** [c.toLowerCase()] on a one-byte character. *)
Definition lowerAscii (c : ascii) : ascii :=
  let n := nat_of_ascii c in
  if ((65 <=? n)%nat && (n <=? 90)%nat)%bool then ascii_of_nat (n + 32)
  else c.

Fixpoint toLowerCase (s : string) : string :=
  match s with
  | EmptyString => EmptyString
  | String c rest => String (lowerAscii c) (toLowerCase rest)
  end.

Definition strlen (s : string) : Z := Z.of_nat (String.length s).

(** [createFieldWidget(view, line, field)]; [displayMode] is
    [settings.inlineFieldDisplayMode].  The elements of the returned
    array are evaluated in order, so the first range that is refused
    decides the exception. *)
Definition createFieldWidget (displayMode : string) (view : EditorView)
           (line : Line) (field : InlineField) : Outcome (list FieldRange) :=
  (* Whitespace information *)
  let key := sliceDoc (doc view)
                      (line_from line + field_start field + 1)
                      (line_from line + field_startValue field - 2) in
  let value := sliceDoc (doc view)
                        (line_from line + field_startValue field)
                        (line_from line + field_end field - 1) in
  let keyLeftWS := strlen key - strlen (trimStart key) in
  let keyRightWS := strlen key - strlen (trimEnd key) in
  let valueLeftWS := strlen value - strlen (trimStart value) in
  let valueRightWS := strlen value - strlen (trimEnd value) in
  (* Convenience variables *)
  let openBracketPos := line_from line + field_start field in
  let keyPos := (line_from line + field_start field + 1) + keyLeftWS in
  let colonPos := (line_from line + field_startValue field - 2) - keyRightWS in
  let valuePos := (line_from line + field_startValue field) + valueLeftWS in
  let closeBracketPos :=
    (line_from line + field_end field - 1) - valueRightWS in
  let fieldEndPos := line_from line + field_end field in
  let fieldFrom := openBracketPos in
  let markStandaloneValue :=
    markSpanRange "dataview inline-field-standalone-value" in
  let markKey := markSpanRange "dataview inline-field-key" in
  let markValue := markSpanRange "dataview inline-field-value" in
  let markField :=
    markSpanRange ("dataview inline-field dataview-field-style-"
                     ++ toLowerCase displayMode)%string in
  match field_wrapping field with
  | Some w =>
      if String.eqb w "(" then
        bind (markField fieldFrom fieldEndPos) (fun r1 =>
        bind (hideRange openBracketPos valuePos) (fun r2 =>
        bind (markStandaloneValue valuePos closeBracketPos) (fun r3 =>
        bind (hideRange closeBracketPos fieldEndPos) (fun r4 =>
        Ok [r1; r2; r3; r4]))))
      else if String.eqb w "[" then
        bind (markField fieldFrom fieldEndPos) (fun r1 =>
        bind (hideRange openBracketPos keyPos) (fun r2 =>
        bind (markKey keyPos colonPos) (fun r3 =>
        bind (hideRange colonPos valuePos) (fun r4 =>
        bind (markValue valuePos closeBracketPos) (fun r5 =>
        bind (hideRange closeBracketPos fieldEndPos) (fun r6 =>
        Ok [r1; r2; r3; r4; r5; r6]))))))
      else if String.eqb w "emoji-shorthand" then Ok []
      else Ok []
  | None => Ok []
  end.

(** [fieldRenderInfo(view, line, field)] of this revision: the [render]
    flag. *)
Definition fieldRenderInfo (view : EditorView) (line : Line)
           (field : InlineField) : bool :=
  let isSelected :=
    selectionAndRangeOverlap (selection view)
                             (line_from line + field_start field)
                             (line_from line + field_end field) in
  negb isSelected.

(** A loop body either goes on with a new state or leaves the
    enclosing function by a bare [return]. *)
Inductive Flow (S : Type) : Type :=
| Continue : S -> Flow S
| Return : Flow S.
Arguments Continue {S} _.
Arguments Return {S}.

(** A [for] loop whose body may throw or return. *)
Fixpoint foldFlow {A S} (f : S -> A -> Outcome (Flow S)) (l : list A) (s : S)
  : Outcome (Flow S) :=
  match l with
  | [] => Ok (Continue s)
  | x :: l' =>
      bind (f s x)
           (fun r =>
              match r with
              | Continue s' => foldFlow f l' s'
              | Return => Ok Return
              end)
  end.

Section Render.

Variables Expr V : Type.
Variable host : Host Expr V.
Variable scanner : Scanner.
Variable settings : DataviewSettings.
Variable displayMode : string.
Variable index_initialized : bool.

(** The field loop of [inlineRender] over one line.  [widgets.concat]
    returns a new array and leaves [widgets] as it is. *)
Definition renderFields (view : EditorView) (line : Line)
           (widgets : list (Range V)) : Outcome (Flow (list (Range V))) :=
  foldFlow
    (fun widgets field =>
       if negb (fieldRenderInfo view line field) then Ok Return
       else
         bind (createFieldWidget displayMode view line field)
              (fun widget => Ok (Continue widgets)))
    (extractInlineFields scanner (line_text line)) widgets.

(** The query loop of [inlineRender] over one visible range; the
    [return] of the [enter] callback only leaves the callback. *)
Definition renderQueries (view : EditorView) (currentFile : string)
           (a b : Z) (widgets : list (Range V))
  : Outcome (list (Range V)) :=
  foldM
    (fun widgets node =>
       if negb (fst (queryRenderInfo settings view node)) then Ok widgets
       else
         bind (createQueryWidget host settings node view currentFile)
              (fun widget =>
                 match widget with
                 | Some w => Ok (widgets ++ [w])%list
                 | None => Ok widgets
                 end))
    (iterate view a b) widgets.

(** [inlineRender(view)]; [None] is the bare [return]. *)
Definition inlineRender (view : EditorView)
  : Outcome (option (DecorationSet V)) :=
  if negb index_initialized then Ok None
  else
    match activeFile view with
    | None => Ok None
    | Some currentFile =>
        bind
          (foldFlow
             (fun widgets '(a, b) =>
                bind (lineAt (doc view) a) (fun la =>
                bind (lineAt (doc view) b) (fun lb =>
                bind (foldFlow (fun widgets line =>
                                  renderFields view line widgets)
                               (linesBetween (doc view) (line_number la)
                                             (line_number lb))
                               widgets)
                     (fun r =>
                        match r with
                        | Return => Ok Return
                        | Continue widgets =>
                            bind (renderQueries view currentFile a b widgets)
                                 (fun widgets => Ok (Continue widgets))
                        end))))
             (visibleRanges view) [])
          (fun r =>
             match r with
             | Return => Ok None
             | Continue widgets => Ok (Some (sortRanges widgets))
             end)
    end.

End Render.

(** A bracketed field with white space around key and value, and one
    with an empty value. *)
Definition spacedDoc : Doc := "[ key :: val ]".

Definition spacedField : InlineField :=
  mkField "key" "val" 0 8 14 (Some "[").

Definition spacedView : EditorView :=
  mkView spacedDoc [] [(0, 14)] [] true (Some "note.md").

Definition emptyValueDoc : Doc := "[k::]".

Definition emptyValueField : InlineField :=
  mkField "k" "" 0 4 5 (Some "[").

Definition emptyValueView : EditorView :=
  mkView emptyValueDoc [] [(0, 5)] [] true (Some "note.md").

End SecondRevision.

(** ** The third revision: the field reveal decision

    The revision between the second and the last one (the second
    unnamed source file) replaces a field by one widget.  Its
    [fieldRenderInfo] is the one the last revision extends by the test
    of the display mode. *)

Module ThirdRevision.

(** [fieldRenderInfo(view, line, field)] of this revision: the [render]
    flag.  The display mode of [view] is not read. *)
Definition fieldRenderInfo (view : EditorView) (line : Line)
           (field : InlineField) : bool :=
  let isSelected :=
    selectionAndRangeOverlap (selection view)
                             (line_from line + field_start field)
                             (line_from line + field_end field) in
  negb isSelected.

End ThirdRevision.

(** ** Theorems: selection overlap *)

(** C9. [selectionAndRangeOverlap selection from to] is true exactly when
    some range [r] of the selection has [r.from <= to] and
    [r.to >= from]; with no such range it is false. *)
Theorem selectionAndRangeOverlap_iff :
  forall (selection : EditorSelection) (rangeFrom rangeTo : Z),
    selectionAndRangeOverlap selection rangeFrom rangeTo = true <->
    exists r, In r selection /\ sel_from r <= rangeTo /\ sel_to r >= rangeFrom.
Proof.
  intros selection rangeFrom rangeTo.
  induction selection as [|range rest IH]; simpl.
  - split; [discriminate | intros [r [[] _]]].
  - destruct (sel_from range <=? rangeTo) eqn:Hf;
      destruct (sel_to range >=? rangeFrom) eqn:Ht; simpl.
    + split; [intros _ | reflexivity].
      exists range. repeat split; [now left | lia | lia].
    + rewrite IH. split.
      * intros [r [Hin Hr]]. exists r. split; [now right | exact Hr].
      * intros [r [[Heq | Hin] Hr]]; [subst r; lia | exists r; tauto].
    + rewrite IH. split.
      * intros [r [Hin Hr]]. exists r. split; [now right | exact Hr].
      * intros [r [[Heq | Hin] Hr]]; [subst r; lia | exists r; tauto].
    + rewrite IH. split.
      * intros [r [Hin Hr]]. exists r. split; [now right | exact Hr].
      * intros [r [[Heq | Hin] Hr]]; [subst r; lia | exists r; tauto].
Qed.

(** ** Theorems: the field reveal decision *)

(** C6, as amended.  [fieldRenderInfo] of the last revision computes
    [render = !overlaps(selection, line.from + field.start,
    line.from + field.end)] in live-preview mode, and in source-display
    mode [render] is true whatever the selection; [fieldRenderInfo] of
    the third revision computes
    [render = !overlaps(selection, line.from + field.start,
    line.from + field.end)] whatever the display mode of the view. *)
Theorem fieldRenderInfo_law :
  forall (V : Type) (d : DecorationSet V) (view : EditorView)
         (line : Line) (field : InlineField),
    fieldRenderInfo (mkPlugin d true) view line field
    = negb (selectionAndRangeOverlap (selection view)
              (line_from line + field_start field)
              (line_from line + field_end field))
    /\ fieldRenderInfo (mkPlugin d false) view line field = true
    /\ ThirdRevision.fieldRenderInfo view line field
       = negb (selectionAndRangeOverlap (selection view)
                 (line_from line + field_start field)
                 (line_from line + field_end field)).
Proof.
  intros V d view line field.
  unfold fieldRenderInfo, ThirdRevision.fieldRenderInfo. simpl.
  repeat split; reflexivity.
Qed.

(** Counterexample to C6 as stated, on the third revision.  The view
    of [Demo.nestedDoc] is in source-display mode and the cursor is
    inside the field of its one line: [render] is false there, so the
    selection does suppress rendering, whereas the last revision gives
    true on the same input. *)
Lemma third_revision_ignores_display_mode :
  exists line,
    livePreviewField Examples.fieldSelectedSourceView = false
    /\ lineAt (doc Examples.fieldSelectedSourceView) 0 = Ok line
    /\ In Demo.nestedField (fieldsOfLine Demo.scanner line)
    /\ selectionAndRangeOverlap
         (selection Examples.fieldSelectedSourceView)
         (line_from line + field_start Demo.nestedField)
         (line_from line + field_end Demo.nestedField) = true
    /\ ThirdRevision.fieldRenderInfo Examples.fieldSelectedSourceView line
                                     Demo.nestedField = false
    /\ fieldRenderInfo (mkPlugin (V := string) [] false)
                       Examples.fieldSelectedSourceView line
                       Demo.nestedField = true.
Proof.
  eexists. split; [reflexivity|]. split; [vm_compute; reflexivity|].
  split; [vm_compute; left; reflexivity|].
  repeat split; reflexivity.
Qed.

(** ** Theorems: widget equality *)

(** [eq] answers true exactly when the two source strings are equal. *)
Lemma widget_eq_true_iff :
  forall (V : Type) (this other : InlineWidget V),
    fst (widget_eq this other) = true
    <-> sourceString other = sourceString this.
Proof.
  intros V this other. unfold widget_eq.
  destruct (String.eqb_spec (sourceString other) (sourceString this)) as [E|NE];
    simpl; split; intro H; try reflexivity; try assumption;
    [discriminate | contradiction].
Qed.

(** [eq] never touches the element of the other widget, nor the content
    of its own. *)
Lemma widget_eq_content :
  forall (V : Type) (this other : InlineWidget V),
    content (el (snd (widget_eq this other))) = content (el this).
Proof.
  intros V this other. unfold widget_eq.
  destruct (String.eqb (sourceString other) (sourceString this)); simpl;
    [|reflexivity].
  generalize (el this). induction (cssClasses other) as [|c cs IH];
    intro e; simpl; [reflexivity|].
  rewrite IH. unfold eq_patch, removeClass, addClass.
  destruct (negb (includes (cssClasses this) c)); simpl; [reflexivity|].
  destruct (includes (classList e) c); reflexivity.
Qed.

(** C7, at the failing input.  The widget on screen carries
    [cm-strong]; a fresh widget for the same source carries [cm-em].
    Whichever of the two [eq] is called on, it answers true and the
    element it patches ends up without [cm-em]: the element on screen
    keeps [cm-strong], the fresh element stays with the two base
    classes. *)
Theorem widget_eq_does_not_patch_classes :
  fst (widget_eq Demo.shownWidget Demo.freshWidget) = true
  /\ classList (el (snd (widget_eq Demo.shownWidget Demo.freshWidget)))
     = ["dataview"; "dataview-inline"; "cm-strong"]
  /\ fst (widget_eq Demo.freshWidget Demo.shownWidget) = true
  /\ classList (el (snd (widget_eq Demo.freshWidget Demo.shownWidget)))
     = ["dataview"; "dataview-inline"].
Proof. repeat split; reflexivity. Qed.

(** ** Theorems: query widget construction *)

Section QueryWidget.

Variables Expr V : Type.
Variable host : Host Expr V.
Variable settings : DataviewSettings.

(** The one exception that leaves [createQueryWidget]: the one thrown
    by the string conversion in the [catch] block of an enabled script
    query, when the value the script threw has no string conversion. *)
Lemma createQueryWidget_raises :
  forall node view currentFile e,
    createQueryWidget host settings node view currentFile = Raise e ->
    let text := sliceDoc (doc view) (node_from node) (node_to node) in
    let code :=
      trim (substringFrom (String.length (inlineJsQueryPrefix settings))
                          text) in
    startsWith text (inlineQueryPrefix settings) = false
    /\ startsWith text (inlineJsQueryPrefix settings) = true
    /\ enableInlineDataviewJs settings = true
    /\ evalInContext host
         (if str_includes "await" code
          then "(async () => { " ++ PREAMBLE ++ code ++ " })()"
          else PREAMBLE ++ code)%string
         currentFile = Raise (Opaque e).
Proof.
  intros node view currentFile e. unfold createQueryWidget.
  destruct (String.eqb _ newline); [discriminate|].
  cbv zeta.
  destruct (startsWith _ (inlineQueryPrefix settings));
    destruct (startsWith _ (inlineJsQueryPrefix settings));
    destruct (enableInlineDataview settings);
    destruct (enableInlineDataviewJs settings);
    cbn [negb andb orb bind]; try discriminate;
    repeat match goal with
           | |- context [tryOrPropogate ?x] => destruct (tryOrPropogate x)
           end; cbn [bind]; try discriminate.
  all: destruct (str_includes "await" _);
    match goal with
    | |- context [evalInContext ?h ?s ?f] =>
        destruct (evalInContext h s f) as [v|[m|e']]
    end; cbn [bind try_catch toText]; try discriminate;
    intro H; injection H as H; subst e'; repeat split; reflexivity.
Qed.

(** When no script throws a value without string conversion, no
    exception of the parser, the engine or a script leaves
    [createQueryWidget]. *)
Lemma createQueryWidget_returns :
  forall node view currentFile,
    (forall script e,
        evalInContext host script currentFile <> Raise (Opaque e)) ->
    exists r, createQueryWidget host settings node view currentFile = Ok r.
Proof.
  intros node view currentFile Hconv.
  destruct (createQueryWidget host settings node view currentFile)
    as [r|e] eqn:E; [exists r; reflexivity|].
  apply createQueryWidget_raises in E. destruct E as [_ [_ [_ E]]].
  exfalso. exact (Hconv _ _ E).
Qed.

(** With the matching flag off the widget shows the literal
    "(disabled; enable in settings)". *)
Lemma createQueryWidget_disabled :
  forall node view currentFile,
    sliceDoc (doc view) (node_to node) (node_to node + 1) <> newline ->
    let text := sliceDoc (doc view) (node_from node) (node_to node) in
    (startsWith text (inlineQueryPrefix settings)
     && negb (enableInlineDataview settings))
    || (startsWith text (inlineJsQueryPrefix settings)
        && negb (enableInlineDataviewJs settings)) = true ->
    createQueryWidget host settings node view currentFile
    = Ok (Some (mkRange (node_from node - 1) (node_to node + 1)
                  (Replace
                     (mkWidget (getCssClasses (node_props node)) ""
                        (mkEl ["dataview"; "dataview-inline"]
                              (Text "(disabled; enable in settings)")))))).
Proof.
  intros node view currentFile Hnl text Hoff. unfold createQueryWidget.
  destruct (String.eqb_spec
              (sliceDoc (doc view) (node_to node) (node_to node + 1))
              newline) as [E|_]; [contradiction|].
  fold text. rewrite Hoff.
  destruct (startsWith text (inlineQueryPrefix settings));
    destruct (startsWith text (inlineJsQueryPrefix settings));
    simpl in *; try discriminate; reflexivity.
Qed.

(** A parse failure, returned or thrown, becomes the text
    "Dataview (inline field '<code>'): <error>". *)
Lemma createQueryWidget_parse_failure :
  forall node view currentFile error,
    sliceDoc (doc view) (node_to node) (node_to node + 1) <> newline ->
    let text := sliceDoc (doc view) (node_from node) (node_to node) in
    let code :=
      trim (substringFrom (String.length (inlineQueryPrefix settings))
                          text) in
    startsWith text (inlineQueryPrefix settings) = true ->
    enableInlineDataview settings = true ->
    (startsWith text (inlineJsQueryPrefix settings)
     && negb (enableInlineDataviewJs settings)) = false ->
    tryOrPropogate (parseField host code) = Failure error ->
    createQueryWidget host settings node view currentFile
    = Ok (Some (mkRange (node_from node - 1) (node_to node + 1)
                  (Replace
                     (mkWidget (getCssClasses (node_props node)) code
                        (mkEl ["dataview"; "dataview-inline"]
                              (Text ("Dataview (inline field '" ++ code
                                       ++ "'): " ++ error)%string)))))).
Proof.
  intros node view currentFile error Hnl text code Hq Hon Hjs Hparse.
  unfold createQueryWidget.
  destruct (String.eqb_spec
              (sliceDoc (doc view) (node_to node) (node_to node + 1))
              newline) as [E|_]; [contradiction|].
  fold text. rewrite Hq, Hon, Hjs. simpl. fold code. rewrite Hparse.
  reflexivity.
Qed.

(** C5. When the character right after the node is a newline,
    [createQueryWidget] returns without a widget and without throwing,
    and [addQueryDecorator] leaves the plugin value, hence the
    decoration store, as it was. *)
Theorem createQueryWidget_unterminated :
  forall (this : PluginValue V) (node : SyntaxNode)
         (view : EditorView) (currentFile : string),
    sliceDoc (doc view) (node_to node) (node_to node + 1) = newline ->
    createQueryWidget host settings node view currentFile = Ok None
    /\ addQueryDecorator host settings this node view = Ok this.
Proof.
  intros this node view currentFile Hnl.
  assert (Hnone : forall f,
             createQueryWidget host settings node view f = Ok None).
  { intro f. unfold createQueryWidget. rewrite Hnl.
    rewrite String.eqb_refl. reflexivity. }
  split; [apply Hnone|].
  unfold addQueryDecorator.
  destruct (existsBetween _ _ _); [reflexivity|].
  destruct (activeFile view) as [f|]; [|reflexivity].
  rewrite Hnone. reflexivity.
Qed.

End QueryWidget.

(** Witness of C5: the open code span of [Demo.openDoc]. *)
Lemma createQueryWidget_unterminated_witness :
  createQueryWidget Demo.host Demo.settings Demo.queryNode Demo.openView
                    "note.md" = Ok None
  /\ addQueryDecorator Demo.host Demo.settings (mkPlugin [] true)
                       Demo.queryNode Demo.openView
     = Ok (mkPlugin [] true).
Proof.
  apply (createQueryWidget_unterminated Demo.host Demo.settings
           (mkPlugin [] true) Demo.queryNode Demo.openView "note.md").
  reflexivity.
Defined.

(** C4, at the failing input.  For the script query
    [$= await reject()] the asynchronous wrapper returns a promise that
    is later rejected.  [createQueryWidget] returns a widget whose
    element is empty now and is still empty once the promise has
    settled: the rejection is not turned into the
    "Dataview (for inline JS query ...)" text. *)
Theorem createQueryWidget_rejected_promise_shows_nothing :
  exists w,
    createQueryWidget Demo.host Demo.settings Demo.rejectNode Demo.rejectView
                      "note.md"
    = Ok (Some (mkRange 0 19 (Replace w)))
    /\ sourceString w = "await reject()"
    /\ content (el w) = Deferred (Rejected "Error: rejected")
    /\ settled_content (content (el w)) = Empty.
Proof.
  eexists. split; [vm_compute; reflexivity|].
  repeat split; reflexivity.
Qed.

(** ** Theorems: the index-readiness gate *)

(** In the first revision the from-scratch render consults the flag:
    with the index not initialized it returns nothing. *)
Lemma inlineQueryRender_gate :
  forall (Expr V : Type) (host : Host Expr V) (settings : DataviewSettings)
         (view : EditorView),
    QueryOnly.inlineQueryRender host settings false view = Ok None.
Proof. reflexivity. Qed.

(** C8, at the failing input.  With the index not initialized, the
    constructor of the first revision installs nothing, but the next
    selection-changed update installs the widget of the query of
    [Demo.queryDoc]; the constructor of the last revision, which never
    reads the flag, installs it at once. *)
Theorem uninitialized_index_still_renders :
  QueryOnly.construct Demo.host Demo.settings false Demo.queryView = Ok []
  /\ (exists w,
        QueryOnly.update Demo.host Demo.settings false
                         (Demo.selectionEvent Demo.queryView) []
        = Ok [mkRange 0 5 (Replace w)])
  /\ (exists w,
        construct Demo.host Demo.scanner Demo.settings Demo.queryView
        = Ok (mkPlugin [mkRange 0 5 (Replace w)] true)).
Proof.
  split; [reflexivity|].
  split; eexists; vm_compute; reflexivity.
Qed.

(** ** Theorems: removal from the store *)

Lemma update_filter_none :
  forall (V : Type) (cur : DecorationSet V) (a b : Z),
    update_filter cur a b (fun _ => false)
    = filter (fun r => negb (touches a b r)) cur.
Proof.
  intros V cur a b. unfold update_filter. apply filter_ext. intro r.
  unfold touches. rewrite orb_false_r, negb_andb.
  rewrite orb_comm. f_equal.
  - destruct (Z.leb_spec (from r) b), (Z.ltb_spec b (from r));
      simpl; try reflexivity; lia.
  - rewrite Z.geb_leb, Z.gtb_ltb.
    destruct (Z.leb_spec a (to r)), (Z.ltb_spec (to r) a);
      simpl; try reflexivity; lia.
Qed.

Lemma filter_filter :
  forall (A : Type) (p q : A -> bool) (l : list A),
    filter p (filter q l) = filter (fun x => q x && p x) l.
Proof.
  intros A p q l. induction l as [|x l IH]; simpl; [reflexivity|].
  destruct (q x); simpl; [destruct (p x)|]; rewrite IH; reflexivity.
Qed.

Lemma filter_none :
  forall (A : Type) (p : A -> bool) (l : list A),
    (forall x, In x l -> p x = false) -> filter p l = [].
Proof.
  intros A p l H. induction l as [|x l IH]; simpl; [reflexivity|].
  rewrite (H x (or_introl eq_refl)). apply IH.
  intros y Hy. apply H. now right.
Qed.

(** What the chain of filters leaves: the decorations touching none of
    the ranges [found]. *)
Lemma fold_update_filter :
  forall (V : Type) (found : list (Range V)) (cur : DecorationSet V),
    fold_left
      (fun cur r => update_filter cur (from r) (to r) (fun _ => false))
      found cur
    = filter
        (fun d => negb (existsb (fun d1 => touches (from d1) (to d1) d) found))
        cur.
Proof.
  intros V found. induction found as [|r found IH]; intro cur; simpl.
  - symmetry. apply forallb_filter_id. apply forallb_forall. reflexivity.
  - rewrite IH, update_filter_none, filter_filter.
    apply filter_ext. intro d. rewrite negb_orb. reflexivity.
Qed.

(** The store after a removal over [a .. b]: a decoration stays exactly
    when it touches none of the decorations that touched [a .. b]. *)
Lemma removeBetween_spec :
  forall (V : Type) (set : DecorationSet V) (a b : Z),
    removeBetween set a b
    = filter
        (fun d =>
           negb (existsb (fun d1 => touches (from d1) (to d1) d)
                         (between set a b)))
        set.
Proof. intros. unfold removeBetween. apply fold_update_filter. Qed.

(** After a removal nothing touches [a .. b] any more. *)
Lemma removeBetween_clears :
  forall (V : Type) (set : DecorationSet V) (a b : Z),
    (forall r, In r set -> from r <= to r) ->
    between (removeBetween set a b) a b = [].
Proof.
  intros V set a b Hwf. rewrite removeBetween_spec.
  unfold between at 1. rewrite filter_filter. apply filter_none.
  intros d Hd.
  destruct (touches a b d) eqn:Ht; [|apply andb_false_r].
  rewrite andb_true_r. apply negb_false_iff. apply existsb_exists.
  exists d. split.
  - unfold between. apply filter_In. split; assumption.
  - unfold touches. specialize (Hwf d Hd).
    apply andb_true_intro. split; [apply Z.leb_le | apply Z.geb_le]; lia.
Qed.

(** C10, as amended.  After [removeQueryDecorator(node)] (resp.
    [removeFieldDecorator(line, field)]) no decoration of the store
    touches [node.from - 1 .. node.to + 1] (resp.
    [line.from + field.start .. line.from + field.end]); the
    decorations that remain are, in their order, exactly those that
    touch none of the decorations that touched that interval. *)
Theorem remove_decorator_frame :
  forall (V : Type) (this : PluginValue V) (node : SyntaxNode)
         (line : Line) (field : InlineField),
    (forall r, In r (decorations this) -> from r <= to r) ->
    (between (decorations (removeQueryDecorator this node))
             (node_from node - 1) (node_to node + 1) = []
     /\ decorations (removeQueryDecorator this node)
        = filter
            (fun d =>
               negb (existsb (fun d1 => touches (from d1) (to d1) d)
                       (between (decorations this)
                                (node_from node - 1) (node_to node + 1))))
            (decorations this))
    /\ (between (decorations (removeFieldDecorator this line field))
                (line_from line + field_start field)
                (line_from line + field_end field) = []
        /\ decorations (removeFieldDecorator this line field)
           = filter
               (fun d =>
                  negb (existsb (fun d1 => touches (from d1) (to d1) d)
                          (between (decorations this)
                                   (line_from line + field_start field)
                                   (line_from line + field_end field))))
               (decorations this)).
Proof.
  intros V this node line field Hwf.
  unfold removeQueryDecorator, removeFieldDecorator, setDecorations. simpl.
  repeat split;
    first [apply removeBetween_clears; exact Hwf | apply removeBetween_spec].
Qed.

(** Witness of C10: the marks of the field of [Demo.nestedDoc]. *)
Lemma remove_decorator_frame_witness :
  decorations (removeQueryDecorator (mkPlugin Demo.sourceMarks true)
                                    Demo.outerQuery)
  = filter
      (fun d =>
         negb (existsb (fun d1 => touches (from d1) (to d1) d)
                 (between Demo.sourceMarks 11 16)))
      Demo.sourceMarks.
Proof.
  apply (remove_decorator_frame (mkPlugin Demo.sourceMarks true)
           Demo.outerQuery (mkLine 0 16 1 Demo.nestedDoc) Demo.nestedField).
  simpl. intros r Hr.
  repeat (destruct Hr as [Hr|Hr]; [subst r; simpl; lia|]).
  destruct Hr.
Defined.

(** Counterexample to C10 as stated.  Removing the decorator of the
    second query of [Demo.nestedDoc], whose interval is [11 .. 16],
    also takes away the value mark at [4 .. 10], which does not touch
    that interval: it touches the bracket mark at [10 .. 11], which
    does. *)
Lemma remove_decorator_takes_neighbours :
  ~ (forall (this : PluginValue string) (node : SyntaxNode) (r : Range string),
        In r (decorations this) ->
        touches (node_from node - 1) (node_to node + 1) r = false ->
        In r (decorations (removeQueryDecorator this node))).
Proof.
  intro H.
  specialize (H (mkPlugin Demo.sourceMarks true) Demo.outerQuery
                (mkRange 4 10
                   (Mark "dataview source-mode-inline-field-value" true))).
  assert (Hin : In (mkRange 4 10
                      (Mark "dataview source-mode-inline-field-value" true))
                   (decorations
                      (removeQueryDecorator (mkPlugin Demo.sourceMarks true)
                                            Demo.outerQuery))).
  { apply H; [simpl; tauto | reflexivity]. }
  vm_compute in Hin.
  repeat (destruct Hin as [Hin|Hin]; [discriminate Hin|]).
  exact Hin.
Qed.

(** ** Theorems: mutual exclusion *)

Lemma apart_sym :
  forall (V : Type) (r1 r2 : Range V), apart r1 r2 -> apart r2 r1.
Proof. unfold apart. intros V r1 r2 H H2 H1. destruct (H H1 H2); auto. Qed.

Lemma apart_mark :
  forall (V : Type) (r1 r2 : Range V), isReplace r1 = false -> apart r1 r2.
Proof. unfold apart. intros V r1 r2 H H1. congruence. Qed.

Lemma exclusive_filter :
  forall (V : Type) (p : Range V -> bool) (set : DecorationSet V),
    exclusive set -> exclusive (filter p set).
Proof.
  intros V p set H. induction H as [|x l Hx Hl IH]; simpl.
  - constructor.
  - destruct (p x); [|exact IH].
    constructor; [|exact IH].
    apply Forall_forall. intros y Hy. apply filter_In in Hy.
    rewrite Forall_forall in Hx. apply Hx. tauto.
Qed.

Lemma exclusive_marks :
  forall (V : Type) (l : list (Range V)),
    (forall r, In r l -> isReplace r = false) -> exclusive l.
Proof.
  intros V l H. induction l as [|x l IH]; constructor.
  - apply Forall_forall. intros y _. apply apart_mark. apply H. now left.
  - apply IH. intros r Hr. apply H. now right.
Qed.

Lemma merge_In :
  forall (V : Type) (add cur : list (Range V)) (x : Range V),
    In x (merge add cur) -> In x add \/ In x cur.
Proof.
  intros V add. induction add as [|a add IH]; intros cur x; simpl.
  - tauto.
  - induction cur as [|c cur IHc]; simpl.
    + tauto.
    + destruct (goes_before a c); simpl.
      * intros [E|Hin]; [tauto|]. apply IH in Hin. simpl in Hin. tauto.
      * intros [E|Hin]; [tauto|]. apply IHc in Hin. tauto.
Qed.

Lemma exclusive_merge :
  forall (V : Type) (add cur : list (Range V)),
    exclusive add -> exclusive cur ->
    (forall a c, In a add -> In c cur -> apart a c) ->
    exclusive (merge add cur).
Proof.
  intros V add. induction add as [|a add IH]; intros cur Hadd Hcur Hx; simpl.
  - exact Hcur.
  - inversion Hadd as [|? ? Ha Hadd']; subst.
    rewrite Forall_forall in Ha.
    induction cur as [|c cur IHc]; simpl.
    + exact Hadd.
    + inversion Hcur as [|? ? Hc Hcur']; subst.
      rewrite Forall_forall in Hc.
      destruct (goes_before a c).
      * constructor.
        -- apply Forall_forall. intros y Hy. apply merge_In in Hy.
           destruct Hy as [Hy|Hy];
             [apply Ha, Hy | apply Hx; [now left|exact Hy]].
        -- apply IH; [exact Hadd' | exact Hcur |].
           intros a' c' Ha' Hc'. apply Hx; [now right | exact Hc'].
      * constructor.
        -- apply Forall_forall. intros y Hy.
           change (In y (merge (a :: add) cur)) in Hy.
           apply merge_In in Hy.
           destruct Hy as [Hy|Hy];
             [apply apart_sym, Hx; [exact Hy | now left] | apply Hc, Hy].
        -- apply IHc; [exact Hcur'|].
           intros a' c' Ha' Hc'. apply Hx; [exact Ha' | now right].
Qed.

Lemma insert_sorted_In :
  forall (V : Type) (x y : Range V) (l : list (Range V)),
    In y (insert_sorted x l) -> y = x \/ In y l.
Proof.
  intros V x y l. induction l as [|z l IH]; simpl.
  - intros [E|[]]; auto.
  - destruct (cmpRange_le z x); simpl.
    + intros [E|H]; [auto|]. apply IH in H. tauto.
    + intros [E|[E|H]]; auto.
Qed.

Lemma sortRanges_In :
  forall (V : Type) (add : list (Range V)) (y : Range V),
    In y (sortRanges add) -> In y add.
Proof.
  intros V add y. unfold sortRanges.
  assert (G : forall acc,
             In y (fold_left (fun acc x => insert_sorted x acc) add acc)
                          -> In y add \/ In y acc).
  { induction add as [|x add IH]; intro acc; simpl; [tauto|].
    intro H. apply IH in H. destruct H as [H|H]; [tauto|].
    apply insert_sorted_In in H. destruct H; [subst; tauto | tauto]. }
  intro H. apply G in H. destruct H as [H|[]]. exact H.
Qed.

Lemma markRange_mark :
  forall (V : Type) cls inclusive a b (r : Range V),
    markRange V cls inclusive a b = Ok r -> isReplace r = false.
Proof.
  intros V cls inclusive a b r. unfold markRange.
  destruct (a >=? b); [discriminate|]. intro H. inversion H. reflexivity.
Qed.

(** The source-mode field decorator returns marks only. *)
Lemma createFieldDecoratorSourceMode_marks :
  forall (V : Type) line field (l : list (Range V)),
    createFieldDecoratorSourceMode V line field = Ok l ->
    forall r, In r l -> isReplace r = false.
Proof.
  intros V line field l. unfold createFieldDecoratorSourceMode.
  repeat match goal with
         | |- context [markRange V ?c ?i ?a ?b] =>
             let H := fresh "Hm" in
             let m := fresh "m" in
             destruct (markRange V c i a b) as [m|] eqn:H;
             [apply markRange_mark in H|]
         end;
    repeat match goal with
           | |- context [if ?c then _ else _] => destruct c
           end; simpl; try discriminate;
    intro H; inversion H; subst; simpl;
    intros r Hr;
    repeat (destruct Hr as [Hr|Hr]; [subst r; assumption|]);
    destruct Hr.
Qed.

Lemma exclusive_removeBetween :
  forall (V : Type) (set : DecorationSet V) (a b : Z),
    exclusive set -> exclusive (removeBetween set a b).
Proof.
  intros V set a b H. rewrite removeBetween_spec.
  apply exclusive_filter, H.
Qed.

Lemma existsBetween_false :
  forall (V : Type) (set : DecorationSet V) (a b : Z),
    existsBetween set a b = false ->
    forall c, In c set -> touches a b c = false.
Proof.
  intros V set a b H c Hc. unfold existsBetween in H.
  destruct (between set a b) as [|x l] eqn:E; [|discriminate].
  destruct (touches a b c) eqn:Ht; [|reflexivity].
  assert (Hin : In c (between set a b))
    by (unfold between; apply filter_In; auto).
  rewrite E in Hin. destruct Hin.
Qed.

(** A range that touches nothing in the store is apart from all of it. *)
Lemma untouched_apart :
  forall (V : Type) (a b : Z) (d : Decoration V) (c : Range V),
    touches a b c = false -> apart (mkRange a b d) c.
Proof.
  intros V a b d c Ht _ _. simpl. unfold touches in Ht.
  apply andb_false_iff in Ht. destruct Ht as [Ht|Ht].
  - apply Z.leb_gt in Ht. left. lia.
  - rewrite Z.geb_leb in Ht. apply Z.leb_gt in Ht. right. lia.
Qed.

(** The invariant of a monadic fold. *)
Lemma foldM_invariant :
  forall (A S : Type) (P : S -> Prop) (f : S -> A -> Outcome S),
    (forall s x s', P s -> f s x = Ok s' -> P s') ->
    forall (l : list A) (s s' : S),
      P s -> foldM f l s = Ok s' -> P s'.
Proof.
  intros A S P f Hf l. induction l as [|x l IH]; intros s s' Hs H; simpl in H.
  - inversion H. subst. exact Hs.
  - destruct (f s x) as [s1|e] eqn:E; simpl in H; [|discriminate].
    apply (IH s1 s'); [apply (Hf s x s1 Hs E) | exact H].
Qed.

Section Exclusion.

Variables Expr V : Type.
Variable host : Host Expr V.
Variable scanner : Scanner.
Variable settings : DataviewSettings.

Lemma addQueryDecorator_exclusive :
  forall (this : PluginValue V) node view this',
    exclusiveStore this ->
    addQueryDecorator host settings this node view = Ok this' ->
    exclusiveStore this'.
Proof.
  unfold exclusiveStore. intros this node view this' Hok.
  unfold addQueryDecorator.
  destruct (existsBetween (decorations this) (node_from node - 1)
                          (node_to node + 1)) eqn:Hex.
  { intro H. inversion H. subst. exact Hok. }
  destruct (activeFile view) as [f|];
    [|intro H; inversion H; subst; exact Hok].
  destruct (createQueryWidget host settings node view f) as [[r|]|e];
    simpl; intro H; inversion H; subst; try exact Hok.
  simpl. unfold update_add. apply exclusive_merge.
  - repeat constructor.
  - exact Hok.
  - intros a c [Ha|[]] Hc. subst a.
    apply untouched_apart. apply (existsBetween_false _ _ _ Hex c Hc).
Qed.

Lemma addFieldDecorator_exclusive :
  forall (this : PluginValue V) view line field this',
    exclusiveStore this -> addFieldDecorator this view line field = Ok this' ->
    exclusiveStore this'.
Proof.
  unfold exclusiveStore. intros this view line field this' Hok.
  unfold addFieldDecorator.
  destruct (existsBetween _ _ _).
  { intro H. inversion H. subst. exact Hok. }
  destruct (activeFile view) as [f|];
    [|intro H; inversion H; subst; exact Hok].
  assert (Hmarks : forall l,
             (if livepreview this
              then createFieldDecoratorLivePreview V line field
              else createFieldDecoratorSourceMode V line field) = Ok l ->
             forall r, In r l -> isReplace r = false).
  { intro l. destruct (livepreview this).
    - unfold createFieldDecoratorLivePreview. intro H. inversion H.
      intros r [].
    - apply createFieldDecoratorSourceMode_marks. }
  destruct (if livepreview this then _ else _) as [l|e];
    simpl; intro H; inversion H; subst.
  simpl. unfold update_add. apply exclusive_merge.
  - apply exclusive_marks. intros r Hr.
    apply (Hmarks l eq_refl). apply sortRanges_In, Hr.
  - exact Hok.
  - intros a c Ha _. apply apart_mark.
    apply (Hmarks l eq_refl). apply sortRanges_In, Ha.
Qed.

Lemma fieldStep_exclusive :
  forall view line (this : PluginValue V) field this',
    exclusiveStore this -> fieldStep view line this field = Ok this' ->
    exclusiveStore this'.
Proof.
  intros view line this field this' Hok. unfold fieldStep.
  destruct (negb (fieldRenderInfo this view line field)).
  - intro H. inversion H. subst. unfold exclusiveStore. simpl.
    apply exclusive_removeBetween, Hok.
  - apply addFieldDecorator_exclusive, Hok.
Qed.

Lemma queryStep_exclusive :
  forall view (this : PluginValue V) node this',
    exclusiveStore this -> queryStep host settings view this node = Ok this' ->
    exclusiveStore this'.
Proof.
  intros view this node this' Hok. unfold queryStep.
  destruct (queryRenderInfo settings view node) as [render isQuery].
  destruct (negb render && isQuery).
  - intro H. inversion H. subst. unfold exclusiveStore. simpl.
    apply exclusive_removeBetween, Hok.
  - destruct render.
    + apply addQueryDecorator_exclusive, Hok.
    + intro H. inversion H. subst. exact Hok.
Qed.

Lemma updateTree_exclusive :
  forall view (this : PluginValue V) this',
    exclusiveStore this ->
    updateTree host scanner settings view this = Ok this' ->
    exclusiveStore this'.
Proof.
  intros view this this' Hok. unfold updateTree.
  destruct (updateFields scanner view this) as [this1|e] eqn:Ef;
    simpl; [|discriminate].
  assert (Hok1 : exclusiveStore this1).
  { revert Ef. unfold updateFields.
    apply foldM_invariant; [|exact Hok].
    intros s [a b] s' Hs.
    destruct (lineAt (doc view) a) as [la|]; simpl; [|discriminate].
    destruct (lineAt (doc view) b) as [lb|]; simpl; [|discriminate].
    apply foldM_invariant; [|exact Hs].
    intros s1 line s1' Hs1.
    apply foldM_invariant; [|exact Hs1].
    intros s2 field s2'. apply fieldStep_exclusive. }
  destruct (negb (livepreview this1)).
  - intro H. inversion H. subst. exact Hok1.
  - unfold updateQueries.
    apply foldM_invariant; [|exact Hok1].
    intros s [a b] s' Hs.
    apply foldM_invariant; [|exact Hs].
    intros s1 node s1'. apply queryStep_exclusive.
Qed.

Lemma mapDecorations_In :
  forall (changes : ChangeDesc) (set : DecorationSet V) (y : Range V),
    In y (mapDecorations changes set) ->
    exists r, In r set /\ mapRange changes r = Some (from y, to y)
              /\ value y = value r.
Proof.
  intros changes set y H. unfold mapDecorations in H.
  apply in_flat_map in H. destruct H as [r [Hr Hy]].
  exists r. split; [exact Hr|].
  destruct (mapRange changes r) as [[a b]|]; [|destruct Hy].
  destruct Hy as [E|[]]. subst y. simpl. auto.
Qed.

(** The end side of a Replace-decoration lies below its start side. *)
Lemma replace_sides :
  forall (r1 r2 : Range V),
    isReplace r1 = true -> isReplace r2 = true ->
    endSide (value r1) <= startSide (value r2).
Proof.
  intros r1 r2. unfold isReplace.
  destruct (value r1), (value r2); simpl; intros H1 H2;
    try discriminate; lia.
Qed.

Lemma mapDecorations_exclusive :
  forall (changes : ChangeDesc) (set : DecorationSet V),
    order_preserving changes ->
    exclusive set -> exclusive (mapDecorations changes set).
Proof.
  intros changes set Hmono H.
  induction H as [|x l Hx Hl IH]; simpl; [constructor|].
  destruct (mapRange changes x) as [[a b]|] eqn:Ex; simpl;
    [|exact IH].
  constructor; [|exact IH].
  apply Forall_forall. intros y Hy.
  apply mapDecorations_In in Hy. destruct Hy as [r [Hr [Er Ev]]].
  rewrite Forall_forall in Hx. specialize (Hx r Hr).
  intros H1 H2. simpl.
  assert (R1 : isReplace x = true) by exact H1.
  assert (R2 : isReplace r = true)
    by (unfold isReplace in *; rewrite <- Ev; exact H2).
  unfold mapRange in Ex, Er.
  destruct (Hx R1 R2) as [Hd|Hd].
  - left.
    exact (Hmono _ _ _ _ _ _ _ _ _ _ _ _ Hd (replace_sides x r R1 R2) Ex Er).
  - right.
    exact (Hmono _ _ _ _ _ _ _ _ _ _ _ _ Hd (replace_sides r x R2 R1) Er Ex).
Qed.

(** Every reachable store keeps its Replace-decorations apart. *)
Lemma reachable_exclusive :
  forall (this : PluginValue V),
    reachable host scanner settings this -> exclusiveStore this.
Proof.
  intros this H. induction H as [view this Hc | u this this' Hr IH Hm Hu].
  - unfold construct in Hc.
    eapply updateTree_exclusive; [|exact Hc]. constructor.
  - unfold update in Hu.
    destruct (docChanged u).
    { eapply updateTree_exclusive; [|exact Hu].
      unfold exclusiveStore. simpl.
      apply mapDecorations_exclusive; assumption. }
    destruct (selectionSet u).
    { eapply updateTree_exclusive; [|exact Hu]. exact IH. }
    destruct (viewportChanged u).
    { eapply updateTree_exclusive; [|exact Hu]. constructor. }
    inversion Hu. subst. exact IH.
Qed.

End Exclusion.

(** In an exclusive store at most one Replace-decoration covers a
    non-empty span. *)
Lemma exclusive_at_most_one :
  forall (V : Type) (set : DecorationSet V) (a b : Z),
    exclusive set -> a < b -> (List.length (replacing set a b) <= 1)%nat.
Proof.
  intros V set a b H Hab. induction H as [|x l Hx Hl IH]; simpl; [lia|].
  destruct (isReplace x && covers a b x) eqn:Ex; [|exact IH].
  simpl. unfold replacing. rewrite filter_none; [simpl; lia|].
  intros y Hy. destruct (isReplace y && covers a b y) eqn:Ey; [|reflexivity].
  exfalso. rewrite Forall_forall in Hx.
  apply andb_true_iff in Ex, Ey. destruct Ex as [Rx Cx], Ey as [Ry Cy].
  unfold covers in Cx, Cy. apply andb_true_iff in Cx, Cy.
  destruct Cx as [Cx1 Cx2], Cy as [Cy1 Cy2].
  apply Z.leb_le in Cx1, Cx2, Cy1, Cy2.
  destruct (Hx y Hy Rx Ry); lia.
Qed.

(** C2. In every state the constructor and any sequence of updates
    lead to, at most one Replace-decoration covers any given non-empty
    span, so never two cover the same field span or query span; and
    [addQueryDecorator] and [addFieldDecorator] leave the store as it is
    when a decoration already touches the span's range. *)
Theorem mutual_exclusion :
  forall (Expr V : Type) (host : Host Expr V) (scanner : Scanner)
         (settings : DataviewSettings) (this : PluginValue V),
    reachable host scanner settings this ->
    (forall a b : Z, a < b ->
       (List.length (replacing (decorations this) a b) <= 1)%nat)
    /\ (forall node view,
          existsBetween (decorations this)
                        (node_from node - 1) (node_to node + 1) = true ->
          addQueryDecorator host settings this node view = Ok this)
    /\ (forall view line field,
          existsBetween (decorations this)
                        (line_from line + field_start field)
                        (line_from line + field_end field) = true ->
          addFieldDecorator this view line field = Ok this).
Proof.
  intros Expr V host scanner settings this Hr. split; [|split].
  - intros a b Hab. apply exclusive_at_most_one; [|exact Hab].
    apply (reachable_exclusive Hr).
  - intros node view Hex. unfold addQueryDecorator. rewrite Hex. reflexivity.
  - intros view line field Hex. unfold addFieldDecorator. rewrite Hex.
    reflexivity.
Qed.

(** Witness of C2: the store the constructor builds for
    [Demo.queryView], and the span of its query. *)
Lemma mutual_exclusion_witness :
  (List.length (replacing (decorations Demo.queryStore) 0 5) <= 1)%nat
  /\ addQueryDecorator Demo.host Demo.settings Demo.queryStore
                       Demo.queryNode Demo.queryView
     = Ok Demo.queryStore.
Proof.
  destruct (mutual_exclusion
              (reach_construct Demo.host Demo.scanner Demo.settings
                               Demo.queryView (this := Demo.queryStore)
                               eq_refl))
    as [Hone [Hquery _]].
  split.
  - apply Hone. lia.
  - apply Hquery. reflexivity.
Defined.

(** ** Theorems: the selection-reveal law *)

(** A monadic fold keeps an invariant that each step on an element of
    the list keeps. *)
Lemma foldM_invariant_in :
  forall (A S : Type) (P : S -> Prop) (f : S -> A -> Outcome S) (l : list A),
    (forall s x s', In x l -> P s -> f s x = Ok s' -> P s') ->
    forall (s s' : S), P s -> foldM f l s = Ok s' -> P s'.
Proof.
  intros A S P f l. induction l as [|x l IH]; intros Hf s s' Hs H;
    simpl in H.
  - inversion H. subst. exact Hs.
  - destruct (f s x) as [s1|e] eqn:E; simpl in H; [|discriminate].
    eapply IH; [| |exact H].
    + intros s0 y s0' Hy. apply Hf. now right.
    + eapply Hf; [now left | exact Hs | exact E].
Qed.

(** A monadic fold over a list containing [x] ends in [Q] when, under
    an invariant [P], the step on [x] establishes [Q] and every step
    keeps [P] and keeps [Q]. *)
Lemma foldM_reaches :
  forall (A S : Type) (P Q : S -> Prop) (f : S -> A -> Outcome S)
         (x : A) (l : list A),
    (forall s y s', In y l -> P s -> f s y = Ok s' -> P s') ->
    (forall s y s', In y l -> Q s -> f s y = Ok s' -> Q s') ->
    (forall s s', P s -> f s x = Ok s' -> Q s') ->
    In x l ->
    forall (s s' : S), P s -> foldM f l s = Ok s' -> Q s'.
Proof.
  intros A S P Q f x l. induction l as [|y l IH];
    intros HP HQ Hx Hin s s' Hs H; [destruct Hin|].
  simpl in H.
  destruct (f s y) as [s1|e] eqn:E; simpl in H; [|discriminate].
  destruct Hin as [Heq|Hin].
  - subst y.
    eapply foldM_invariant_in; [| |exact H].
    + intros s0 z s0' Hz. apply HQ. now right.
    + eapply Hx; [exact Hs | exact E].
  - eapply IH; [| | exact Hx | exact Hin | | exact H].
    + intros s0 z s0' Hz. apply HP. now right.
    + intros s0 z s0' Hz. apply HQ. now right.
    + eapply HP; [now left | exact Hs | exact E].
Qed.

(** Overlap with the selection is monotone in the range. *)
Lemma selectionAndRangeOverlap_wider :
  forall (selection : EditorSelection) (a b a' b' : Z),
    selectionAndRangeOverlap selection a b = true ->
    a' <= a -> b <= b' ->
    selectionAndRangeOverlap selection a' b' = true.
Proof.
  intros selection a b a' b' H Ha Hb.
  induction selection as [|r rest IH]; simpl in *; [discriminate|].
  destruct ((sel_from r <=? b) && (sel_to r >=? a)) eqn:E.
  - apply andb_true_iff in E. destruct E as [E1 E2].
    apply Z.leb_le in E1. rewrite Z.geb_leb in E2. apply Z.leb_le in E2.
    replace (sel_from r <=? b') with true by (symmetry; apply Z.leb_le; lia).
    replace (sel_to r >=? a') with true
      by (symmetry; rewrite Z.geb_leb; apply Z.leb_le; lia).
    reflexivity.
  - rewrite (IH H).
    destruct ((sel_from r <=? b') && (sel_to r >=? a')); reflexivity.
Qed.

Lemma covers_touches :
  forall (V : Type) (a b : Z) (d : Range V),
    a <= b -> covers a b d = true -> touches a b d = true.
Proof.
  intros V a b d Hab H. unfold covers in H. unfold touches.
  apply andb_true_iff in H. destruct H as [H1 H2].
  apply Z.leb_le in H1, H2.
  apply andb_true_intro. split; [apply Z.leb_le | apply Z.geb_le]; lia.
Qed.

Lemma uncovered_covering :
  forall (V : Type) (a b : Z) (this : PluginValue V),
    uncovered a b this -> covering (decorations this) a b = [].
Proof. intros V a b this H. apply filter_none. exact H. Qed.

(** Removing over a span leaves nothing that covers it. *)
Lemma removeBetween_uncovers :
  forall (V : Type) (set : DecorationSet V) (a b : Z) (d : Range V),
    a <= b -> In d (removeBetween set a b) -> covers a b d = false.
Proof.
  intros V set a b d Hab Hd. rewrite removeBetween_spec in Hd.
  apply filter_In in Hd. destruct Hd as [Hin Hkeep].
  destruct (covers a b d) eqn:Hc; [|reflexivity].
  exfalso. apply negb_true_iff in Hkeep.
  assert (Hex : existsb (fun d1 => touches (from d1) (to d1) d)
                        (between set a b) = true).
  { apply existsb_exists. exists d. split.
    - unfold between. apply filter_In. split; [exact Hin|].
      apply covers_touches; assumption.
    - unfold covers in Hc. apply andb_true_iff in Hc. destruct Hc as [H1 H2].
      apply Z.leb_le in H1, H2. unfold touches.
      apply andb_true_intro. split; [apply Z.leb_le | apply Z.geb_le]; lia. }
  congruence.
Qed.

Lemma removeBetween_In :
  forall (V : Type) (set : DecorationSet V) (a b : Z) (d : Range V),
    In d (removeBetween set a b) -> In d set.
Proof.
  intros V set a b d H. rewrite removeBetween_spec in H.
  apply filter_In in H. tauto.
Qed.

Section Reveal.

Variables Expr V : Type.
Variable host : Host Expr V.
Variable scanner : Scanner.
Variable settings : DataviewSettings.
Variable view : EditorView.

(** A span the selection overlaps. *)
Variables a b : Z.
Hypothesis span_ordered : a <= b.
Hypothesis span_selected :
  selectionAndRangeOverlap (selection view) a b = true.

(** A node is rendered only when the selection does not overlap its
    widened range. *)
Lemma queryRenderInfo_render :
  forall node,
    fst (queryRenderInfo settings view node) = true ->
    selectionAndRangeOverlap (selection view)
                             (node_from node - 1) (node_to node + 1)
    = false.
Proof.
  intros node H. unfold queryRenderInfo in H. cbv beta zeta in H.
  unfold fst in H. apply andb_true_iff in H. destruct H as [_ H].
  apply negb_true_iff in H. exact H.
Qed.

Lemma addFieldDecorator_livepreview :
  forall (this : PluginValue V) line field this',
    inLivePreview this -> addFieldDecorator this view line field = Ok this' ->
    this' = this.
Proof.
  unfold inLivePreview. intros this line field this' Hlp.
  unfold addFieldDecorator.
  destruct (existsBetween _ _ _); [intro H; inversion H; reflexivity|].
  destruct (activeFile view); [|intro H; inversion H; reflexivity].
  rewrite Hlp. unfold createFieldDecoratorLivePreview. simpl.
  intro H. inversion H. destruct this as [d l]. simpl in *. subst l.
  reflexivity.
Qed.

Lemma fieldStep_lp :
  forall line (this : PluginValue V) field this',
    inLivePreview this -> fieldStep view line this field = Ok this' ->
    inLivePreview this'.
Proof.
  intros line this field this' Hlp. unfold fieldStep.
  destruct (negb (fieldRenderInfo this view line field)).
  - intro H. inversion H. exact Hlp.
  - intro H. apply addFieldDecorator_livepreview in H; [|exact Hlp].
    subst. exact Hlp.
Qed.

Lemma fieldStep_revealed :
  forall line (this : PluginValue V) field this',
    revealed a b this -> fieldStep view line this field = Ok this' ->
    revealed a b this'.
Proof.
  intros line this field this' [Hlp Hun]. unfold fieldStep.
  destruct (negb (fieldRenderInfo this view line field)).
  - intro H. inversion H. split; [exact Hlp|].
    intros d Hd. simpl in Hd. apply removeBetween_In in Hd.
    apply Hun, Hd.
  - intro H. apply addFieldDecorator_livepreview in H; [|exact Hlp].
    subst. split; assumption.
Qed.

Lemma addQueryDecorator_livepreview :
  forall (this : PluginValue V) node this',
    addQueryDecorator host settings this node view = Ok this' ->
    livepreview this' = livepreview this.
Proof.
  intros this node this'. unfold addQueryDecorator.
  destruct (existsBetween _ _ _); [intro H; inversion H; reflexivity|].
  destruct (activeFile view) as [f|]; [|intro H; inversion H; reflexivity].
  destruct (createQueryWidget host settings node view f) as [[r|]|e];
    simpl; intro H; inversion H; reflexivity.
Qed.

Lemma queryStep_lp :
  forall (this : PluginValue V) node this',
    inLivePreview this -> queryStep host settings view this node = Ok this' ->
    inLivePreview this'.
Proof.
  unfold inLivePreview. intros this node this' Hlp. unfold queryStep.
  destruct (queryRenderInfo settings view node) as [render isQuery].
  destruct (negb render && isQuery); [intro H; inversion H; exact Hlp|].
  destruct render; [|intro H; inversion H; subst; exact Hlp].
  intro H. apply addQueryDecorator_livepreview in H. congruence.
Qed.

(** The widget of a query the selection does not overlap cannot cover
    a span the selection overlaps. *)
Lemma queryStep_revealed :
  forall (this : PluginValue V) node this',
    revealed a b this -> queryStep host settings view this node = Ok this' ->
    revealed a b this'.
Proof.
  intros this node this' [Hlp Hun]. unfold queryStep.
  destruct (queryRenderInfo settings view node) as [render isQuery] eqn:Ei.
  destruct (negb render && isQuery).
  { intro H. inversion H. split; [exact Hlp|].
    intros d Hd. simpl in Hd. apply removeBetween_In in Hd.
    apply Hun, Hd. }
  destruct render; [|intro H; inversion H; subst; split; assumption].
  intro H. split.
  { apply addQueryDecorator_livepreview in H. congruence. }
  revert H. unfold addQueryDecorator.
  destruct (existsBetween _ _ _); [intro H; inversion H; subst; exact Hun|].
  destruct (activeFile view) as [f|];
    [|intro H; inversion H; subst; exact Hun].
  destruct (createQueryWidget host settings node view f) as [[r|]|e];
    simpl; intro H; inversion H; subst; try exact Hun.
  intros d Hd. simpl in Hd. unfold update_add in Hd.
  apply merge_In in Hd. destruct Hd as [[Hd|[]]|Hd]; [|apply Hun, Hd].
  subst d. destruct (covers a b _) eqn:Hc; [|reflexivity].
  exfalso. unfold covers in Hc. simpl in Hc.
  apply andb_true_iff in Hc. destruct Hc as [H1 H2].
  apply Z.leb_le in H1, H2.
  assert (Hsel : selectionAndRangeOverlap (selection view)
                   (node_from node - 1) (node_to node + 1) = true)
    by (apply selectionAndRangeOverlap_wider with (a := a) (b := b);
        assumption).
  assert (Hr : fst (queryRenderInfo settings view node) = true)
    by (rewrite Ei; reflexivity).
  apply queryRenderInfo_render in Hr. congruence.
Qed.

Lemma removeBetween_revealed :
  forall (this : PluginValue V),
    inLivePreview this ->
    revealed a b (setDecorations this (removeBetween (decorations this) a b)).
Proof.
  intros this Hlp. split; [exact Hlp|].
  intros d Hd. simpl in Hd.
  eapply removeBetween_uncovers; [exact span_ordered | exact Hd].
Qed.

Lemma updateFields_lp :
  forall (this this' : PluginValue V),
    inLivePreview this -> updateFields scanner view this = Ok this' ->
    inLivePreview this'.
Proof.
  intros this this' Hlp. unfold updateFields.
  apply foldM_invariant; [|exact Hlp].
  intros s [x y] s' Hs.
  destruct (lineAt (doc view) x) as [la|]; simpl; [|discriminate].
  destruct (lineAt (doc view) y) as [lb|]; simpl; [|discriminate].
  apply foldM_invariant; [|exact Hs].
  intros s1 line s1' Hs1. apply foldM_invariant; [|exact Hs1].
  intros s2 field s2'. apply fieldStep_lp.
Qed.

Lemma updateFields_revealed :
  forall (this this' : PluginValue V),
    revealed a b this -> updateFields scanner view this = Ok this' ->
    revealed a b this'.
Proof.
  intros this this' Hr. unfold updateFields.
  apply foldM_invariant; [|exact Hr].
  intros s [x y] s' Hs.
  destruct (lineAt (doc view) x) as [la|]; simpl; [|discriminate].
  destruct (lineAt (doc view) y) as [lb|]; simpl; [|discriminate].
  apply foldM_invariant; [|exact Hs].
  intros s1 line s1' Hs1. apply foldM_invariant; [|exact Hs1].
  intros s2 field s2'. apply fieldStep_revealed.
Qed.

Lemma updateQueries_revealed :
  forall (this this' : PluginValue V),
    revealed a b this -> updateQueries host settings view this = Ok this' ->
    revealed a b this'.
Proof.
  intros this this' Hr. unfold updateQueries.
  apply foldM_invariant; [|exact Hr].
  intros s [x y] s' Hs. apply foldM_invariant; [|exact Hs].
  intros s1 node s1'. apply queryStep_revealed.
Qed.

(** A query the selection overlaps is uncovered after the pass. *)
Lemma updateTree_reveals_query :
  forall (this this' : PluginValue V) x y node,
    inLivePreview this ->
    updateTree host scanner settings view this = Ok this' ->
    In (x, y) (visibleRanges view) ->
    In node (iterate view x y) ->
    queryRenderInfo settings view node = (false, true) ->
    a = node_from node - 1 -> b = node_to node + 1 ->
    revealed a b this'.
Proof.
  intros this this' x y node Hlp Hup Hxy Hnode Hinfo Ha Hb.
  unfold updateTree in Hup.
  destruct (updateFields scanner view this) as [this1|e] eqn:Ef;
    simpl in Hup; [|discriminate].
  assert (Hlp1 : inLivePreview this1)
    by (eapply updateFields_lp; [exact Hlp | exact Ef]).
  unfold inLivePreview in Hlp1. rewrite Hlp1 in Hup. simpl in Hup.
  revert Hup. unfold updateQueries.
  apply (foldM_reaches (@inLivePreview V) (revealed a b)) with (x := (x, y));
    [ | | | exact Hxy | exact Hlp1].
  - intros s [x0 y0] s' _ Hs. apply foldM_invariant; [|exact Hs].
    intros s1 n s1'. apply queryStep_lp.
  - intros s [x0 y0] s' _ Hs. apply foldM_invariant; [|exact Hs].
    intros s1 n s1'. apply queryStep_revealed.
  - intros s s' Hs.
    apply (foldM_reaches (@inLivePreview V) (revealed a b)) with (x := node);
      [ | | | exact Hnode | exact Hs].
    + intros s1 n s1' _. apply queryStep_lp.
    + intros s1 n s1' _. apply queryStep_revealed.
    + intros s1 s1' Hs1. unfold queryStep. rewrite Hinfo. simpl.
      intro H. inversion H. unfold removeQueryDecorator.
      rewrite <- Ha, <- Hb. apply removeBetween_revealed, Hs1.
Qed.

(** A field the selection overlaps is uncovered after the pass. *)
Lemma updateTree_reveals_field :
  forall (this this' : PluginValue V) x y la lb line field,
    inLivePreview this ->
    updateTree host scanner settings view this = Ok this' ->
    In (x, y) (visibleRanges view) ->
    lineAt (doc view) x = Ok la ->
    lineAt (doc view) y = Ok lb ->
    In line (linesBetween (doc view) (line_number la) (line_number lb)) ->
    In field (fieldsOfLine scanner line) ->
    a = line_from line + field_start field ->
    b = line_from line + field_end field ->
    revealed a b this'.
Proof.
  intros this this' x y la lb line field Hlp Hup Hxy Hla Hlb Hline Hfield
         Ha Hb.
  unfold updateTree in Hup.
  destruct (updateFields scanner view this) as [this1|e] eqn:Ef;
    simpl in Hup; [|discriminate].
  assert (Hr1 : revealed a b this1).
  { revert Ef. unfold updateFields.
    apply (foldM_reaches (@inLivePreview V) (revealed a b)) with (x := (x, y));
      [ | | | exact Hxy | exact Hlp].
    - intros s [x0 y0] s' _ Hs.
      destruct (lineAt (doc view) x0); simpl; [|discriminate].
      destruct (lineAt (doc view) y0); simpl; [|discriminate].
      apply foldM_invariant; [|exact Hs].
      intros s1 l1 s1' Hs1. apply foldM_invariant; [|exact Hs1].
      intros s2 f2 s2'. apply fieldStep_lp.
    - intros s [x0 y0] s' _ Hs.
      destruct (lineAt (doc view) x0); simpl; [|discriminate].
      destruct (lineAt (doc view) y0); simpl; [|discriminate].
      apply foldM_invariant; [|exact Hs].
      intros s1 l1 s1' Hs1. apply foldM_invariant; [|exact Hs1].
      intros s2 f2 s2'. apply fieldStep_revealed.
    - intros s s' Hs. rewrite Hla, Hlb. simpl.
      apply (foldM_reaches (@inLivePreview V) (revealed a b)) with (x := line);
        [ | | | exact Hline | exact Hs].
      + intros s1 l1 s1' _ Hs1. apply foldM_invariant; [|exact Hs1].
        intros s2 f2 s2'. apply fieldStep_lp.
      + intros s1 l1 s1' _ Hs1. apply foldM_invariant; [|exact Hs1].
        intros s2 f2 s2'. apply fieldStep_revealed.
      + intros s1 s1' Hs1.
        apply (foldM_reaches (@inLivePreview V) (revealed a b))
          with (x := field);
          [ | | | exact Hfield | exact Hs1].
        * intros s2 f2 s2' _. apply fieldStep_lp.
        * intros s2 f2 s2' _. apply fieldStep_revealed.
        * intros s2 s2' Hs2. unfold fieldStep, fieldRenderInfo.
          unfold inLivePreview in Hs2. rewrite Hs2, <- Ha, <- Hb, span_selected.
          simpl. intro H. inversion H. unfold removeFieldDecorator.
          rewrite <- Ha, <- Hb. apply removeBetween_revealed, Hs2. }
  destruct (negb (livepreview this1)).
  - inversion Hup. subst. exact Hr1.
  - eapply updateQueries_revealed; [exact Hr1 | exact Hup].
Qed.

End Reveal.

Lemma filter_comm :
  forall (A : Type) (p q : A -> bool) (l : list A),
    filter p (filter q l) = filter q (filter p l).
Proof.
  intros A p q l. rewrite !filter_filter. apply filter_ext.
  intro x. apply andb_comm.
Qed.

Lemma between_removeBetween :
  forall (V : Type) (set : DecorationSet V) (x y a b : Z),
    between (removeBetween set x y) a b
    = filter
        (fun d =>
           negb (existsb (fun d1 => touches (from d1) (to d1) d)
                         (between set x y)))
        (between set a b).
Proof.
  intros V set x y a b. rewrite removeBetween_spec. unfold between at 1 3.
  apply filter_comm.
Qed.

(** Adding ranges that do not touch a span does not change what
    [between] finds there. *)
Lemma between_merge_elsewhere :
  forall (V : Type) (a b : Z) (add cur : list (Range V)),
    (forall r, In r add -> touches a b r = false) ->
    between (merge add cur) a b = between cur a b.
Proof.
  intros V a b add. unfold between.
  induction add as [|x add IH]; intros cur Hadd; simpl; [reflexivity|].
  induction cur as [|c cur IHc]; simpl.
  - rewrite (Hadd x (or_introl eq_refl)).
    apply filter_none. intros r Hr. apply Hadd. now right.
  - destruct (goes_before x c); simpl.
    + rewrite (Hadd x (or_introl eq_refl)).
      rewrite IH; [reflexivity|]. intros r Hr. apply Hadd. now right.
    + rewrite IHc. reflexivity.
Qed.

(** Adding one range over a span nothing touches makes it the only one
    [between] finds there. *)
Lemma between_merge_single :
  forall (V : Type) (a b : Z) (new : Range V) (cur : list (Range V)),
    touches a b new = true ->
    between cur a b = [] ->
    between (merge [new] cur) a b = [new].
Proof.
  intros V a b new cur Hnew. unfold between.
  induction cur as [|c cur IH]; simpl; intro Hcur.
  - rewrite Hnew. reflexivity.
  - destruct (touches a b c) eqn:Hc; [discriminate|].
    destruct (goes_before new c); simpl.
    + rewrite Hnew, Hc, Hcur. reflexivity.
    + rewrite Hc. apply IH, Hcur.
Qed.

Section Conceal.

Variables Expr V : Type.
Variable host : Host Expr V.
Variable scanner : Scanner.
Variable settings : DataviewSettings.
Variable view : EditorView.

(** A query node the selection does not overlap, with an active file
    and a closing delimiter. *)
Variable node : SyntaxNode.
Variable currentFile : string.
Hypothesis node_ordered : node_from node <= node_to node.
Hypothesis node_rendered : queryRenderInfo settings view node = (true, true).
Hypothesis file_active : activeFile view = Some currentFile.
Hypothesis node_closed :
  sliceDoc (doc view) (node_to node) (node_to node + 1) <> newline.

(** No other query visited by the pass has a widened range touching
    the one of [node]. *)
Hypothesis others_apart :
  forall x y m,
    In (x, y) (visibleRanges view) -> In m (iterate view x y) ->
    snd (queryRenderInfo settings view m) = true ->
    m = node
    \/ node_to m + 1 < node_from node - 1
    \/ node_to node + 1 < node_from m - 1.

(** Under these conditions [createQueryWidget], when it returns,
    returns a Replace-decoration over the widened range. *)
Lemma createQueryWidget_some :
  (exists w,
      createQueryWidget host settings node view currentFile
      = Ok (Some (mkRange (node_from node - 1) (node_to node + 1)
                          (Replace w))))
  \/ exists e,
      createQueryWidget host settings node view currentFile = Raise e.
Proof.
  assert (Hq : isInlineQuery settings view (node_from node) (node_to node)
               = true).
  { pose proof node_rendered as H. unfold queryRenderInfo in H.
    cbv beta zeta in H. injection H as _ H.
    apply andb_true_iff in H. tauto. }
  unfold isInlineQuery in Hq. unfold createQueryWidget.
  destruct (String.eqb_spec
              (sliceDoc (doc view) (node_to node) (node_to node + 1))
              newline) as [E|_]; [contradiction|].
  destruct (startsWith _ (inlineQueryPrefix settings));
    destruct (startsWith _ (inlineJsQueryPrefix settings));
    simpl in Hq; try discriminate; simpl;
    repeat match goal with
           | |- context [if ?c then _ else _] => destruct c
           | |- context [tryOrPropogate ?x] => destruct (tryOrPropogate x)
           | |- context [evalInContext ?h ?s ?f] =>
               destruct (evalInContext h s f) as [v|[msg|e']]
           end; simpl;
    first [left; eexists; reflexivity | right; eexists; reflexivity].
Qed.

Local Notation "'lo'" := (node_from node - 1).
Local Notation "'hi'" := (node_to node + 1).

(** What touches the span after a filter of the store: nothing, or
    still the one widget that concealed it. *)
Lemma filter_keeps_concealed :
  forall (P : InlineWidget V -> Prop) (g : Range V -> bool)
         (this this' : PluginValue V),
    between (decorations this') lo hi
    = filter g (between (decorations this) lo hi) ->
    untouched lo hi this
    \/ (exists w, P w /\ concealedBy w lo hi this) ->
    untouched lo hi this'
    \/ (exists w, P w /\ concealedBy w lo hi this').
Proof.
  intros P g this this' Hf [Hu|[w [Hw Hc]]]; unfold untouched, concealedBy in *.
  - left. rewrite Hf, Hu. reflexivity.
  - rewrite Hf, Hc. simpl.
    destruct (g _); [right; exists w; split; [exact Hw|reflexivity]|].
    left. reflexivity.
Qed.

Lemma fieldStep_conceal :
  forall (P : InlineWidget V -> Prop) line (this : PluginValue V) field this',
    inLivePreview this
    /\ (untouched lo hi this
        \/ exists w, P w /\ concealedBy w lo hi this) ->
    fieldStep view line this field = Ok this' ->
    inLivePreview this'
    /\ (untouched lo hi this'
        \/ exists w, P w /\ concealedBy w lo hi this').
Proof.
  intros P line this field this' [Hlp Hk]. unfold fieldStep.
  destruct (negb (fieldRenderInfo this view line field)).
  - intro H. inversion H. split; [exact Hlp|].
    eapply filter_keeps_concealed; [|exact Hk].
    unfold removeFieldDecorator. simpl. apply between_removeBetween.
  - intro H. apply addFieldDecorator_livepreview in H; [|exact Hlp].
    subst. split; assumption.
Qed.

Lemma updateFields_conceal :
  forall (P : InlineWidget V -> Prop) (this this' : PluginValue V),
    inLivePreview this
    /\ (untouched lo hi this
        \/ exists w, P w /\ concealedBy w lo hi this) ->
    updateFields scanner view this = Ok this' ->
    inLivePreview this'
    /\ (untouched lo hi this'
        \/ exists w, P w /\ concealedBy w lo hi this').
Proof.
  intros P this this' Hu. unfold updateFields.
  pose (K := fun s : PluginValue V =>
               inLivePreview s
               /\ (untouched lo hi s
                   \/ exists w, P w /\ concealedBy w lo hi s)).
  change (K this) in Hu. change (foldM
    (fun (this0 : PluginValue V) '(a, b) =>
       bind (lineAt (doc view) a)
         (fun la =>
            bind (lineAt (doc view) b)
              (fun lb =>
                 foldM
                   (fun this1 line =>
                      foldM (fieldStep view line) (fieldsOfLine scanner line)
                            this1)
                   (linesBetween (doc view) (line_number la)
                                 (line_number lb)) this0)))
    (visibleRanges view) this = Ok this' -> K this').
  apply foldM_invariant; [|exact Hu].
  intros s [x y] s' Hs.
  destruct (lineAt (doc view) x) as [la|]; simpl; [|discriminate].
  destruct (lineAt (doc view) y) as [lb|]; simpl; [|discriminate].
  apply foldM_invariant; [|exact Hs].
  intros s1 line s1' Hs1. apply foldM_invariant; [|exact Hs1].
  intros s2 field s2'. apply fieldStep_conceal.
Qed.

Lemma queryRenderInfo_render_query :
  forall m,
    fst (queryRenderInfo settings view m) = true ->
    snd (queryRenderInfo settings view m) = true.
Proof.
  intros m H. unfold queryRenderInfo in *. cbv beta zeta in *.
  unfold fst in H. unfold snd.
  apply andb_true_iff in H. tauto.
Qed.

(** The step of the pass on a visited node [m], seen from the span of
    [node], for widgets [w] among which are those [createQueryWidget]
    builds for [node]: an untouched span stays untouched or gets such a
    widget; a span concealed by a widget stays concealed by it; and the
    step on [node] itself conceals an untouched span. *)
Lemma queryStep_conceal :
  forall (P : InlineWidget V -> Prop) (this : PluginValue V) m this',
    (forall w,
        createQueryWidget host settings node view currentFile
        = Ok (Some (mkRange lo hi (Replace w))) -> P w) ->
    (snd (queryRenderInfo settings view m) = true ->
     m = node
     \/ node_to m + 1 < lo
     \/ hi < node_from m - 1) ->
    queryStep host settings view this m = Ok this' ->
    (untouched lo hi this ->
     untouched lo hi this' \/ exists w, P w /\ concealedBy w lo hi this')
    /\ (forall w, concealedBy w lo hi this -> concealedBy w lo hi this')
    /\ (m = node ->
        untouched lo hi this ->
        exists w, P w /\ concealedBy w lo hi this').
Proof.
  intros P this m this' HP Hm. unfold queryStep.
  destruct (queryRenderInfo settings view m) as [render isQuery] eqn:Ei.
  destruct (negb render && isQuery) eqn:Erm.
  { (* a query the selection overlaps: removal *)
    apply andb_true_iff in Erm. destruct Erm as [Er Eq].
    apply negb_true_iff in Er. subst render isQuery.
    destruct (Hm eq_refl) as [Heq|Hapart].
    { subst m. rewrite node_rendered in Ei. discriminate. }
    intro H. inversion H. unfold untouched, concealedBy, removeQueryDecorator.
    simpl. rewrite between_removeBetween.
    split; [|split].
    - intro Hu. unfold untouched in Hu. rewrite Hu. left. reflexivity.
    - intros w Hc. rewrite Hc. simpl.
      destruct (existsb _ (between (decorations this) _ _)) eqn:Ex;
        [|reflexivity].
      exfalso. apply existsb_exists in Ex. destruct Ex as [d1 [Hd1 Ht]].
      unfold between in Hd1. apply filter_In in Hd1.
      destruct Hd1 as [Hin Htm].
      unfold touches in Ht. simpl in Ht.
      assert (Hd : In d1 (between (decorations this) lo hi)).
      { unfold between. apply filter_In. split; [exact Hin|].
        unfold touches. apply andb_true_iff in Ht. destruct Ht as [T1 T2].
        apply Z.leb_le in T1. rewrite Z.geb_leb in T2. apply Z.leb_le in T2.
        apply andb_true_intro.
        split; [apply Z.leb_le | apply Z.geb_le]; lia. }
      rewrite Hc in Hd. destruct Hd as [Hd|[]]. subst d1.
      unfold touches in Htm. simpl in Htm.
      apply andb_true_iff in Htm. destruct Htm as [T1 T2].
      apply Z.leb_le in T1. rewrite Z.geb_leb in T2. apply Z.leb_le in T2.
      lia.
    - intros Heq. subst m. rewrite node_rendered in Ei. discriminate. }
  destruct render.
  2:{ intro H. inversion H. subst this'.
      split; [auto|split; [auto|]].
      intros Heq. subst m. rewrite node_rendered in Ei. discriminate. }
  assert (Hq : snd (queryRenderInfo settings view m) = true)
    by (apply queryRenderInfo_render_query; rewrite Ei; reflexivity).
  rewrite Ei in Hq.
  destruct (Hm Hq) as [Heq|Hapart].
  - (* the node itself *)
    subst m. unfold addQueryDecorator, existsBetween.
    destruct (between (decorations this) lo hi) as [|d0 ds] eqn:Eb.
    + rewrite file_active.
      destruct createQueryWidget_some as [[w Hw]|[e He]];
        [|rewrite He; simpl; discriminate].
      rewrite Hw. simpl. intro H. inversion H.
      assert (Hc : concealedBy w lo hi
                     (setDecorations this
                        (update_add (decorations this)
                                    [mkRange lo hi (Replace w)] false))).
      { unfold concealedBy, update_add. simpl.
        apply between_merge_single; [|exact Eb].
        unfold touches. simpl. apply andb_true_intro.
        split; [apply Z.leb_le | apply Z.geb_le]; lia. }
      split; [intros _; right; exists w; split; [apply HP, Hw | exact Hc]|].
      split; [|intros _ _; exists w; split; [apply HP, Hw | exact Hc]].
      intros w0 Hc0. unfold concealedBy in Hc0. rewrite Eb in Hc0.
      discriminate.
    + intro H. inversion H. subst this'.
      unfold untouched, concealedBy. rewrite Eb.
      split; [discriminate|split; [auto|]].
      intros _ Hu. discriminate.
  - (* another query, elsewhere *)
    assert (Hne : m <> node).
    { intro Heq. subst m. lia. }
    unfold addQueryDecorator.
    assert (Hsame : forall d,
               between (update_add (decorations this)
                          [mkRange (node_from m - 1) (node_to m + 1) d]
                          false) lo hi
               = between (decorations this) lo hi).
    { intro d. unfold update_add. apply between_merge_elsewhere.
      intros r [Hr|[]]. subst r. unfold touches. simpl.
      apply andb_false_iff.
      destruct Hapart as [Hl|Hr];
        [right; rewrite Z.geb_leb; apply Z.leb_gt; lia
        |left; apply Z.leb_gt; lia]. }
    destruct (existsBetween (decorations this) _ _).
    { intro H. inversion H. subst this'.
      split; [auto|split; [auto|contradiction]]. }
    destruct (activeFile view) as [f|].
    2:{ intro H. inversion H. subst this'.
        split; [auto|split; [auto|contradiction]]. }
    destruct (createQueryWidget host settings m view f) as [[r|]|e];
      simpl; intro H; inversion H; subst this'.
    + unfold untouched, concealedBy. simpl. rewrite Hsame.
      split; [auto|split; [auto|contradiction]].
    + split; [auto|split; [auto|contradiction]].
Qed.

(** A query the selection does not overlap, whose span nothing touched
    before the pass but a widget replacing exactly that span, is
    concealed after the pass by exactly one decoration: the widget the
    store held or the one [createQueryWidget] builds. *)
Lemma updateTree_conceals_query :
  forall (this this' : PluginValue V) x y,
    inLivePreview this ->
    untouched lo hi this \/ (exists w0, concealedBy w0 lo hi this) ->
    updateTree host scanner settings view this = Ok this' ->
    In (x, y) (visibleRanges view) ->
    In node (iterate view x y) ->
    exists w,
      (concealedBy w lo hi this
       \/ createQueryWidget host settings node view currentFile
          = Ok (Some (mkRange lo hi (Replace w))))
      /\ concealedBy w lo hi this'.
Proof.
  intros this this' x y Hlp Hun Hup Hxy Hnode.
  pose (P := fun w : InlineWidget V =>
               concealedBy w lo hi this
               \/ createQueryWidget host settings node view currentFile
                  = Ok (Some (mkRange lo hi (Replace w)))).
  pose (K := fun s : PluginValue V =>
               untouched lo hi s \/ exists w, P w /\ concealedBy w lo hi s).
  pose (G := fun s : PluginValue V =>
               exists w, P w /\ concealedBy w lo hi s).
  assert (HP : forall w,
             createQueryWidget host settings node view currentFile
             = Ok (Some (mkRange lo hi (Replace w))) -> P w)
    by (intros w Hw; right; exact Hw).
  assert (Hk : K this).
  { destruct Hun as [Hu|[w0 Hc]]; [left; exact Hu|].
    right. exists w0. split; [left; exact Hc | exact Hc]. }
  assert (Hstep : forall x0 y0 s m s',
             In (x0, y0) (visibleRanges view) -> In m (iterate view x0 y0) ->
             queryStep host settings view s m = Ok s' ->
             (K s -> K s') /\ (G s -> G s') /\ (m = node -> K s -> G s')).
  { intros x0 y0 s m s' Hr Hin Hs.
    destruct (@queryStep_conceal P s m s' HP
                (others_apart _ _ _ Hr Hin) Hs) as [Hu [Hc Hn]].
    split; [|split].
    - intros [Hs1|[w [Hw Hs1]]]; [exact (Hu Hs1)|].
      right. exists w. split; [exact Hw | exact (Hc w Hs1)].
    - intros [w [Hw Hs1]]. exists w. split; [exact Hw | exact (Hc w Hs1)].
    - intros Heq [Hs1|[w [Hw Hs1]]]; [exact (Hn Heq Hs1)|].
      exists w. split; [exact Hw | exact (Hc w Hs1)]. }
  enough (HG : G this') by exact HG.
  unfold updateTree in Hup.
  destruct (updateFields scanner view this) as [this1|e] eqn:Ef;
    simpl in Hup; [|discriminate].
  assert (H1 : inLivePreview this1 /\ K this1)
    by (eapply updateFields_conceal; [split; eassumption | exact Ef]).
  destruct H1 as [Hlp1 Hk1].
  unfold inLivePreview in Hlp1. rewrite Hlp1 in Hup. simpl in Hup.
  revert Hup. unfold updateQueries.
  apply (foldM_reaches K G) with (x := (x, y));
    [ | | | exact Hxy | exact Hk1].
  - intros s [x0 y0] s' Hr Hs. revert Hs.
    apply foldM_invariant_in with (P := K).
    intros s1 m s1' Hin Hs1 Hq. exact (proj1 (Hstep _ _ _ _ _ Hr Hin Hq) Hs1).
  - intros s [x0 y0] s' Hr Hs. revert Hs.
    apply foldM_invariant_in with (P := G).
    intros s1 m s1' Hin Hs1 Hq.
    exact (proj1 (proj2 (Hstep _ _ _ _ _ Hr Hin Hq)) Hs1).
  - intros s s' Hs.
    apply (foldM_reaches K G) with (x := node); [ | | | exact Hnode | exact Hs].
    + intros s1 m s1' Hin Hs1 Hq.
      exact (proj1 (Hstep _ _ _ _ _ Hxy Hin Hq) Hs1).
    + intros s1 m s1' Hin Hs1 Hq.
      exact (proj1 (proj2 (Hstep _ _ _ _ _ Hxy Hin Hq)) Hs1).
    + intros s1 s1' Hs1 Hq.
      exact (proj2 (proj2 (Hstep _ _ _ _ _ Hxy Hnode Hq)) eq_refl Hs1).
Qed.

End Conceal.

Lemma queryRenderInfo_selected :
  forall (settings : DataviewSettings) (view : EditorView) (node : SyntaxNode),
    queryRenderInfo settings view node = (false, true) ->
    selectionAndRangeOverlap (selection view)
                             (node_from node - 1) (node_to node + 1) = true.
Proof.
  intros settings view node H. unfold queryRenderInfo in H.
  cbv beta zeta in H. injection H as Hr Hq. rewrite Hq in Hr. simpl in Hr.
  apply negb_false_iff in Hr. exact Hr.
Qed.

(** When one decoration touches a span and covers it, it is also the
    one decoration covering the span. *)
Lemma covering_of_between :
  forall (V : Type) (set : DecorationSet V) (a b : Z) (r : Range V),
    a <= b -> between set a b = [r] -> covers a b r = true ->
    covering set a b = [r].
Proof.
  intros V set a b r Hab Hb Hc. unfold covering.
  rewrite (filter_ext (covers a b)
             (fun d => touches a b d && covers a b d)).
  - rewrite <- filter_filter. fold (between set a b). rewrite Hb.
    simpl. rewrite Hc. reflexivity.
  - intro d. destruct (covers a b d) eqn:E.
    + rewrite (covers_touches d Hab E). reflexivity.
    + rewrite andb_false_r. reflexivity.
Qed.

(** C1, as amended.  After a reconciliation pass that starts in
    live-preview mode and completes: no decoration covers the widened
    range of a visited inline query that the selection overlaps, nor
    the range of a visited inline field that the selection overlaps;
    and a visited inline query that the selection does not overlap,
    with an active file and a closing delimiter, whose widened range
    was touched before the pass by nothing but a widget replacing
    exactly that range, and is touched by no other visited query, is
    touched by exactly one decoration, which replaces exactly that
    range by a widget: the one the store held before the pass or the
    one [createQueryWidget] builds. *)
Theorem selection_reveal_law :
  forall (Expr V : Type) (host : Host Expr V) (scanner : Scanner)
         (settings : DataviewSettings) (view : EditorView)
         (this this' : PluginValue V),
    inLivePreview this ->
    updateTree host scanner settings view this = Ok this' ->
    (forall x y node,
        In (x, y) (visibleRanges view) -> In node (iterate view x y) ->
        node_from node <= node_to node ->
        queryRenderInfo settings view node = (false, true) ->
        covering (decorations this') (node_from node - 1) (node_to node + 1)
        = [])
    /\ (forall x y la lb line field,
           In (x, y) (visibleRanges view) ->
           lineAt (doc view) x = Ok la -> lineAt (doc view) y = Ok lb ->
           In line
              (linesBetween (doc view) (line_number la) (line_number lb)) ->
           In field (fieldsOfLine scanner line) ->
           field_start field <= field_end field ->
           selectionAndRangeOverlap (selection view)
             (line_from line + field_start field)
             (line_from line + field_end field) = true ->
           covering (decorations this')
                    (line_from line + field_start field)
                    (line_from line + field_end field) = [])
    /\ (forall x y node currentFile,
           In (x, y) (visibleRanges view) -> In node (iterate view x y) ->
           node_from node <= node_to node ->
           queryRenderInfo settings view node = (true, true) ->
           activeFile view = Some currentFile ->
           sliceDoc (doc view) (node_to node) (node_to node + 1) <> newline ->
           untouched (node_from node - 1) (node_to node + 1) this
           \/ (exists w0,
                  concealedBy w0 (node_from node - 1) (node_to node + 1)
                              this) ->
           (forall x' y' m,
               In (x', y') (visibleRanges view) -> In m (iterate view x' y') ->
               snd (queryRenderInfo settings view m) = true ->
               m = node
               \/ node_to m + 1 < node_from node - 1
               \/ node_to node + 1 < node_from m - 1) ->
           exists w,
             (concealedBy w (node_from node - 1) (node_to node + 1) this
              \/ createQueryWidget host settings node view currentFile
                 = Ok (Some (mkRange (node_from node - 1) (node_to node + 1)
                                     (Replace w))))
             /\ between (decorations this')
                        (node_from node - 1) (node_to node + 1)
                = [mkRange (node_from node - 1) (node_to node + 1)
                           (Replace w)]
             /\ covering (decorations this')
                         (node_from node - 1) (node_to node + 1)
                = [mkRange (node_from node - 1) (node_to node + 1)
                           (Replace w)]).
Proof.
  intros Expr V host scanner settings view this this' Hlp Hup.
  split; [|split].
  - intros x y node Hxy Hnode Hord Hinfo.
    apply uncovered_covering.
    assert (Hr : revealed (node_from node - 1) (node_to node + 1) this').
    { eapply updateTree_reveals_query with (node := node);
        [ | apply queryRenderInfo_selected with (settings := settings);
            exact Hinfo | exact Hlp
          | exact Hup | exact Hxy | exact Hnode | exact Hinfo
          | reflexivity | reflexivity ].
      lia. }
    apply Hr.
  - intros x y la lb line field Hxy Hla Hlb Hline Hfield Hord Hsel.
    apply uncovered_covering.
    assert (Hr : revealed (line_from line + field_start field)
                          (line_from line + field_end field) this').
    { eapply updateTree_reveals_field with (line := line) (field := field);
        [ | exact Hsel | exact Hlp | exact Hup | exact Hxy | exact Hla
          | exact Hlb | exact Hline | exact Hfield
          | reflexivity | reflexivity ].
      lia. }
    apply Hr.
  - intros x y node currentFile Hxy Hnode Hord Hinfo Hfile Hclosed Hun Hothers.
    destruct (@updateTree_conceals_query
                Expr V host scanner settings view node currentFile
                Hord Hinfo Hfile Hclosed Hothers this this' x y
                Hlp Hun Hup Hxy Hnode) as [w [Hw Hc]].
    exists w. split; [exact Hw|]. split; [exact Hc|].
    apply covering_of_between; [lia | exact Hc|].
    unfold covers. simpl. rewrite !Z.leb_refl. reflexivity.
Qed.

(** Witness of C1: the query of [Demo.queryDoc] concealed by the first
    pass, with the cursor in the text after it, still concealed by the
    same widget after a second pass, and revealed by the next pass,
    with the cursor inside it. *)
Lemma selection_reveal_law_witness :
  (exists w,
      (concealedBy w 0 5 (mkPlugin [] true)
       \/ createQueryWidget Demo.host Demo.settings Demo.queryNode
                            Demo.queryView "note.md"
          = Ok (Some (mkRange 0 5 (Replace w))))
      /\ between (decorations Demo.queryStore) 0 5
         = [mkRange 0 5 (Replace w)]
      /\ covering (decorations Demo.queryStore) 0 5
         = [mkRange 0 5 (Replace w)])
  /\ (exists w,
         (concealedBy w 0 5 Demo.queryStore
          \/ createQueryWidget Demo.host Demo.settings Demo.queryNode
                               Demo.queryView "note.md"
             = Ok (Some (mkRange 0 5 (Replace w))))
         /\ between (decorations Demo.queryStore) 0 5
            = [mkRange 0 5 (Replace w)]
         /\ covering (decorations Demo.queryStore) 0 5
            = [mkRange 0 5 (Replace w)])
  /\ covering (decorations (mkPlugin (V := string) [] true)) 0 5 = [].
Proof.
  assert (Hothers :
            forall x' y' m,
              In (x', y') (visibleRanges Demo.queryView) ->
              In m (iterate Demo.queryView x' y') ->
              snd (queryRenderInfo Demo.settings Demo.queryView m) = true ->
              m = Demo.queryNode
              \/ node_to m + 1 < node_from Demo.queryNode - 1
              \/ node_to Demo.queryNode + 1 < node_from m - 1).
  { intros x' y' m [Hxy|[]] Hm Hq. inversion Hxy. subst x' y'.
    vm_compute in Hm.
    destruct Hm as [E|[E|[E|[]]]]; subst m;
      [vm_compute in Hq; discriminate Hq
      | left; reflexivity
      | vm_compute in Hq; discriminate Hq]. }
  split; [|split].
  - destruct (selection_reveal_law
                Demo.host Demo.scanner Demo.settings Demo.queryView
                (this := mkPlugin [] true) (this' := Demo.queryStore)
                eq_refl eq_refl) as [_ [_ Hconceal]].
    apply (Hconceal 0 9 Demo.queryNode "note.md").
    + simpl. tauto.
    + simpl. tauto.
    + simpl. lia.
    + reflexivity.
    + reflexivity.
    + vm_compute. intro H. discriminate H.
    + left. reflexivity.
    + exact Hothers.
  - destruct (selection_reveal_law
                Demo.host Demo.scanner Demo.settings Demo.queryView
                (this := Demo.queryStore) (this' := Demo.queryStore)
                eq_refl eq_refl) as [_ [_ Hconceal]].
    apply (Hconceal 0 9 Demo.queryNode "note.md").
    + simpl. tauto.
    + simpl. tauto.
    + simpl. lia.
    + reflexivity.
    + reflexivity.
    + vm_compute. intro H. discriminate H.
    + right. exists Demo.queryWidget. reflexivity.
    + exact Hothers.
  - destruct (selection_reveal_law
                Demo.host Demo.scanner Demo.settings Demo.selectedView
                (this := Demo.queryStore) (this' := mkPlugin [] true)
                eq_refl eq_refl) as [Hreveal _].
    apply (Hreveal 0 9 Demo.queryNode).
    + simpl. tauto.
    + simpl. tauto.
    + simpl. lia.
    + reflexivity.
Defined.

(** Counterexample to C1 as stated.  In source mode the pass over
    [Demo.queryDoc] handles no query: the selection does not overlap
    the query, its prefix is recognized, the feature is enabled, a file
    is active and the closing delimiter is there, and yet no decoration
    covers its span. *)
Lemma source_mode_leaves_query_bare :
  exists this',
    construct Demo.host Demo.scanner Demo.settings Demo.sourceQueryView
    = Ok this'
    /\ selectionAndRangeOverlap (selection Demo.sourceQueryView) 0 5 = false
    /\ isInlineQuery Demo.settings Demo.sourceQueryView 1 4 = true
    /\ enableInlineDataview Demo.settings = true
    /\ activeFile Demo.sourceQueryView = Some "note.md"
    /\ sliceDoc (doc Demo.sourceQueryView) 4 5 <> newline
    /\ covering (decorations this') 0 5 = [].
Proof.
  exists (mkPlugin [] false).
  repeat split; try reflexivity.
  vm_compute. intro H. discriminate H.
Qed.

(** ** Theorems: idempotence of reconciliation *)

(** Two viewport-changed updates over the same view give the same
    plugin value: each rebuilds the store from scratch. *)
Lemma viewport_update_idempotent :
  forall (Expr V : Type) (host : Host Expr V) (scanner : Scanner)
         (settings : DataviewSettings) (u : ViewUpdate)
         (this this1 : PluginValue V),
    docChanged u = false -> selectionSet u = false ->
    viewportChanged u = true ->
    update host scanner settings u this = Ok this1 ->
    update host scanner settings u this1 = Ok this1.
Proof.
  intros Expr V host scanner settings u this this1 Hd Hs Hv.
  unfold update, setDecorations. rewrite Hd, Hs, Hv. simpl.
  intro H. exact H.
Qed.

(** C3, at the failing input.  [Demo.nestedDoc] is opened in source
    mode, which marks its field, and then shown in live preview with
    the cursor at its end.  The first pass leaves the three marks
    before the field value and no widget for the query inside the
    field; the same pass run again, on the same document, selection
    and viewport, adds that widget: the two stores differ. *)
Theorem second_pass_changes_store :
  construct Demo.host Demo.scanner Demo.settings (Demo.nestedView false)
  = Ok (mkPlugin Demo.sourceMarks false)
  /\ update Demo.host Demo.scanner Demo.settings
            (Demo.selectionEvent (Demo.nestedView true))
            (mkPlugin Demo.sourceMarks false)
     = Ok Demo.firstPass
  /\ update Demo.host Demo.scanner Demo.settings
            (Demo.selectionEvent (Demo.nestedView true)) Demo.firstPass
     = Ok Demo.secondPass
  /\ Demo.firstPass <> Demo.secondPass.
Proof.
  repeat split; try (vm_compute; reflexivity).
  intro H. discriminate H.
Qed.

(** ** Further properties: query widget construction *)

(** X1.  Whatever the parser, the engine and the script do,
    [createQueryWidget] returns nothing, or returns a
    Replace-decoration over exactly [node.from - 1 .. node.to + 1] whose
    widget carries the classes [getCssClasses] derives from the node
    and whose element has the two base classes, or throws; and it
    throws only for an enabled script query whose evaluation throws a
    value without string conversion: what leaves [createQueryWidget] is
    then what the conversion in the [catch] block throws. *)
Theorem createQueryWidget_result_shape :
  forall (Expr V : Type) (host : Host Expr V) (settings : DataviewSettings)
         (node : SyntaxNode) (view : EditorView) (currentFile : string),
    let text := sliceDoc (doc view) (node_from node) (node_to node) in
    let code :=
      trim (substringFrom (String.length (inlineJsQueryPrefix settings))
                          text) in
    createQueryWidget host settings node view currentFile = Ok None
    \/ (exists w,
           createQueryWidget host settings node view currentFile
           = Ok (Some (mkRange (node_from node - 1) (node_to node + 1)
                               (Replace w)))
           /\ cssClasses w = getCssClasses (node_props node)
           /\ classList (el w) = ["dataview"; "dataview-inline"])
    \/ (exists e,
           createQueryWidget host settings node view currentFile = Raise e
           /\ startsWith text (inlineQueryPrefix settings) = false
           /\ startsWith text (inlineJsQueryPrefix settings) = true
           /\ enableInlineDataviewJs settings = true
           /\ evalInContext host
                (if str_includes "await" code
                 then "(async () => { " ++ PREAMBLE ++ code ++ " })()"
                 else PREAMBLE ++ code)%string
                currentFile = Raise (Opaque e)).
Proof.
  intros Expr V host settings node view currentFile text code.
  destruct (createQueryWidget host settings node view currentFile)
    as [[r|]|e] eqn:E.
  - right. left. revert E. unfold createQueryWidget.
    repeat match goal with
           | |- context [if ?c then _ else _] => destruct c
           | |- context [tryOrPropogate ?x] => destruct (tryOrPropogate x)
           | |- context [evalInContext ?h ?s ?f] =>
               destruct (evalInContext h s f) as [v|[msg|e']]
           end; simpl; intro E; try discriminate E;
      injection E as E; subst r;
      (eexists; split; [reflexivity|split; reflexivity]).
  - left. reflexivity.
  - right. right. exists e. split; [reflexivity|].
    exact (createQueryWidget_raises host settings node view currentFile E).
Qed.

(** On [Examples.throwDoc], with a script that throws a [Symbol], the
    [TypeError] of the conversion leaves [createQueryWidget] and aborts
    the pass. *)
Example createQueryWidget_symbol_escapes :
  createQueryWidget Examples.symbolHost Demo.settings Examples.throwNode
                    Examples.throwView "note.md"
  = Raise "TypeError: Cannot convert a Symbol value to a string"
  /\ updateTree Examples.symbolHost Demo.scanner Demo.settings
                Examples.throwView (mkPlugin [] true)
     = Raise "TypeError: Cannot convert a Symbol value to a string".
Proof. split; reflexivity. Qed.

(** X2.  [createQueryWidget] returns no widget exactly when the
    character after the node is a newline or the node's text starts
    with neither query prefix. *)
Theorem createQueryWidget_none_iff :
  forall (Expr V : Type) (host : Host Expr V) (settings : DataviewSettings)
         (node : SyntaxNode) (view : EditorView) (currentFile : string),
    createQueryWidget host settings node view currentFile = Ok None
    <-> (sliceDoc (doc view) (node_to node) (node_to node + 1) = newline
         \/ (startsWith (sliceDoc (doc view) (node_from node) (node_to node))
                        (inlineQueryPrefix settings) = false
             /\ startsWith (sliceDoc (doc view) (node_from node) (node_to node))
                           (inlineJsQueryPrefix settings) = false)).
Proof.
  intros Expr V host settings node view currentFile.
  unfold createQueryWidget.
  destruct (String.eqb_spec
              (sliceDoc (doc view) (node_to node) (node_to node + 1))
              newline) as [E|NE].
  { split; [intros _; left; exact E | reflexivity]. }
  destruct (startsWith _ (inlineQueryPrefix settings)) eqn:Eq;
    destruct (startsWith _ (inlineJsQueryPrefix settings)) eqn:Ej; simpl.
  4:{ split; [intros _; right; split; reflexivity | reflexivity]. }
  all: split;
    [ repeat match goal with
             | |- context [if ?c then _ else _] => destruct c
             | |- context [tryOrPropogate ?x] => destruct (tryOrPropogate x)
             | |- context [evalInContext ?h ?s ?f] =>
                 destruct (evalInContext h s f) as [v|[msg|e']]
             end; simpl; discriminate
    | intros [E|[E1 E2]]; [contradiction | discriminate] ].
Qed.

(** X3.  With the matching feature flag off the result does not depend
    on the parser, the engine or the script evaluator: none of them is
    consulted. *)
Theorem createQueryWidget_disabled_ignores_host :
  forall (E1 E2 V : Type) (host1 : Host E1 V) (host2 : Host E2 V)
         (settings : DataviewSettings)
         (node : SyntaxNode) (view : EditorView) (currentFile : string),
    (startsWith (sliceDoc (doc view) (node_from node) (node_to node))
                (inlineQueryPrefix settings)
     && negb (enableInlineDataview settings))
    || (startsWith (sliceDoc (doc view) (node_from node) (node_to node))
                   (inlineJsQueryPrefix settings)
        && negb (enableInlineDataviewJs settings)) = true ->
    createQueryWidget host1 settings node view currentFile
    = createQueryWidget host2 settings node view currentFile.
Proof.
  intros E1 E2 V host1 host2 settings node view currentFile Hoff.
  unfold createQueryWidget.
  destruct (String.eqb _ newline); [reflexivity|].
  rewrite Hoff.
  destruct (negb _ && negb _); reflexivity.
Qed.

(** Witness of X3. *)
Lemma createQueryWidget_disabled_ignores_host_witness :
  createQueryWidget Demo.host Examples.disabledSettings Demo.queryNode
                    Demo.queryView "note.md"
  = createQueryWidget Examples.brokenHost Examples.disabledSettings
                      Demo.queryNode Demo.queryView "note.md".
Proof.
  apply (@createQueryWidget_disabled_ignores_host
           string string string Demo.host Examples.brokenHost
           Examples.disabledSettings Demo.queryNode Demo.queryView "note.md").
  reflexivity.
Defined.

(** X4.  When the field parses but the engine fails on it, by a failed
    result or by throwing, the widget shows
    "Dataview (for inline query '<field>'): <error>". *)
Theorem createQueryWidget_execution_failure :
  forall (Expr V : Type) (host : Host Expr V) (settings : DataviewSettings)
         (node : SyntaxNode) (view : EditorView) (currentFile : string)
         (fieldValue : Expr) (error : string),
    sliceDoc (doc view) (node_to node) (node_to node + 1) <> newline ->
    let text := sliceDoc (doc view) (node_from node) (node_to node) in
    let code :=
      trim (substringFrom (String.length (inlineQueryPrefix settings))
                          text) in
    startsWith text (inlineQueryPrefix settings) = true ->
    enableInlineDataview settings = true ->
    (startsWith text (inlineJsQueryPrefix settings)
     && negb (enableInlineDataviewJs settings)) = false ->
    tryOrPropogate (parseField host code) = Success fieldValue ->
    tryOrPropogate (executeInline host fieldValue currentFile)
    = Failure error ->
    createQueryWidget host settings node view currentFile
    = Ok (Some (mkRange (node_from node - 1) (node_to node + 1)
                  (Replace
                     (mkWidget (getCssClasses (node_props node)) code
                        (mkEl ["dataview"; "dataview-inline"]
                              (Text ("Dataview (for inline query '"
                                       ++ exprToString host fieldValue
                                       ++ "'): " ++ error)%string)))))).
Proof.
  intros Expr V host settings node view currentFile fieldValue error
         Hnl text code Hq Hon Hjs Hparse Hexec.
  unfold createQueryWidget.
  destruct (String.eqb_spec
              (sliceDoc (doc view) (node_to node) (node_to node + 1))
              newline) as [E|_]; [contradiction|].
  fold text. rewrite Hq, Hon, Hjs. simpl. fold code.
  rewrite Hparse, Hexec. reflexivity.
Qed.

(** Witness of X4: the engine of [Examples.brokenHost] throws. *)
Lemma createQueryWidget_execution_failure_witness :
  createQueryWidget Examples.brokenHost Demo.settings Demo.queryNode
                    Demo.queryView "note.md"
  = Ok (Some (mkRange 0 5
                (Replace
                   (mkWidget [] "1"
                      (mkEl ["dataview"; "dataview-inline"]
                            (Text ("Dataview (for inline query '1'): "
                                     ++ "Error: no index")%string)))))).
Proof.
  apply (@createQueryWidget_execution_failure
           string string Examples.brokenHost Demo.settings Demo.queryNode
           Demo.queryView "note.md" "1" "Error: no index").
  - vm_compute. intro H. discriminate H.
  - reflexivity.
  - reflexivity.
  - reflexivity.
  - reflexivity.
  - reflexivity.
Defined.

(** X5.  When a script query without [await] in its text throws, while
    it is evaluated, a value that converts to the string [message], the
    widget shows "Dataview (for inline JS query '<code>'): <message>". *)
Theorem createQueryWidget_script_exception :
  forall (Expr V : Type) (host : Host Expr V) (settings : DataviewSettings)
         (node : SyntaxNode) (view : EditorView) (currentFile : string)
         (message : string),
    sliceDoc (doc view) (node_to node) (node_to node + 1) <> newline ->
    let text := sliceDoc (doc view) (node_from node) (node_to node) in
    let code :=
      trim (substringFrom (String.length (inlineJsQueryPrefix settings))
                          text) in
    startsWith text (inlineQueryPrefix settings) = false ->
    startsWith text (inlineJsQueryPrefix settings) = true ->
    enableInlineDataviewJs settings = true ->
    str_includes "await" code = false ->
    evalInContext host (PREAMBLE ++ code)%string currentFile
    = Raise (Err message) ->
    createQueryWidget host settings node view currentFile
    = Ok (Some (mkRange (node_from node - 1) (node_to node + 1)
                  (Replace
                     (mkWidget (getCssClasses (node_props node)) code
                        (mkEl ["dataview"; "dataview-inline"]
                              (Text ("Dataview (for inline JS query '"
                                       ++ code ++ "'): "
                                       ++ message)%string)))))).
Proof.
  intros Expr V host settings node view currentFile message
         Hnl text code Hq Hj Hon Hawait Heval.
  unfold createQueryWidget.
  destruct (String.eqb_spec
              (sliceDoc (doc view) (node_to node) (node_to node + 1))
              newline) as [E|_]; [contradiction|].
  fold text. rewrite Hq, Hj, Hon. cbn [negb andb orb]. fold code.
  rewrite Hawait, Heval. reflexivity.
Qed.

(** Witness of X5: the script of [Examples.throwDoc]. *)
Lemma createQueryWidget_script_exception_witness :
  createQueryWidget Demo.host Demo.settings Examples.throwNode
                    Examples.throwView "note.md"
  = Ok (Some (mkRange 0 12
                (Replace
                   (mkWidget [] "throw 1"
                      (mkEl ["dataview"; "dataview-inline"]
                            (Text ("Dataview (for inline JS query 'throw 1'): "
                                     ++ "Error: boom")%string)))))).
Proof.
  apply (@createQueryWidget_script_exception
           string string Demo.host Demo.settings Examples.throwNode
           Examples.throwView "note.md" "Error: boom").
  - vm_compute. intro H. discriminate H.
  - reflexivity.
  - reflexivity.
  - reflexivity.
  - reflexivity.
  - reflexivity.
Defined.

(** ** Further properties: widgets and their classes *)

Lemma includes_In :
  forall (l : list string) (v : string), includes l v = true <-> In v l.
Proof.
  intros l v. unfold includes. rewrite existsb_exists. split.
  - intros [x [Hx E]]. apply String.eqb_eq in E. subst x. exact Hx.
  - intro H. exists v. split; [exact H | apply String.eqb_refl].
Qed.

Lemma includes_app :
  forall (l1 l2 : list string) (v : string),
    includes (l1 ++ l2)%list v = includes l1 v || includes l2 v.
Proof. intros. unfold includes. apply existsb_app. Qed.

Lemma includes_addClass :
  forall (V : Type) (e : HTMLElement V) (v c : string),
    includes (classList (addClass e v)) c
    = includes (classList e) c || String.eqb c v.
Proof.
  intros V e v c. unfold addClass.
  destruct (includes (classList e) v) eqn:Ev.
  - destruct (String.eqb_spec c v) as [E|NE].
    + subst c. rewrite Ev. reflexivity.
    + rewrite orb_false_r. reflexivity.
  - simpl. rewrite includes_app. simpl. rewrite orb_false_r. reflexivity.
Qed.

Lemma includes_removeClass :
  forall (V : Type) (e : HTMLElement V) (v c : string),
    includes (classList (removeClass e v)) c
    = includes (classList e) c && negb (String.eqb c v).
Proof.
  intros V e v c. unfold removeClass, includes. simpl.
  induction (classList e) as [|x l IH]; simpl; [reflexivity|].
  destruct (String.eqb_spec v x) as [E|NE]; simpl.
  - subst x. rewrite IH.
    destruct (String.eqb_spec c v) as [E|NE]; simpl;
      [rewrite !andb_false_r; reflexivity | reflexivity].
  - rewrite IH.
    destruct (String.eqb_spec c x) as [E|NE']; simpl; [|reflexivity].
    subst x. destruct (String.eqb_spec c v) as [E|_]; [|reflexivity].
    subst c. contradiction.
Qed.

Lemma includes_addClasses :
  forall (V : Type) (cs : list string) (e : HTMLElement V) (c : string),
    includes (classList (addClasses e cs)) c
    = includes (classList e) c || includes cs c.
Proof.
  intros V cs. unfold addClasses.
  induction cs as [|v cs IH]; intros e c; simpl.
  - rewrite orb_false_r. reflexivity.
  - rewrite IH, includes_addClass. rewrite <- orb_assoc. reflexivity.
Qed.

Lemma addClasses_present :
  forall (V : Type) (cs : list string) (e : HTMLElement V),
    (forall c, In c cs -> includes (classList e) c = true) ->
    addClasses e cs = e.
Proof.
  intros V cs. unfold addClasses.
  induction cs as [|v cs IH]; intros e H; simpl; [reflexivity|].
  unfold addClass at 2. rewrite (H v (or_introl eq_refl)).
  apply IH. intros c Hc. apply H. now right.
Qed.

(** X6.  [toDOM] puts every class of the widget on its element, keeps
    the classes the element had, and is idempotent: calling it again
    changes nothing. *)
Theorem toDOM_classes :
  forall (V : Type) (w : InlineWidget V),
    toDOM (toDOM w) = toDOM w
    /\ forall c,
        includes (classList (el (toDOM w))) c
        = includes (classList (el w)) c || includes (cssClasses w) c.
Proof.
  intros V w. split.
  - unfold toDOM. simpl. f_equal.
    apply addClasses_present. intros c Hc.
    rewrite includes_addClasses. apply includes_In in Hc. rewrite Hc.
    apply orb_true_r.
  - intro c. unfold toDOM. simpl. apply includes_addClasses.
Qed.

Lemma includes_fold_eq_patch :
  forall (V : Type) (thisClasses cs : list string) (e : HTMLElement V)
         (c : string),
    includes (classList (fold_left (eq_patch thisClasses) cs e)) c
    = if includes cs c then includes thisClasses c
      else includes (classList e) c.
Proof.
  intros V thisClasses cs. induction cs as [|v cs IH]; intros e c.
  - reflexivity.
  - change (fold_left (eq_patch thisClasses) (v :: cs) e)
      with (fold_left (eq_patch thisClasses) cs (eq_patch thisClasses e v)).
    rewrite IH.
    change (includes (v :: cs) c) with (String.eqb c v || includes cs c).
    destruct (includes cs c); [rewrite orb_true_r; reflexivity|].
    rewrite orb_false_r. unfold eq_patch.
    destruct (includes thisClasses v) eqn:Ev; cbn [negb].
    + rewrite includes_addClass.
      destruct (String.eqb_spec c v) as [E|NE].
      * subst c. rewrite Ev. apply orb_true_r.
      * apply orb_false_r.
    + rewrite includes_removeClass.
      destruct (String.eqb_spec c v) as [E|NE]; cbn [negb].
      * subst c. rewrite Ev. apply andb_false_r.
      * apply andb_true_r.
Qed.

(** X7.  When [eq] finds the sources equal, the element of the widget
    it is called on ends up as follows: a class of the other widget is
    on the element exactly when this widget has it too, and every other
    class is on the element exactly when it was before.  So [eq] never
    gives the element a class this widget lacks. *)
Theorem widget_eq_classes :
  forall (V : Type) (this other : InlineWidget V) (c : string),
    sourceString other = sourceString this ->
    includes (classList (el (snd (widget_eq this other)))) c
    = if includes (cssClasses other) c then includes (cssClasses this) c
      else includes (classList (el this)) c.
Proof.
  intros V this other c Hsrc. unfold widget_eq.
  rewrite Hsrc, String.eqb_refl. simpl. apply includes_fold_eq_patch.
Qed.

(** Witness of X7: the class of the fresh widget does not reach the
    element on screen. *)
Lemma widget_eq_classes_witness :
  includes (classList (el (snd (widget_eq Demo.shownWidget Demo.freshWidget))))
           "cm-em"
  = false.
Proof.
  apply (@widget_eq_classes string Demo.shownWidget Demo.freshWidget "cm-em").
  reflexivity.
Defined.

(** X8.  Two widgets that [createQueryWidget] builds for disabled
    queries compare equal under [eq], whatever their texts: the source
    string of a disabled widget is empty. *)
Theorem disabled_widgets_equal :
  forall (E1 E2 V : Type) (host1 : Host E1 V) (host2 : Host E2 V)
         (settings : DataviewSettings)
         (node1 node2 : SyntaxNode) (view1 view2 : EditorView)
         (file1 file2 : string),
    sliceDoc (doc view1) (node_to node1) (node_to node1 + 1) <> newline ->
    sliceDoc (doc view2) (node_to node2) (node_to node2 + 1) <> newline ->
    (startsWith (sliceDoc (doc view1) (node_from node1) (node_to node1))
                (inlineQueryPrefix settings)
     && negb (enableInlineDataview settings))
    || (startsWith (sliceDoc (doc view1) (node_from node1) (node_to node1))
                   (inlineJsQueryPrefix settings)
        && negb (enableInlineDataviewJs settings)) = true ->
    (startsWith (sliceDoc (doc view2) (node_from node2) (node_to node2))
                (inlineQueryPrefix settings)
     && negb (enableInlineDataview settings))
    || (startsWith (sliceDoc (doc view2) (node_from node2) (node_to node2))
                   (inlineJsQueryPrefix settings)
        && negb (enableInlineDataviewJs settings)) = true ->
    exists w1 w2,
      createQueryWidget host1 settings node1 view1 file1
      = Ok (Some (mkRange (node_from node1 - 1) (node_to node1 + 1)
                          (Replace w1)))
      /\ createQueryWidget host2 settings node2 view2 file2
         = Ok (Some (mkRange (node_from node2 - 1) (node_to node2 + 1)
                             (Replace w2)))
      /\ content (el w1) = Text "(disabled; enable in settings)"
      /\ content (el w2) = Text "(disabled; enable in settings)"
      /\ fst (widget_eq w1 w2) = true.
Proof.
  intros E1 E2 V host1 host2 settings node1 node2 view1 view2 file1 file2
         Hnl1 Hnl2 Hoff1 Hoff2.
  rewrite (createQueryWidget_disabled host1 settings node1 view1 file1
             Hnl1 Hoff1).
  rewrite (createQueryWidget_disabled host2 settings node2 view2 file2
             Hnl2 Hoff2).
  do 2 eexists. repeat split.
Qed.

(** Witness of X8: the expression query of [Demo.queryDoc] and the
    script query of [Demo.rejectDoc], both disabled. *)
Lemma disabled_widgets_equal_witness :
  exists w1 w2,
    createQueryWidget Demo.host Examples.disabledSettings Demo.queryNode
                      Demo.queryView "note.md"
    = Ok (Some (mkRange 0 5 (Replace w1)))
    /\ createQueryWidget Demo.host Examples.disabledSettings Demo.rejectNode
                         Demo.rejectView "note.md"
       = Ok (Some (mkRange 0 19 (Replace w2)))
    /\ content (el w1) = Text "(disabled; enable in settings)"
    /\ content (el w2) = Text "(disabled; enable in settings)"
    /\ fst (widget_eq w1 w2) = true.
Proof.
  apply (@disabled_widgets_equal
           string string string Demo.host Demo.host Examples.disabledSettings
           Demo.queryNode Demo.rejectNode Demo.queryView Demo.rejectView
           "note.md" "note.md").
  - vm_compute. intro H. discriminate H.
  - vm_compute. intro H. discriminate H.
  - reflexivity.
  - reflexivity.
Defined.

(** X9.  [getCssClasses] returns a class exactly when the matching token
    class is among the node's properties, for the five token classes it
    knows, and never returns a class twice. *)
Theorem getCssClasses_spec :
  forall (props : list string) (c : string),
    NoDup (getCssClasses props)
    /\ (In c (getCssClasses props) <->
        (c = "cm-strong" /\ includes props "strong" = true)
        \/ (c = "cm-em" /\ includes props "em" = true)
        \/ (c = "cm-highlight" /\ includes props "highlight" = true)
        \/ (c = "cm-strikethrough" /\ includes props "strikethrough" = true)
        \/ (c = "cm-comment" /\ includes props "comment" = true)).
Proof.
  intros props c. unfold getCssClasses.
  destruct (includes props "strong"), (includes props "em"),
    (includes props "highlight"), (includes props "strikethrough"),
    (includes props "comment"); simpl; split;
    try (repeat constructor; simpl; intuition discriminate);
    split; intro H;
    repeat match goal with
           | H : _ \/ _ |- _ => destruct H
           | H : _ /\ _ |- _ => destruct H
           | H : False |- _ => destruct H
           end; subst; try discriminate; tauto.
Qed.

(** ** Further properties: adding and removing decorators *)

Lemma merge_In_iff :
  forall (V : Type) (add cur : list (Range V)) (x : Range V),
    In x (merge add cur) <-> In x add \/ In x cur.
Proof.
  intros V add cur x. split; [apply merge_In|].
  revert cur. induction add as [|a add IH]; intros cur; simpl.
  - intros [[]|H]. exact H.
  - induction cur as [|c cur IHc]; simpl.
    + intros [H|[]]. exact H.
    + destruct (goes_before a c); simpl.
      * intros [[E|H]|H]; [now left | right | right].
        -- apply IH. now left.
        -- apply IH. right. exact H.
      * intros [H|[E|H]]; [right | now left | right].
        -- apply IHc. now left.
        -- apply IHc. now right.
Qed.

Lemma existsBetween_true :
  forall (V : Type) (set : DecorationSet V) (a b : Z) (x : Range V),
    In x set -> touches a b x = true -> existsBetween set a b = true.
Proof.
  intros V set a b x Hin Ht. unfold existsBetween.
  destruct (between set a b) as [|y l] eqn:E; [|reflexivity].
  assert (H : In x (between set a b))
    by (unfold between; apply filter_In; auto).
  rewrite E in H. destruct H.
Qed.

Lemma touches_self :
  forall (V : Type) (a b : Z) (d : Decoration V),
    a <= b -> touches a b (mkRange a b d) = true.
Proof.
  intros V a b d H. unfold touches. simpl.
  apply andb_true_intro. split; [apply Z.leb_le | apply Z.geb_le]; lia.
Qed.

(** Filtering out a span's only decoration after it was merged in gives
    the store back. *)
Lemma filter_merge_single_out :
  forall (V : Type) (p : Range V -> bool) (new : Range V)
         (cur : list (Range V)),
    p new = false -> (forall x, In x cur -> p x = true) ->
    filter p (merge [new] cur) = cur.
Proof.
  intros V p new cur Hnew. induction cur as [|c cur IH]; intro Hcur; simpl.
  - rewrite Hnew. reflexivity.
  - destruct (goes_before new c); simpl.
    + rewrite Hnew, (Hcur c (or_introl eq_refl)). f_equal.
      apply forallb_filter_id. apply forallb_forall.
      intros x Hx. apply Hcur. now right.
    + rewrite (Hcur c (or_introl eq_refl)). f_equal.
      apply IH. intros x Hx. apply Hcur. now right.
Qed.

(** X10.  Removing a query's decorator twice is the same as removing it
    once, in a store whose ranges have [from <= to]. *)
Theorem removeQueryDecorator_idempotent :
  forall (V : Type) (this : PluginValue V) (node : SyntaxNode),
    (forall r, In r (decorations this) -> from r <= to r) ->
    removeQueryDecorator (removeQueryDecorator this node) node
    = removeQueryDecorator this node.
Proof.
  intros V this node Hwf.
  unfold removeQueryDecorator at 1. unfold setDecorations.
  unfold removeBetween at 1.
  replace (between (decorations (removeQueryDecorator this node))
                   (node_from node - 1) (node_to node + 1))
    with (@nil (Range V)).
  - simpl. destruct this as [d l]. reflexivity.
  - symmetry. unfold removeQueryDecorator. simpl.
    apply removeBetween_clears. exact Hwf.
Qed.

(** Witness of X10: the marks of [Demo.nestedDoc] and its second
    query. *)
Lemma removeQueryDecorator_idempotent_witness :
  removeQueryDecorator
    (removeQueryDecorator (mkPlugin Demo.sourceMarks true) Demo.outerQuery)
    Demo.outerQuery
  = removeQueryDecorator (mkPlugin Demo.sourceMarks true) Demo.outerQuery.
Proof.
  apply (@removeQueryDecorator_idempotent
           string (mkPlugin Demo.sourceMarks true) Demo.outerQuery).
  simpl. intros r Hr.
  repeat (destruct Hr as [Hr|Hr]; [subst r; simpl; lia|]).
  destruct Hr.
Defined.

(** X11.  [addQueryDecorator] is idempotent: called again on its own
    result, for the same node and view, it changes nothing. *)
Theorem addQueryDecorator_idempotent :
  forall (Expr V : Type) (host : Host Expr V) (settings : DataviewSettings)
         (this this' : PluginValue V) (node : SyntaxNode) (view : EditorView),
    node_from node <= node_to node + 2 ->
    addQueryDecorator host settings this node view = Ok this' ->
    addQueryDecorator host settings this' node view = Ok this'.
Proof.
  intros Expr V host settings this this' node view Hord.
  unfold addQueryDecorator at 1.
  destruct (existsBetween (decorations this) (node_from node - 1)
                          (node_to node + 1)) eqn:Hex.
  { intro H. inversion H. subst this'. unfold addQueryDecorator.
    rewrite Hex. reflexivity. }
  destruct (activeFile view) as [f|] eqn:Hf.
  2:{ intro H. inversion H. subst this'. unfold addQueryDecorator.
      rewrite Hex, Hf. reflexivity. }
  destruct (createQueryWidget host settings node view f) as [[r|]|e] eqn:Hw;
    simpl; intro H; inversion H.
  - unfold addQueryDecorator. simpl.
    rewrite (existsBetween_true
               (update_add (decorations this)
                  [mkRange (node_from node - 1) (node_to node + 1) (value r)]
                  false)
               (node_from node - 1) (node_to node + 1)
               (mkRange (node_from node - 1) (node_to node + 1) (value r))).
    + reflexivity.
    + unfold update_add. apply merge_In_iff. left. now left.
    + apply touches_self. lia.
  - subst this'. unfold addQueryDecorator. rewrite Hex, Hf, Hw. reflexivity.
Qed.

(** Witness of X11: the query of [Demo.queryDoc] on the empty store. *)
Lemma addQueryDecorator_idempotent_witness :
  addQueryDecorator Demo.host Demo.settings Demo.queryStore Demo.queryNode
                    Demo.queryView
  = Ok Demo.queryStore.
Proof.
  apply (@addQueryDecorator_idempotent
           string string Demo.host Demo.settings (mkPlugin [] true)
           Demo.queryStore Demo.queryNode Demo.queryView).
  - simpl. lia.
  - reflexivity.
Defined.

(** X12.  Concealing and then revealing restores the store: when no
    decoration touches the widened range of a node, adding its
    decorator and then removing it gives back the plugin value one
    started from. *)
Theorem add_then_remove_restores :
  forall (Expr V : Type) (host : Host Expr V) (settings : DataviewSettings)
         (this this' : PluginValue V) (node : SyntaxNode) (view : EditorView),
    node_from node <= node_to node + 2 ->
    untouched (node_from node - 1) (node_to node + 1) this ->
    addQueryDecorator host settings this node view = Ok this' ->
    removeQueryDecorator this' node = this.
Proof.
  intros Expr V host settings this this' node view Hord Hun.
  assert (Hkeep : forall x, In x (decorations this) ->
            touches (node_from node - 1) (node_to node + 1) x = false).
  { intros x Hx.
    destruct (touches (node_from node - 1) (node_to node + 1) x) eqn:Ht;
      [|reflexivity].
    assert (Hin : In x (between (decorations this) (node_from node - 1)
                                (node_to node + 1)))
      by (unfold between; apply filter_In; auto).
    unfold untouched in Hun. rewrite Hun in Hin. destruct Hin. }
  assert (Hsame : removeQueryDecorator this node = this).
  { unfold removeQueryDecorator, removeBetween, setDecorations.
    unfold untouched in Hun. rewrite Hun. simpl.
    destruct this as [d l]. reflexivity. }
  unfold addQueryDecorator.
  destruct (existsBetween _ _ _);
    [intro H; inversion H; subst this'; exact Hsame|].
  destruct (activeFile view) as [f|];
    [|intro H; inversion H; subst this'; exact Hsame].
  destruct (createQueryWidget host settings node view f) as [[r|]|e];
    simpl; intro H; inversion H; [|subst this'; exact Hsame].
  unfold removeQueryDecorator, removeBetween, setDecorations.
  cbn [decorations]. unfold update_add.
  rewrite between_merge_single;
    [ | apply touches_self; lia | exact Hun ].
  cbn [fold_left from to decorations]. rewrite update_filter_none.
  rewrite filter_merge_single_out.
  - destruct this as [d l]. reflexivity.
  - rewrite touches_self by lia. reflexivity.
  - intros x Hx. rewrite (Hkeep x Hx). reflexivity.
Qed.

(** Witness of X12: the query of [Demo.queryDoc] on the empty store. *)
Lemma add_then_remove_restores_witness :
  removeQueryDecorator Demo.queryStore Demo.queryNode = mkPlugin [] true.
Proof.
  apply (@add_then_remove_restores
           string string Demo.host Demo.settings (mkPlugin [] true)
           Demo.queryStore Demo.queryNode Demo.queryView).
  - simpl. lia.
  - reflexivity.
  - reflexivity.
Defined.

(** ** Further properties: what a pass keeps *)

Lemma goes_before_le :
  forall (V : Type) (a c : Range V),
    (goes_before a c = true -> from a <= from c)
    /\ (goes_before a c = false -> from c <= from a).
Proof.
  intros V a c. unfold goes_before.
  destruct (Z.eqb_spec (from c - from a) 0) as [E|NE].
  - split; intros _; lia.
  - rewrite Z.geb_leb. split; intro H;
      [apply Z.leb_le in H | apply Z.leb_gt in H]; lia.
Qed.

Lemma cmpRange_le_le :
  forall (V : Type) (a b : Range V),
    (cmpRange_le a b = true -> from a <= from b)
    /\ (cmpRange_le a b = false -> from b <= from a).
Proof.
  intros V a b. unfold cmpRange_le.
  destruct (Z.eqb_spec (from a - from b) 0) as [E|NE].
  - split; intros _; lia.
  - split; intro H; [apply Z.leb_le in H | apply Z.leb_gt in H]; lia.
Qed.

Lemma sortedByFrom_filter :
  forall (V : Type) (p : Range V -> bool) (set : DecorationSet V),
    sortedByFrom set -> sortedByFrom (filter p set).
Proof.
  intros V p set H. induction H as [|x l Hl IH Hx]; simpl.
  - constructor.
  - destruct (p x); [|exact IH].
    constructor; [exact IH|].
    apply Forall_forall. intros y Hy. apply filter_In in Hy.
    rewrite Forall_forall in Hx. apply Hx. tauto.
Qed.

Lemma sortedByFrom_merge :
  forall (V : Type) (add cur : list (Range V)),
    sortedByFrom add -> sortedByFrom cur -> sortedByFrom (merge add cur).
Proof.
  intros V add. induction add as [|a add IH]; intros cur Hadd Hcur; simpl.
  - exact Hcur.
  - inversion Hadd as [|? ? Hadd' Ha]; subst.
    rewrite Forall_forall in Ha.
    induction cur as [|c cur IHc]; simpl.
    + exact Hadd.
    + inversion Hcur as [|? ? Hcur' Hc]; subst.
      rewrite Forall_forall in Hc.
      destruct (goes_before a c) eqn:Eg.
      * apply (proj1 (goes_before_le a c)) in Eg.
        constructor; [apply IH; assumption|].
        apply Forall_forall. intros y Hy. apply merge_In in Hy.
        destruct Hy as [Hy|[Hy|Hy]].
        -- apply Ha, Hy.
        -- subst y. exact Eg.
        -- specialize (Hc y Hy). simpl in Hc. lia.
      * apply (proj2 (goes_before_le a c)) in Eg.
        constructor; [apply IHc; exact Hcur'|].
        apply Forall_forall. intros y Hy.
        change (In y (merge (a :: add) cur)) in Hy.
        apply merge_In in Hy.
        destruct Hy as [[Hy|Hy]|Hy].
        -- subst y. exact Eg.
        -- specialize (Ha y Hy). simpl in Ha. lia.
        -- apply Hc, Hy.
Qed.

Lemma insert_sorted_sorted :
  forall (V : Type) (x : Range V) (l : list (Range V)),
    sortedByFrom l -> sortedByFrom (insert_sorted x l).
Proof.
  intros V x l H. induction H as [|y l Hl IH Hy]; simpl.
  - repeat constructor.
  - rewrite Forall_forall in Hy.
    destruct (cmpRange_le y x) eqn:Ec.
    + apply (proj1 (cmpRange_le_le y x)) in Ec.
      constructor; [exact IH|].
      apply Forall_forall. intros z Hz. apply insert_sorted_In in Hz.
      destruct Hz as [Hz|Hz]; [subst z; exact Ec | apply Hy, Hz].
    + apply (proj2 (cmpRange_le_le y x)) in Ec.
      constructor.
      * constructor; [exact Hl | apply Forall_forall; exact Hy].
      * apply Forall_forall. intros z [Hz|Hz].
        -- subst z. exact Ec.
        -- specialize (Hy z Hz). simpl in Hy. lia.
Qed.

Lemma sortRanges_sorted :
  forall (V : Type) (add : list (Range V)), sortedByFrom (sortRanges add).
Proof.
  intros V add. unfold sortRanges.
  assert (G : forall acc,
             sortedByFrom acc ->
             sortedByFrom
               (fold_left (fun acc x => insert_sorted x acc) add acc)).
  { induction add as [|x add IH]; intros acc Hacc; simpl; [exact Hacc|].
    apply IH. apply insert_sorted_sorted, Hacc. }
  apply G. constructor.
Qed.

Section PassInvariants.

Variables Expr V : Type.
Variable host : Host Expr V.
Variable scanner : Scanner.
Variable settings : DataviewSettings.
Variable view : EditorView.

Lemma fieldStep_sorted :
  forall line (this : PluginValue V) field this',
    sortedByFrom (decorations this) ->
    fieldStep view line this field = Ok this' ->
    sortedByFrom (decorations this').
Proof.
  intros line this field this' Hs. unfold fieldStep.
  destruct (negb (fieldRenderInfo this view line field)).
  - intro H. inversion H. simpl. rewrite removeBetween_spec.
    apply sortedByFrom_filter, Hs.
  - unfold addFieldDecorator.
    destruct (existsBetween _ _ _); [intro H; inversion H; subst; exact Hs|].
    destruct (activeFile view); [|intro H; inversion H; subst; exact Hs].
    destruct (if livepreview this then _ else _) as [l|e];
      simpl; intro H; inversion H.
    simpl. unfold update_add.
    apply sortedByFrom_merge; [apply sortRanges_sorted | exact Hs].
Qed.

Lemma queryStep_sorted :
  forall (this : PluginValue V) node this',
    sortedByFrom (decorations this) ->
    queryStep host settings view this node = Ok this' ->
    sortedByFrom (decorations this').
Proof.
  intros this node this' Hs. unfold queryStep.
  destruct (queryRenderInfo settings view node) as [render isQuery].
  destruct (negb render && isQuery).
  { intro H. inversion H. simpl. rewrite removeBetween_spec.
    apply sortedByFrom_filter, Hs. }
  destruct render; [|intro H; inversion H; subst; exact Hs].
  unfold addQueryDecorator.
  destruct (existsBetween _ _ _); [intro H; inversion H; subst; exact Hs|].
  destruct (activeFile view) as [f|];
    [|intro H; inversion H; subst; exact Hs].
  destruct (createQueryWidget host settings node view f) as [[r|]|e];
    simpl; intro H; inversion H; subst; try exact Hs.
  simpl. unfold update_add.
  apply sortedByFrom_merge; [repeat constructor | exact Hs].
Qed.

End PassInvariants.

(** X13.  The store stays in the order of its start offsets: a pass
    that starts from a store sorted by [from] ends in one. *)
Theorem updateTree_keeps_sorted :
  forall (Expr V : Type) (host : Host Expr V) (scanner : Scanner)
         (settings : DataviewSettings) (view : EditorView)
         (this this' : PluginValue V),
    sortedByFrom (decorations this) ->
    updateTree host scanner settings view this = Ok this' ->
    sortedByFrom (decorations this').
Proof.
  intros Expr V host scanner settings view this this' Hs. unfold updateTree.
  destruct (updateFields scanner view this) as [this1|e] eqn:Ef;
    simpl; [|discriminate].
  assert (Hs1 : sortedByFrom (decorations this1)).
  { revert Ef. unfold updateFields.
    apply foldM_invariant
      with (P := fun s : PluginValue V => sortedByFrom (decorations s));
      [|exact Hs].
    intros s [x y] s' Hsx.
    destruct (lineAt (doc view) x) as [la|]; simpl; [|discriminate].
    destruct (lineAt (doc view) y) as [lb|]; simpl; [|discriminate].
    apply foldM_invariant
      with (P := fun s : PluginValue V => sortedByFrom (decorations s));
      [|exact Hsx].
    intros s1 line s1' Hs1.
    apply foldM_invariant
      with (P := fun s : PluginValue V => sortedByFrom (decorations s));
      [|exact Hs1].
    intros s2 field s2'. apply fieldStep_sorted. }
  destruct (negb (livepreview this1)).
  - intro H. inversion H. subst. exact Hs1.
  - unfold updateQueries.
    apply foldM_invariant
      with (P := fun s : PluginValue V => sortedByFrom (decorations s));
      [|exact Hs1].
    intros s [x y] s' Hsx.
    apply foldM_invariant
      with (P := fun s : PluginValue V => sortedByFrom (decorations s));
      [|exact Hsx].
    intros s1 node s1'. apply queryStep_sorted.
Qed.

(** Witness of X13: the first live-preview pass over [Demo.nestedDoc],
    starting from the marks of its field. *)
Lemma updateTree_keeps_sorted_witness :
  sortedByFrom (decorations Demo.firstPass).
Proof.
  apply (@updateTree_keeps_sorted
           string string Demo.host Demo.scanner Demo.settings
           (Demo.nestedView true) (mkPlugin Demo.sourceMarks true)
           Demo.firstPass).
  - simpl. unfold sortedByFrom, Demo.sourceMarks.
    repeat (constructor; simpl; try lia).
  - vm_compute. reflexivity.
Defined.

Lemma createQueryWidget_is_replace :
  forall (Expr V : Type) (host : Host Expr V) (settings : DataviewSettings)
         (node : SyntaxNode) (view : EditorView) (f : string) (r : Range V),
    createQueryWidget host settings node view f = Ok (Some r) ->
    isReplace r = true.
Proof.
  intros Expr V host settings node view f r. unfold createQueryWidget.
  repeat match goal with
         | |- context [if ?c then _ else _] => destruct c
         | |- context [tryOrPropogate ?x] => destruct (tryOrPropogate x)
         | |- context [evalInContext ?h ?s ?f] =>
             destruct (evalInContext h s f) as [v|[msg|e']]
         end; simpl; intro H; inversion H; reflexivity.
Qed.

Lemma addFieldDecorator_mode :
  forall (V : Type) (this : PluginValue V) view line field this',
    addFieldDecorator this view line field = Ok this' ->
    livepreview this' = livepreview this.
Proof.
  intros V this view line field this'. unfold addFieldDecorator.
  destruct (existsBetween _ _ _); [intro H; inversion H; reflexivity|].
  destruct (activeFile view); [|intro H; inversion H; reflexivity].
  destruct (if livepreview this then _ else _) as [l|e];
    simpl; intro H; inversion H; reflexivity.
Qed.

Lemma fieldStep_mode :
  forall (V : Type) view line (this : PluginValue V) field this',
    fieldStep view line this field = Ok this' ->
    livepreview this' = livepreview this.
Proof.
  intros V view line this field this'. unfold fieldStep.
  destruct (negb (fieldRenderInfo this view line field)).
  - intro H. inversion H. reflexivity.
  - apply addFieldDecorator_mode.
Qed.

Lemma queryStep_mode :
  forall (Expr V : Type) (host : Host Expr V) settings view
         (this : PluginValue V) node this',
    queryStep host settings view this node = Ok this' ->
    livepreview this' = livepreview this.
Proof.
  intros Expr V host settings view this node this'. unfold queryStep.
  destruct (queryRenderInfo settings view node) as [render isQuery].
  destruct (negb render && isQuery); [intro H; inversion H; reflexivity|].
  destruct render; [|intro H; inversion H; reflexivity].
  apply addQueryDecorator_livepreview.
Qed.

Lemma updateTree_mode :
  forall (Expr V : Type) (host : Host Expr V) scanner settings view
         (this this' : PluginValue V),
    updateTree host scanner settings view this = Ok this' ->
    livepreview this' = livepreview this.
Proof.
  intros Expr V host scanner settings view this this'. unfold updateTree.
  destruct (updateFields scanner view this) as [this1|e] eqn:Ef;
    simpl; [|discriminate].
  assert (H1 : livepreview this1 = livepreview this).
  { revert Ef. unfold updateFields.
    apply foldM_invariant
      with (P := fun s : PluginValue V => livepreview s = livepreview this);
      [|reflexivity].
    intros s [x y] s' Hs.
    destruct (lineAt (doc view) x) as [la|]; simpl; [|discriminate].
    destruct (lineAt (doc view) y) as [lb|]; simpl; [|discriminate].
    apply foldM_invariant
      with (P := fun s : PluginValue V => livepreview s = livepreview this);
      [|exact Hs].
    intros s1 line s1' Hs1.
    apply foldM_invariant
      with (P := fun s : PluginValue V => livepreview s = livepreview this);
      [|exact Hs1].
    intros s2 field s2' Hs2 Hstep.
    apply fieldStep_mode in Hstep. congruence. }
  destruct (negb (livepreview this1)).
  - intro H. inversion H. subst. exact H1.
  - unfold updateQueries.
    apply foldM_invariant
      with (P := fun s : PluginValue V => livepreview s = livepreview this);
      [|exact H1].
    intros s [x y] s' Hs.
    apply foldM_invariant
      with (P := fun s : PluginValue V => livepreview s = livepreview this);
      [|exact Hs].
    intros s1 node s1' Hs1 Hstep.
    apply queryStep_mode in Hstep. congruence.
Qed.

(** X14.  In source-display mode a pass removes nothing and handles no
    query: every decoration of the store before the pass, a query
    widget left from live preview included, is still there after it,
    and every Replace-decoration of the store after the pass was there
    before it, so that no query widget is installed. *)
Theorem source_mode_pass_keeps_everything :
  forall (Expr V : Type) (host : Host Expr V) (scanner : Scanner)
         (settings : DataviewSettings) (view : EditorView)
         (this this' : PluginValue V),
    livepreview this = false ->
    updateTree host scanner settings view this = Ok this' ->
    (forall r, In r (decorations this) -> In r (decorations this'))
    /\ (forall r, In r (decorations this') -> isReplace r = true ->
                  In r (decorations this)).
Proof.
  intros Expr V host scanner settings view this this' Hsrc Hup.
  unfold updateTree in Hup.
  destruct (updateFields scanner view this) as [this1|e] eqn:Ef;
    simpl in Hup; [|discriminate].
  pose (P := fun s : PluginValue V =>
               livepreview s = false
               /\ (forall r, In r (decorations this) -> In r (decorations s))
               /\ (forall r, In r (decorations s) -> isReplace r = true ->
                             In r (decorations this))).
  assert (H1 : P this1).
  { revert Ef. unfold updateFields.
    apply foldM_invariant with (P := P);
      [|split; [exact Hsrc | split; auto]].
    intros s [x y] s' Hs.
    destruct (lineAt (doc view) x) as [la|]; simpl; [|discriminate].
    destruct (lineAt (doc view) y) as [lb|]; simpl; [|discriminate].
    apply foldM_invariant with (P := P); [|exact Hs].
    intros s1 line s1' Hs1.
    apply foldM_invariant with (P := P); [|exact Hs1].
    intros s2 field s2' [Hm [Hkeep Hnew]] Hstep. split.
    { apply fieldStep_mode in Hstep. congruence. }
    revert Hstep. unfold fieldStep, fieldRenderInfo. rewrite Hm. simpl.
    unfold addFieldDecorator.
    destruct (existsBetween _ _ _);
      [intro H; inversion H; subst; split; assumption|].
    destruct (activeFile view);
      [|intro H; inversion H; subst; split; assumption].
    rewrite Hm.
    destruct (createFieldDecoratorSourceMode V line field) as [l|e] eqn:El;
      simpl; intro H; inversion H.
    simpl. unfold update_add. split.
    - intros r Hr. apply merge_In_iff. right. apply Hkeep. exact Hr.
    - intros r Hr Hrep. apply merge_In_iff in Hr. destruct Hr as [Hr|Hr].
      + apply sortRanges_In in Hr.
        rewrite (createFieldDecoratorSourceMode_marks _ _ El r Hr) in Hrep.
        discriminate.
      + apply Hnew; assumption. }
  destruct H1 as [Hm1 Hin1]. rewrite Hm1 in Hup. simpl in Hup.
  inversion Hup. subst. exact Hin1.
Qed.

(** Witness of X14: the source-mode pass over [Demo.nestedDoc], which
    holds two queries, installs the marks of the field and no widget. *)
Lemma source_mode_pass_keeps_everything_witness :
  (forall r, In r (decorations (mkPlugin (V := string) [] false)) ->
             In r (decorations (mkPlugin Demo.sourceMarks false)))
  /\ (forall r, In r (decorations (mkPlugin Demo.sourceMarks false)) ->
                isReplace r = true ->
                In r (decorations (mkPlugin (V := string) [] false))).
Proof.
  apply (@source_mode_pass_keeps_everything
           string string Demo.host Demo.scanner Demo.settings
           (Demo.nestedView false)
           (mkPlugin [] false) (mkPlugin Demo.sourceMarks false)).
  - reflexivity.
  - vm_compute. reflexivity.
Defined.

(** X15.  In live-preview mode a pass adds no mark: every
    styling mark of the store after the pass was in it before. *)
Theorem live_preview_pass_adds_no_mark :
  forall (Expr V : Type) (host : Host Expr V) (scanner : Scanner)
         (settings : DataviewSettings) (view : EditorView)
         (this this' : PluginValue V) (r : Range V),
    livepreview this = true ->
    updateTree host scanner settings view this = Ok this' ->
    In r (decorations this') -> isReplace r = false ->
    In r (decorations this).
Proof.
  intros Expr V host scanner settings view this this' r Hlp Hup Hr Hmark.
  pose (P := fun s : PluginValue V =>
               livepreview s = true
               /\ (In r (decorations s) -> In r (decorations this))).
  assert (Hrm : forall (s : PluginValue V) a b,
             P s -> P (setDecorations s (removeBetween (decorations s) a b))).
  { intros s a b [Hm Hin]. split; [exact Hm|].
    simpl. intro H. apply removeBetween_In in H. apply Hin, H. }
  unfold updateTree in Hup.
  destruct (updateFields scanner view this) as [this1|e] eqn:Ef;
    simpl in Hup; [|discriminate].
  assert (H1 : P this1).
  { revert Ef. unfold updateFields.
    apply foldM_invariant with (P := P); [|split; auto].
    intros s [x y] s' Hs.
    destruct (lineAt (doc view) x) as [la|]; simpl; [|discriminate].
    destruct (lineAt (doc view) y) as [lb|]; simpl; [|discriminate].
    apply foldM_invariant with (P := P); [|exact Hs].
    intros s1 line s1' Hs1.
    apply foldM_invariant with (P := P); [|exact Hs1].
    intros s2 field s2' Hs2. unfold fieldStep.
    destruct (negb (fieldRenderInfo s2 view line field)).
    - intro H. inversion H. apply Hrm, Hs2.
    - intro H. apply addFieldDecorator_livepreview in H;
        [subst; exact Hs2 | apply Hs2]. }
  destruct H1 as [Hm1 Hin1]. rewrite Hm1 in Hup. simpl in Hup.
  assert (H2 : P this').
  { revert Hup. unfold updateQueries.
    apply foldM_invariant with (P := P); [|split; assumption].
    intros s [x y] s' Hs.
    apply foldM_invariant with (P := P); [|exact Hs].
    intros s1 node s1' Hs1. unfold queryStep.
    destruct (queryRenderInfo settings view node) as [render isQuery].
    destruct (negb render && isQuery).
    { intro H. inversion H. apply Hrm, Hs1. }
    destruct render; [|intro H; inversion H; subst; exact Hs1].
    unfold addQueryDecorator.
    destruct (existsBetween _ _ _); [intro H; inversion H; subst; exact Hs1|].
    destruct (activeFile view) as [f|];
      [|intro H; inversion H; subst; exact Hs1].
    destruct (createQueryWidget host settings node view f) as [[w|]|e] eqn:Hw;
      simpl; intro H; inversion H; subst; try exact Hs1.
    destruct Hs1 as [Hm Hin]. split; [exact Hm|].
    simpl. unfold update_add. intro Hx. apply merge_In in Hx.
    destruct Hx as [[Hx|[]]|Hx]; [|apply Hin, Hx].
    exfalso. subst r. apply createQueryWidget_is_replace in Hw.
    unfold isReplace in *. simpl in Hmark. congruence. }
  apply H2, Hr.
Qed.

(** Witness of X15: the three marks left by the first live-preview
    pass over [Demo.nestedDoc] were among the marks of its field. *)
Lemma live_preview_pass_adds_no_mark_witness :
  In (mkRange 2 4 (Mark "dataview source-mode-inline-field-colon" false))
     (decorations (mkPlugin Demo.sourceMarks true)).
Proof.
  apply (@live_preview_pass_adds_no_mark
           string string Demo.host Demo.scanner Demo.settings
           (Demo.nestedView true) (mkPlugin Demo.sourceMarks true)
           Demo.firstPass).
  - reflexivity.
  - vm_compute. reflexivity.
  - simpl. tauto.
  - reflexivity.
Defined.

(** X16.  After an update the live-preview flag of the plugin value is
    the one of the editor state, whichever branch the update took. *)
Theorem update_tracks_mode :
  forall (Expr V : Type) (host : Host Expr V) (scanner : Scanner)
         (settings : DataviewSettings) (u : ViewUpdate)
         (this this' : PluginValue V),
    update host scanner settings u this = Ok this' ->
    livepreview this' = livePreviewField (u_view u).
Proof.
  intros Expr V host scanner settings u this this'. unfold update.
  destruct (docChanged u);
    [intro H; apply updateTree_mode in H; exact H|].
  destruct (selectionSet u);
    [intro H; apply updateTree_mode in H; exact H|].
  destruct (viewportChanged u);
    [intro H; apply updateTree_mode in H; exact H|].
  intro H. inversion H. reflexivity.
Qed.

(** Witness of X16: the marks made in source mode, then a selection
    update in live preview. *)
Lemma update_tracks_mode_witness :
  livepreview Demo.firstPass = livePreviewField (Demo.nestedView true).
Proof.
  apply (@update_tracks_mode
           string string Demo.host Demo.scanner Demo.settings
           (Demo.selectionEvent (Demo.nestedView true))
           (mkPlugin Demo.sourceMarks false) Demo.firstPass).
  vm_compute. reflexivity.
Defined.

(** X17.  A node that is not an inline query is left alone: when a node
    lacks the [inline-code] token class, or carries [formatting], or
    its text starts with neither prefix, the step of the pass on it
    returns the plugin value unchanged, whatever the selection. *)
Theorem queryStep_skips_other_nodes :
  forall (Expr V : Type) (host : Host Expr V) (settings : DataviewSettings)
         (view : EditorView) (this : PluginValue V) (node : SyntaxNode),
    includes (node_props node) "inline-code" = false
    \/ includes (node_props node) "formatting" = true
    \/ isInlineQuery settings view (node_from node) (node_to node) = false ->
    queryStep host settings view this node = Ok this.
Proof.
  intros Expr V host settings view this node H.
  unfold queryStep, queryRenderInfo.
  assert (Hq : includes (node_props node) "inline-code"
               && negb (includes (node_props node) "formatting")
               && isInlineQuery settings view (node_from node) (node_to node)
               = false).
  { destruct H as [H|[H|H]]; rewrite H; simpl.
    - reflexivity.
    - rewrite andb_false_r. reflexivity.
    - apply andb_false_r. }
  rewrite Hq. reflexivity.
Qed.

(** Witness of X17: the opening backtick of [Demo.queryDoc]. *)
Lemma queryStep_skips_other_nodes_witness :
  queryStep Demo.host Demo.settings Demo.selectedView Demo.queryStore
            (Demo.backtick 0)
  = Ok Demo.queryStore.
Proof.
  apply (@queryStep_skips_other_nodes
           string string Demo.host Demo.settings Demo.selectedView
           Demo.queryStore (Demo.backtick 0)).
  right. left. reflexivity.
Defined.

(** X18.  The incremental pass of the first revision also keeps the
    Replace-decorations apart: started from a store in which they are,
    it ends in a store where at most one covers any non-empty span. *)
Theorem first_revision_pass_exclusive :
  forall (Expr V : Type) (host : Host Expr V) (settings : DataviewSettings)
         (view : EditorView) (decos decos' : DecorationSet V) (a b : Z),
    exclusive decos ->
    QueryOnly.updateTree host settings view decos = Ok decos' ->
    a < b ->
    (List.length (replacing decos' a b) <= 1)%nat.
Proof.
  intros Expr V host settings view decos decos' a b Hex Hup Hab.
  apply exclusive_at_most_one; [|exact Hab].
  revert Hup. unfold QueryOnly.updateTree.
  apply foldM_invariant with (P := @exclusive V); [|exact Hex].
  intros s [x y] s' Hs.
  apply foldM_invariant with (P := @exclusive V); [|exact Hs].
  intros s1 node s1' Hs1.
  destruct (queryRenderInfo settings view node) as [render isQuery].
  destruct (negb render && isQuery).
  { intro H. inversion H. apply exclusive_removeBetween, Hs1. }
  destruct (negb render); [intro H; inversion H; subst; exact Hs1|].
  destruct (addQueryDecorator host settings (mkPlugin s1 true) node view)
    as [this1|e] eqn:Ea; simpl; intro H; inversion H.
  apply (@addQueryDecorator_exclusive Expr V host settings
           (mkPlugin s1 true) node view this1); [exact Hs1 | exact Ea].
Qed.

(** Witness of X18: a selection update of the first revision on the
    empty store. *)
Lemma first_revision_pass_exclusive_witness :
  (List.length
     (replacing [mkRange 0 5 (Replace Demo.queryWidget)] 0 5) <= 1)%nat.
Proof.
  apply (@first_revision_pass_exclusive
           string string Demo.host Demo.settings Demo.queryView
           [] [mkRange 0 5 (Replace Demo.queryWidget)] 0 5).
  - constructor.
  - vm_compute. reflexivity.
  - lia.
Defined.

(** ** Further properties: source-mode field marks *)

(** X19.  For a field whose parts are in order - a bracketed field with
    [start + 1 <= startValue - 2] and [startValue <= end - 1], a
    full-line field with [start <= startValue - 2] and
    [startValue <= end] - [createFieldDecoratorSourceMode] returns
    without throwing, and its marks tile the field: none is empty and
    every offset of the field lies in exactly one of them. *)
Theorem createFieldDecoratorSourceMode_tiles :
  forall (V : Type) (line : Line) (field : InlineField),
    (match field_wrapping field with
     | Some _ => field_start field + 1 <= field_startValue field - 2
                 /\ field_startValue field <= field_end field - 1
     | None => field_start field <= field_startValue field - 2
               /\ field_startValue field <= field_end field
     end) ->
    exists marks : list (Range V),
      createFieldDecoratorSourceMode V line field = Ok marks
      /\ (forall r, In r marks -> from r < to r)
      /\ (forall p,
             line_from line + field_start field <= p
             < line_from line + field_end field ->
             List.length (filter (holds p) marks) = 1%nat).
Proof.
  intros V line field Hwf. unfold createFieldDecoratorSourceMode.
  destruct (field_wrapping field) as [w|]; destruct Hwf as [H1 H2];
    unfold markRange;
    repeat match goal with
           | |- context [?a >=? ?b] =>
               let E := fresh "E" in
               destruct (a >=? b) eqn:E;
               [rewrite Z.geb_leb in E; apply Z.leb_le in E; try lia
               |rewrite Z.geb_leb in E; apply Z.leb_gt in E]
           | |- context [?a =? ?b] =>
               let E := fresh "E" in
               destruct (Z.eqb_spec a b) as [E|E]; try lia
           end; simpl;
    (eexists; split; [reflexivity|]; split;
     [ intros r Hr; simpl in Hr;
       repeat (destruct Hr as [Hr|Hr]; [subst r; simpl; lia|]);
       destruct Hr
     | intros p Hp; unfold holds; simpl;
       repeat match goal with
              | |- context [?a <=? ?b] =>
                  destruct (Z.leb_spec a b); try lia
              | |- context [?a <? ?b] =>
                  destruct (Z.ltb_spec a b); try lia
              end; simpl; try reflexivity; try lia ]).
Qed.

(** Witness of X19: the field of [Demo.nestedDoc]. *)
Lemma createFieldDecoratorSourceMode_tiles_witness :
  exists marks : list (Range string),
    createFieldDecoratorSourceMode string (mkLine 0 16 1 Demo.nestedDoc)
                                   Demo.nestedField
    = Ok marks
    /\ (forall r, In r marks -> from r < to r)
    /\ (forall p, 0 + 0 <= p < 0 + 11 ->
                  List.length (filter (holds p) marks) = 1%nat).
Proof.
  apply (@createFieldDecoratorSourceMode_tiles
           string (mkLine 0 16 1 Demo.nestedDoc) Demo.nestedField).
  simpl. lia.
Defined.

(** ** Further properties: selection and events *)

(** X20.  A span is overlapped by a selection exactly when one of its
    parts overlaps it: with several cursors, any one of them reveals. *)
Theorem selectionAndRangeOverlap_app :
  forall (s1 s2 : EditorSelection) (a b : Z),
    selectionAndRangeOverlap (s1 ++ s2)%list a b
    = selectionAndRangeOverlap s1 a b || selectionAndRangeOverlap s2 a b.
Proof.
  intros s1 s2 a b. induction s1 as [|r s1 IH]; simpl; [reflexivity|].
  destruct ((sel_from r <=? b) && (sel_to r >=? a)); [reflexivity|exact IH].
Qed.

(** X21.  [ignoreEvent] lets an event through (returns false) exactly
    for a mousedown with the shift key; and it moves the cursor only
    then, only when an editor is there, and only to a position other
    than offset 0, which the test [if (currentPos)] takes for absent. *)
Theorem ignoreEvent_spec :
  forall (posAtCoords : Z -> Z -> option Z) (hasEditor : bool)
         (event : DomEvent),
    (fst (ignoreEvent posAtCoords hasEditor event) = false
     <-> ev_type event = "mousedown" /\ ev_shiftKey event = true)
    /\ (forall p,
           snd (ignoreEvent posAtCoords hasEditor event) = Some p
           <-> fst (ignoreEvent posAtCoords hasEditor event) = false
               /\ hasEditor = true
               /\ posAtCoords (ev_x event) (ev_y event) = Some p
               /\ p <> 0).
Proof.
  intros posAtCoords hasEditor event. unfold ignoreEvent.
  destruct (String.eqb_spec (ev_type event) "mousedown") as [E|NE];
    destruct (ev_shiftKey event); simpl.
  2,3,4: split; [split; [discriminate | intros [H1 H2]; congruence]
                |intro p; split; [discriminate | intros [H _]; discriminate]].
  split; [split; auto|].
  intro p.
  destruct (posAtCoords (ev_x event) (ev_y event)) as [q|].
  - destruct (Z.eqb_spec q 0) as [Z0|NZ].
    + split; [discriminate|]. intros [_ [_ [H Hp]]]. inversion H. lia.
    + destruct hasEditor.
      * split.
        -- intro H. inversion H. subst. auto.
        -- intros [_ [_ [H _]]]. exact H.
      * split; [discriminate|]. intros [_ [H _]]. discriminate.
  - split; [discriminate|]. intros [_ [_ [H _]]]. discriminate.
Qed.

Lemma createQueryWidget_result_range :
  forall (Expr V : Type) (host : Host Expr V) (settings : DataviewSettings)
         (node : SyntaxNode) (view : EditorView) (f : string) (r : Range V),
    createQueryWidget host settings node view f = Ok (Some r) ->
    from r = node_from node - 1 /\ to r = node_to node + 1.
Proof.
  intros Expr V host settings node view f r. unfold createQueryWidget.
  repeat match goal with
         | |- context [if ?c then _ else _] => destruct c
         | |- context [tryOrPropogate ?x] => destruct (tryOrPropogate x)
         | |- context [evalInContext ?h ?s ?f] =>
             destruct (evalInContext h s f) as [v|[msg|e']]
         end; simpl; intro H; inversion H; split; reflexivity.
Qed.

(** ** Further properties: the from-scratch render of the second revision *)

Lemma foldFlow_invariant :
  forall (A S : Type) (P : S -> Prop)
         (f : S -> A -> Outcome (SecondRevision.Flow S)),
    (forall s x s', P s -> f s x = Ok (SecondRevision.Continue s') -> P s') ->
    forall (l : list A) (s s' : S),
      P s -> SecondRevision.foldFlow f l s = Ok (SecondRevision.Continue s') ->
      P s'.
Proof.
  intros A S P f Hf l. induction l as [|x l IH]; intros s s' Hs H;
    simpl in H.
  - inversion H. subst. exact Hs.
  - destruct (f s x) as [[s1|]|e] eqn:E; simpl in H; try discriminate.
    eapply IH; [|exact H]. eapply Hf; [exact Hs | exact E].
Qed.

(** A loop whose body cannot go on at [x] does not go on past a list
    holding [x]. *)
Lemma foldFlow_stops :
  forall (A S : Type) (f : S -> A -> Outcome (SecondRevision.Flow S)) (x : A),
    (forall s s', f s x <> Ok (SecondRevision.Continue s')) ->
    forall (l : list A) (s s' : S),
      In x l ->
      SecondRevision.foldFlow f l s <> Ok (SecondRevision.Continue s').
Proof.
  intros A S f x Hx l. induction l as [|y l IH]; intros s s' Hin H;
    [destruct Hin|].
  simpl in H.
  destruct (f s y) as [[s1|]|e] eqn:E; simpl in H; try discriminate.
  destruct Hin as [Heq|Hin].
  - subst y. exact (Hx s s1 E).
  - exact (IH s1 s' Hin H).
Qed.

(** X22.  The from-scratch render of the second revision never returns
    a decoration for a field: [widgets.concat] leaves the array as it
    is, so every range of a returned set is the Replace-decoration of a
    rendered query node, over that node's widened range. *)
Theorem second_revision_render_has_no_field :
  forall (Expr V : Type) (host : Host Expr V) (scanner : Scanner)
         (settings : DataviewSettings) (displayMode : string)
         (initialized : bool) (view : EditorView)
         (set : DecorationSet V) (r : Range V),
    SecondRevision.inlineRender host scanner settings displayMode initialized
                                view = Ok (Some set) ->
    In r set ->
    isReplace r = true
    /\ exists node,
        In node (tree view)
        /\ fst (queryRenderInfo settings view node) = true
        /\ from r = node_from node - 1 /\ to r = node_to node + 1.
Proof.
  intros Expr V host scanner settings displayMode initialized view set r.
  pose (Q := fun x : Range V =>
               isReplace x = true
               /\ exists node,
                   In node (tree view)
                   /\ fst (queryRenderInfo settings view node) = true
                   /\ from x = node_from node - 1
                   /\ to x = node_to node + 1).
  pose (P := fun ws : list (Range V) => forall x, In x ws -> Q x).
  unfold SecondRevision.inlineRender.
  destruct (negb initialized); [discriminate|].
  destruct (activeFile view) as [f|]; [|discriminate].
  match goal with
  | |- bind ?loop _ = _ -> _ => destruct loop as [[ws|]|e] eqn:El
  end; simpl; try discriminate.
  intro H. inversion H. subst set. intro Hr.
  apply sortRanges_In in Hr. revert r Hr. change (P ws).
  revert El.
  apply foldFlow_invariant with (P := P); [|intros x []].
  intros s [a b] s' Hs.
  destruct (lineAt (doc view) a) as [la|]; simpl; [|discriminate].
  destruct (lineAt (doc view) b) as [lb|]; simpl; [|discriminate].
  match goal with
  | |- bind ?loop _ = _ -> _ => destruct loop as [[ws1|]|e] eqn:Ef
  end; simpl; try discriminate.
  assert (H1 : P ws1).
  { revert Ef. apply foldFlow_invariant with (P := P); [|exact Hs].
    intros s1 line s1' Hs1. unfold SecondRevision.renderFields.
    apply foldFlow_invariant with (P := P); [|exact Hs1].
    intros s2 field s2' Hs2.
    destruct (negb (SecondRevision.fieldRenderInfo view line field));
      [discriminate|].
    destruct (SecondRevision.createFieldWidget displayMode view line field);
      simpl; [|discriminate].
    intro Hc. inversion Hc. subst. exact Hs2. }
  destruct (SecondRevision.renderQueries host settings view f a b ws1)
    as [ws2|e] eqn:Eq; simpl; [|discriminate].
  intro Hc. inversion Hc. subst s'.
  revert Eq. unfold SecondRevision.renderQueries.
  apply foldM_invariant_in with (P := P); [|exact H1].
  intros s1 node s1' Hin Hs1.
  destruct (negb (fst (queryRenderInfo settings view node))) eqn:Er.
  { intro H0. inversion H0. subst. exact Hs1. }
  destruct (createQueryWidget host settings node view f) as [[w|]|e] eqn:Ew;
    simpl; intro H0; inversion H0; subst; [|exact Hs1].
  intros x Hx. apply in_app_or in Hx. destruct Hx as [Hx|[Hx|[]]];
    [apply Hs1, Hx|].
  subst x. split; [apply (createQueryWidget_is_replace _ _ _ _ _ Ew)|].
  exists node. unfold iterate in Hin. apply filter_In in Hin.
  apply negb_false_iff in Er.
  destruct (createQueryWidget_result_range host settings node view f Ew)
    as [Hf Ht].
  tauto.
Qed.

(** Witness of X22: the render of [Demo.queryDoc]. *)
Lemma second_revision_render_has_no_field_witness :
  isReplace (mkRange 0 5 (Replace Demo.queryWidget)) = true
  /\ exists node,
      In node (tree Demo.queryView)
      /\ fst (queryRenderInfo Demo.settings Demo.queryView node) = true
      /\ from (mkRange 0 5 (Replace Demo.queryWidget)) = node_from node - 1
      /\ to (mkRange 0 5 (Replace Demo.queryWidget)) = node_to node + 1.
Proof.
  apply (@second_revision_render_has_no_field
           string string Demo.host Demo.scanner Demo.settings "Inline" true
           Demo.queryView [mkRange 0 5 (Replace Demo.queryWidget)]
           (mkRange 0 5 (Replace Demo.queryWidget))).
  - vm_compute. reflexivity.
  - simpl. left. reflexivity.
Defined.

(** X23.  In the second revision one selected field blanks the whole
    from-scratch render: when the selection overlaps a field of a
    visible line, [inlineRender] leaves by the [return] inside its
    field loop (or throws) and returns no decoration set, queries
    included. *)
Theorem second_revision_selected_field_blanks_render :
  forall (Expr V : Type) (host : Host Expr V) (scanner : Scanner)
         (settings : DataviewSettings) (displayMode : string)
         (initialized : bool) (view : EditorView)
         (x y : Z) (la lb line : Line) (field : InlineField)
         (set : DecorationSet V),
    In (x, y) (visibleRanges view) ->
    lineAt (doc view) x = Ok la ->
    lineAt (doc view) y = Ok lb ->
    In line (linesBetween (doc view) (line_number la) (line_number lb)) ->
    In field (extractInlineFields scanner (line_text line)) ->
    selectionAndRangeOverlap (selection view)
      (line_from line + field_start field)
      (line_from line + field_end field) = true ->
    SecondRevision.inlineRender host scanner settings displayMode initialized
                                view <> Ok (Some set).
Proof.
  intros Expr V host scanner settings displayMode initialized view
         x y la lb line field set Hxy Hla Hlb Hline Hfield Hsel.
  unfold SecondRevision.inlineRender.
  destruct (negb initialized); [discriminate|].
  destruct (activeFile view) as [f|]; [|discriminate].
  match goal with
  | |- bind ?loop _ <> _ => destruct loop as [[ws|]|e] eqn:El
  end; simpl; try discriminate.
  exfalso. revert El.
  apply foldFlow_stops with (x := (x, y)); [|exact Hxy].
  intros s s'. rewrite Hla, Hlb. simpl.
  match goal with
  | |- bind ?loop _ <> _ => destruct loop as [[ws1|]|e] eqn:Ef
  end; simpl; try discriminate.
  exfalso. revert Ef.
  apply foldFlow_stops with (x := line); [|exact Hline].
  intros s1 s1'. unfold SecondRevision.renderFields.
  apply foldFlow_stops with (x := field); [|exact Hfield].
  intros s2 s2'. unfold SecondRevision.fieldRenderInfo.
  rewrite Hsel. simpl. discriminate.
Qed.

(** Witness of X23: the cursor inside the key of the field of
    [Demo.nestedDoc]. *)
Lemma second_revision_selected_field_blanks_render_witness :
  SecondRevision.inlineRender Demo.host Demo.scanner Demo.settings "Inline"
                              true Examples.fieldSelectedView
  <> Ok (Some []).
Proof.
  apply (@second_revision_selected_field_blanks_render
           string string Demo.host Demo.scanner Demo.settings "Inline" true
           Examples.fieldSelectedView 0 16
           (mkLine 0 16 1 Demo.nestedDoc) (mkLine 0 16 1 Demo.nestedDoc)
           (mkLine 0 16 1 Demo.nestedDoc) Demo.nestedField []).
  - simpl. left. reflexivity.
  - reflexivity.
  - reflexivity.
  - simpl. left. reflexivity.
  - simpl. left. reflexivity.
  - reflexivity.
Defined.

(** ** Further properties: the live-preview field marks of the second
    revision *)

Lemma substring_length_exact :
  forall (s : string) (n m : nat),
    (n + m <= String.length s)%nat ->
    String.length (String.substring n m s) = m.
Proof.
  induction s as [|c s IH]; intros n m H; destruct n, m; simpl in *;
    try lia; try reflexivity.
  - rewrite (IH 0%nat m); [reflexivity | lia].
  - apply IH. lia.
  - apply IH. lia.
Qed.

Lemma substring_empty :
  forall (n m : nat), String.substring n m EmptyString = EmptyString.
Proof. intros n m. destruct n, m; reflexivity. Qed.

Lemma substring_zero :
  forall (s : string) (n : nat), String.substring n 0 s = EmptyString.
Proof.
  induction s as [|c s IH]; intros n; destruct n; simpl; try reflexivity.
  apply IH.
Qed.

Lemma substring_all :
  forall (s : string), String.substring 0 (String.length s) s = s.
Proof.
  induction s as [|c s IH]; simpl; [reflexivity|]. rewrite IH. reflexivity.
Qed.

Lemma substring_substring :
  forall (s : string) (a n i m : nat),
    (i + m <= n)%nat ->
    String.substring i m (String.substring a n s)
    = String.substring (a + i) m s.
Proof.
  induction s as [|c s IH]; intros a n i m H.
  - rewrite !substring_empty. reflexivity.
  - destruct a as [|a].
    + destruct n as [|n].
      * assert (i = 0%nat) by lia. assert (m = 0%nat) by lia. subst.
        reflexivity.
      * simpl. destruct i as [|i].
        -- destruct m as [|m]; simpl; [reflexivity|].
           rewrite (IH 0%nat n 0%nat m); [reflexivity | lia].
        -- simpl. rewrite (IH 0%nat n i m); [reflexivity | lia].
    + simpl. apply IH. exact H.
Qed.

Lemma trimStart_length :
  forall s, (String.length (trimStart s) <= String.length s)%nat.
Proof.
  induction s as [|c s IH]; simpl; [lia|].
  destruct (isSpace c); simpl; lia.
Qed.

Lemma trimStart_as_substring :
  forall s,
    trimStart s
    = String.substring (String.length s - String.length (trimStart s))
                       (String.length (trimStart s)) s.
Proof.
  induction s as [|c s IH]; [reflexivity|].
  simpl trimStart. destruct (isSpace c).
  - pose proof (trimStart_length s) as Hl.
    assert (E : (String.length (String c s) - String.length (trimStart s)
                 = S (String.length s - String.length (trimStart s)))%nat)
      by (change (String.length (String c s)) with (S (String.length s));
          lia).
    rewrite E. simpl. exact IH.
  - rewrite Nat.sub_diag. symmetry. apply substring_all.
Qed.

Lemma trimEnd_as_substring :
  forall s, trimEnd s = String.substring 0 (String.length (trimEnd s)) s.
Proof.
  induction s as [|c s IH]; [reflexivity|].
  simpl trimEnd. destruct (trimEnd s) as [|d t] eqn:Et.
  - destruct (isSpace c); simpl; [reflexivity|].
    rewrite substring_zero. reflexivity.
  - simpl. simpl in IH. rewrite <- IH. reflexivity.
Qed.

Lemma trimEnd_length :
  forall s, (String.length (trimEnd s) <= String.length s)%nat.
Proof.
  induction s as [|c s IH]; simpl; [lia|].
  destruct (trimEnd s); [destruct (isSpace c)|]; simpl in *; lia.
Qed.

(** A string that [trimStart] empties is emptied by [trimEnd] too. *)
Lemma trimEnd_blank :
  forall s, trimStart s = EmptyString -> trimEnd s = EmptyString.
Proof.
  induction s as [|c s IH]; [reflexivity|].
  simpl. destruct (isSpace c); [|discriminate].
  intro H. rewrite (IH H). reflexivity.
Qed.

Lemma trimEnd_nonblank :
  forall s, trimStart s <> EmptyString -> trimEnd s <> EmptyString.
Proof.
  induction s as [|c s IH]; [intro H; exact H|].
  simpl. destruct (isSpace c).
  - intro H. specialize (IH H).
    destruct (trimEnd s); [contradiction | discriminate].
  - intros _. destruct (trimEnd s); discriminate.
Qed.

Lemma trimStart_idempotent :
  forall s, trimStart (trimStart s) = trimStart s.
Proof.
  induction s as [|c s IH]; [reflexivity|].
  simpl. destruct (isSpace c) eqn:E; [exact IH|].
  simpl. rewrite E. reflexivity.
Qed.

Lemma trimEnd_length_split :
  forall s,
    trimStart s <> EmptyString ->
    String.length (trimEnd s)
    = (String.length s - String.length (trimStart s)
       + String.length (trimEnd (trimStart s)))%nat.
Proof.
  induction s as [|c s IH]; [intro H; contradiction|].
  simpl trimStart. destruct (isSpace c) eqn:E.
  - intro H. specialize (IH H).
    pose proof (@trimEnd_nonblank s H) as Hn.
    pose proof (trimStart_length s) as Hl.
    simpl trimEnd. destruct (trimEnd s) as [|d t] eqn:Et; [contradiction|].
    simpl String.length in *. lia.
  - intros _. rewrite Nat.sub_diag. reflexivity.
Qed.

(** What [trim] keeps of a string that is not blank, in terms of the
    two white-space counts [createFieldWidget] computes. *)
Lemma trim_nonblank :
  forall s,
    trimStart s <> EmptyString ->
    let L := (String.length s - String.length (trimStart s))%nat in
    let R := (String.length s - String.length (trimEnd s))%nat in
    let T := String.length (trim s) in
    (1 <= T /\ L + T + R = String.length s)%nat
    /\ trim s = String.substring L T s.
Proof.
  intros s H L R T.
  pose proof (trimEnd_length_split s H) as Hsplit.
  pose proof (trimStart_length s) as Hl.
  pose proof (trimEnd_length s) as Hr.
  pose proof (trimEnd_length (trimStart s)) as Ht.
  assert (Hpos : (1 <= T)%nat).
  { unfold T, trim.
    assert (Hn : trimEnd (trimStart s) <> EmptyString)
      by (apply trimEnd_nonblank; rewrite trimStart_idempotent; exact H).
    destruct (trimEnd (trimStart s)); [contradiction | simpl; lia]. }
  fold (trim s) in Hsplit, Ht. fold T in Hsplit, Ht.
  split; [split; [exact Hpos | unfold L, R; lia]|].
  unfold trim at 1. rewrite trimEnd_as_substring.
  fold (trim s). fold T.
  rewrite (trimStart_as_substring s) at 1. fold L.
  rewrite substring_substring by lia.
  rewrite Nat.add_0_r. reflexivity.
Qed.

Lemma sliceDoc_inside :
  forall (doc : Doc) (a b : Z),
    0 <= a -> a <= b -> b <= Z.of_nat (String.length doc) ->
    sliceDoc doc a b
    = String.substring (Z.to_nat a) (Z.to_nat (b - a)) doc.
Proof.
  intros doc a b Ha Hab Hb. unfold sliceDoc, clip.
  rewrite (Z.min_r _ a) by lia. rewrite (Z.min_r _ b) by lia.
  rewrite !Z.max_r by lia. reflexivity.
Qed.

Lemma sliceDoc_length :
  forall (doc : Doc) (a b : Z),
    0 <= a -> a <= b -> b <= Z.of_nat (String.length doc) ->
    SecondRevision.strlen (sliceDoc doc a b) = b - a.
Proof.
  intros doc a b Ha Hab Hb. rewrite sliceDoc_inside by assumption.
  unfold SecondRevision.strlen. rewrite substring_length_exact; lia.
Qed.

(** The slice between the two white-space counts of a slice is the
    trimmed slice. *)
Lemma sliceDoc_trim :
  forall (doc : Doc) (a b : Z),
    0 <= a -> a <= b -> b <= Z.of_nat (String.length doc) ->
    let s := sliceDoc doc a b in
    trimStart s <> EmptyString ->
    let L := SecondRevision.strlen s - SecondRevision.strlen (trimStart s) in
    let R := SecondRevision.strlen s - SecondRevision.strlen (trimEnd s) in
    a + L < b - R
    /\ 0 <= L /\ 0 <= R
    /\ sliceDoc doc (a + L) (b - R) = trim s.
Proof.
  intros doc a b Ha Hab Hb s Hnb L R.
  pose proof (@sliceDoc_length doc a b Ha Hab Hb) as Hlen. fold s in Hlen.
  destruct (@trim_nonblank s Hnb) as [[Hpos Hsum] Htrim].
  pose proof (trimStart_length s) as Hl.
  pose proof (trimEnd_length s) as Hr.
  unfold SecondRevision.strlen in *.
  assert (HL : L = Z.of_nat (String.length s - String.length (trimStart s)))
    by (unfold L, SecondRevision.strlen; lia).
  assert (HR : R = Z.of_nat (String.length s - String.length (trimEnd s)))
    by (unfold R, SecondRevision.strlen; lia).
  split; [lia|]. split; [lia|]. split; [lia|].
  rewrite sliceDoc_inside by lia.
  rewrite Htrim.
  assert (Hs : String.substring (Z.to_nat a) (Z.to_nat (b - a)) doc = s)
    by (unfold s; symmetry; apply sliceDoc_inside; assumption).
  assert (Hle : (String.length s - String.length (trimStart s)
                 + String.length (trim s) <= Z.to_nat (b - a))%nat) by lia.
  pose proof (substring_substring doc (Z.to_nat a) _ _ Hle) as Hss.
  rewrite Hs in Hss. rewrite Hss.
  f_equal; lia.
Qed.

(** X24.  For a bracketed field that lies within the document and whose
    key and value are not blank, [createFieldWidget] of the second
    revision returns the mark of the whole field followed by five
    ranges that tile it - bracket and white space hidden, key marked,
    colons and white space hidden, value marked, white space and
    bracket hidden - and the two marked ranges hold exactly the trimmed
    key and the trimmed value. *)
Theorem createFieldWidget_bracket_tiles :
  forall (displayMode : string) (view : EditorView) (line : Line)
         (field : InlineField),
    field_wrapping field = Some "[" ->
    0 <= line_from line + field_start field ->
    field_start field + 1 <= field_startValue field - 2 ->
    field_startValue field <= field_end field - 1 ->
    line_from line + field_end field - 1
    <= Z.of_nat (String.length (doc view)) ->
    let key := sliceDoc (doc view)
                        (line_from line + field_start field + 1)
                        (line_from line + field_startValue field - 2) in
    let value := sliceDoc (doc view)
                          (line_from line + field_startValue field)
                          (line_from line + field_end field - 1) in
    trimStart key <> EmptyString ->
    trimStart value <> EmptyString ->
    exists keyPos colonPos valuePos closePos,
      SecondRevision.createFieldWidget displayMode view line field
      = Ok [SecondRevision.mkFieldRange
              (line_from line + field_start field)
              (line_from line + field_end field)
              (SecondRevision.MarkSpan
                 ("dataview inline-field dataview-field-style-"
                    ++ SecondRevision.toLowerCase displayMode)%string);
            SecondRevision.mkFieldRange
              (line_from line + field_start field) keyPos
              SecondRevision.Hide;
            SecondRevision.mkFieldRange
              keyPos colonPos
              (SecondRevision.MarkSpan "dataview inline-field-key");
            SecondRevision.mkFieldRange colonPos valuePos SecondRevision.Hide;
            SecondRevision.mkFieldRange
              valuePos closePos
              (SecondRevision.MarkSpan "dataview inline-field-value");
            SecondRevision.mkFieldRange
              closePos (line_from line + field_end field)
              SecondRevision.Hide]
      /\ line_from line + field_start field < keyPos
      /\ keyPos < colonPos
      /\ colonPos < valuePos
      /\ valuePos < closePos
      /\ closePos < line_from line + field_end field
      /\ sliceDoc (doc view) keyPos colonPos = trim key
      /\ sliceDoc (doc view) valuePos closePos = trim value.
Proof.
  intros displayMode view line field Hw H0 Hkey Hval Hend key value
         Hk Hv.
  destruct (@sliceDoc_trim (doc view)
              (line_from line + field_start field + 1)
              (line_from line + field_startValue field - 2)
              ltac:(lia) ltac:(lia) ltac:(lia) Hk)
    as [Hk1 [Hk2 [Hk3 Hk4]]].
  destruct (@sliceDoc_trim (doc view)
              (line_from line + field_startValue field)
              (line_from line + field_end field - 1)
              ltac:(lia) ltac:(lia) ltac:(lia) Hv)
    as [Hv1 [Hv2 [Hv3 Hv4]]].
  fold key in Hk1, Hk2, Hk3, Hk4. fold value in Hv1, Hv2, Hv3, Hv4.
  do 4 eexists.
  split; [|split; [|split; [|split; [|split; [|split;
    [|split; [exact Hk4 | exact Hv4]]]]]]]; try lia.
  unfold SecondRevision.createFieldWidget. rewrite Hw.
  change (String.eqb "[" "(") with false.
  change (String.eqb "[" "[") with true.
  cbv iota. fold key. fold value.
  unfold SecondRevision.hideRange, SecondRevision.markSpanRange.
  repeat match goal with
         | |- context [?a >=? ?b] =>
             let E := fresh "E" in
             destruct (a >=? b) eqn:E;
             [rewrite Z.geb_leb in E; apply Z.leb_le in E; lia
             |clear E]
         end.
  reflexivity.
Qed.

(** Witness of X24: the field of [SecondRevision.spacedDoc]. *)
Lemma createFieldWidget_bracket_tiles_witness :
  exists keyPos colonPos valuePos closePos,
    SecondRevision.createFieldWidget
      "Inline" SecondRevision.spacedView
      (mkLine 0 14 1 SecondRevision.spacedDoc) SecondRevision.spacedField
    = Ok [SecondRevision.mkFieldRange
            0 14
            (SecondRevision.MarkSpan
               "dataview inline-field dataview-field-style-inline");
          SecondRevision.mkFieldRange 0 keyPos SecondRevision.Hide;
          SecondRevision.mkFieldRange
            keyPos colonPos
            (SecondRevision.MarkSpan "dataview inline-field-key");
          SecondRevision.mkFieldRange colonPos valuePos SecondRevision.Hide;
          SecondRevision.mkFieldRange
            valuePos closePos
            (SecondRevision.MarkSpan "dataview inline-field-value");
          SecondRevision.mkFieldRange closePos 14 SecondRevision.Hide]
    /\ 0 < keyPos
    /\ keyPos < colonPos
    /\ colonPos < valuePos
    /\ valuePos < closePos
    /\ closePos < 14
    /\ sliceDoc SecondRevision.spacedDoc keyPos colonPos = "key"
    /\ sliceDoc SecondRevision.spacedDoc valuePos closePos = "val".
Proof.
  apply (@createFieldWidget_bracket_tiles
           "Inline" SecondRevision.spacedView
           (mkLine 0 14 1 SecondRevision.spacedDoc)
           SecondRevision.spacedField).
  - reflexivity.
  - simpl. lia.
  - simpl. lia.
  - simpl. lia.
  - simpl. lia.
  - vm_compute. intro H. discriminate H.
  - vm_compute. intro H. discriminate H.
Defined.

(** X25.  For a bracketed or parenthesized field whose value is empty
    or blank, [createFieldWidget] of the second revision throws: the
    range it asks a mark for is empty or inverted, and nothing guards
    against it. *)
Theorem createFieldWidget_blank_value_throws :
  forall (displayMode : string) (view : EditorView) (line : Line)
         (field : InlineField),
    field_wrapping field = Some "[" \/ field_wrapping field = Some "(" ->
    0 <= line_from line + field_startValue field ->
    field_startValue field <= field_end field - 1 ->
    line_from line + field_end field - 1
    <= Z.of_nat (String.length (doc view)) ->
    trimStart (sliceDoc (doc view)
                        (line_from line + field_startValue field)
                        (line_from line + field_end field - 1))
    = EmptyString ->
    exists e,
      SecondRevision.createFieldWidget displayMode view line field = Raise e.
Proof.
  intros displayMode view line field Hw H0 Hval Hend Hblank.
  pose proof (@sliceDoc_length (doc view)
                (line_from line + field_startValue field)
                (line_from line + field_end field - 1)
                H0 ltac:(lia) Hend) as Hlen.
  pose proof (trimEnd_blank _ Hblank) as Hblank'.
  unfold SecondRevision.createFieldWidget.
  rewrite Hblank, Hblank', Hlen.
  change (SecondRevision.strlen "") with 0.
  unfold SecondRevision.hideRange, SecondRevision.markSpanRange.
  destruct Hw as [Hw|Hw]; rewrite Hw;
    [ change (String.eqb "[" "(") with false;
      change (String.eqb "[" "[") with true
    | change (String.eqb "(" "(") with true ];
    cbv iota;
    repeat match goal with
           | |- context [?a >=? ?b] =>
               let E := fresh "E" in
               destruct (a >=? b) eqn:E;
               [ clear E
               | rewrite Z.geb_leb in E; apply Z.leb_gt in E; try lia ]
           end;
    simpl; eexists; reflexivity.
Qed.

(** Witness of X25: the field of [SecondRevision.emptyValueDoc]. *)
Lemma createFieldWidget_blank_value_throws_witness :
  exists e,
    SecondRevision.createFieldWidget
      "Inline" SecondRevision.emptyValueView
      (mkLine 0 5 1 SecondRevision.emptyValueDoc)
      SecondRevision.emptyValueField
    = Raise e.
Proof.
  apply (@createFieldWidget_blank_value_throws
           "Inline" SecondRevision.emptyValueView
           (mkLine 0 5 1 SecondRevision.emptyValueDoc)
           SecondRevision.emptyValueField).
  - left. reflexivity.
  - simpl. lia.
  - simpl. lia.
  - simpl. lia.
  - reflexivity.
Defined.

(** ** Further properties: a pass in live preview completes *)

Lemma append_length :
  forall (s1 s2 : string),
    String.length (s1 ++ s2)%string
    = (String.length s1 + String.length s2)%nat.
Proof.
  induction s1 as [|c s1 IH]; intro s2; simpl; [reflexivity|].
  rewrite IH. reflexivity.
Qed.

Lemma linesFrom_find :
  forall (s acc : string) (start n pos : Z),
    start <= pos ->
    pos <= start + Z.of_nat (String.length acc) + Z.of_nat (String.length s) ->
    exists l,
      find (fun l => (line_from l <=? pos) && (pos <=? line_to l))
           (linesFrom s acc start n) = Some l.
Proof.
  induction s as [|c s IH]; intros acc start n pos Hlo Hhi; simpl in *.
  - replace (start <=? pos) with true by (symmetry; apply Z.leb_le; lia).
    replace (pos <=? start + Z.of_nat (String.length acc)) with true
      by (symmetry; apply Z.leb_le; lia).
    simpl. eexists. reflexivity.
  - destruct (Ascii.eqb c LF).
    + simpl.
      replace (start <=? pos) with true by (symmetry; apply Z.leb_le; lia).
      destruct (Z.leb_spec pos (start + Z.of_nat (String.length acc)))
        as [Hin|Hout]; simpl.
      * eexists. reflexivity.
      * apply IH; simpl; lia.
    + apply IH; [exact Hlo|].
      rewrite append_length. simpl. lia.
Qed.

(** [lineAt] finds a line for every position of the document. *)
Lemma lineAt_inside :
  forall (doc : Doc) (pos : Z),
    0 <= pos <= Z.of_nat (String.length doc) ->
    exists l, lineAt doc pos = Ok l.
Proof.
  intros doc pos H. unfold lineAt, docLines.
  destruct (@linesFrom_find doc EmptyString 0 1 pos) as [l Hl];
    [lia | simpl; lia |].
  rewrite Hl. exists l. reflexivity.
Qed.

(** A monadic fold returns when every step on an element of the list
    returns and keeps the invariant. *)
Lemma foldM_returns :
  forall (A S : Type) (P : S -> Prop) (f : S -> A -> Outcome S) (l : list A),
    (forall s x, In x l -> P s -> exists s', f s x = Ok s' /\ P s') ->
    forall s, P s -> exists s', foldM f l s = Ok s' /\ P s'.
Proof.
  intros A S P f l. induction l as [|x l IH]; intros Hf s Hs; simpl.
  - exists s. split; [reflexivity | exact Hs].
  - destruct (Hf s x (or_introl eq_refl) Hs) as [s1 [E H1]].
    rewrite E. simpl. apply IH; [|exact H1].
    intros s0 y Hy. apply Hf. now right.
Qed.

(** X26.  In live-preview mode the reconciliation pass completes when
    every visible range lies within the document and no script throws
    a value without string conversion: [updateTree] then returns a
    plugin value, whatever else the parser, the engine and the scripts
    of the visited queries do. *)
Theorem live_preview_pass_returns :
  forall (Expr V : Type) (host : Host Expr V) (scanner : Scanner)
         (settings : DataviewSettings) (view : EditorView)
         (this : PluginValue V),
    livepreview this = true ->
    (forall x y, In (x, y) (visibleRanges view) ->
                 0 <= x <= Z.of_nat (String.length (doc view))
                 /\ 0 <= y <= Z.of_nat (String.length (doc view))) ->
    (forall script currentFile e,
        evalInContext host script currentFile <> Raise (Opaque e)) ->
    exists this', updateTree host scanner settings view this = Ok this'.
Proof.
  intros Expr V host scanner settings view this Hlp Hvis Hconv.
  pose (P := fun s : PluginValue V => livepreview s = true).
  unfold updateTree.
  destruct (@foldM_returns (Z * Z) (PluginValue V) P
              (fun this '(a, b) =>
                 bind (lineAt (doc view) a) (fun la =>
                 bind (lineAt (doc view) b) (fun lb =>
                 foldM
                   (fun this line =>
                      foldM (fieldStep view line) (fieldsOfLine scanner line)
                            this)
                   (linesBetween (doc view) (line_number la)
                                 (line_number lb))
                   this)))
              (visibleRanges view)) with (s := this) as [this1 [Ef H1]].
  { intros s [x y] Hxy Hs.
    destruct (Hvis x y Hxy) as [Hx Hy].
    destruct (@lineAt_inside (doc view) x Hx) as [la Hla].
    destruct (@lineAt_inside (doc view) y Hy) as [lb Hlb].
    rewrite Hla, Hlb. simpl.
    apply foldM_returns with (P := P); [|exact Hs].
    intros s1 line _ Hs1.
    apply foldM_returns with (P := P); [|exact Hs1].
    intros s2 field _ Hs2. unfold fieldStep.
    destruct (negb (fieldRenderInfo s2 view line field)).
    - eexists. split; [reflexivity | exact Hs2].
    - unfold addFieldDecorator.
      destruct (existsBetween _ _ _);
        [eexists; split; [reflexivity | exact Hs2]|].
      destruct (activeFile view);
        [|eexists; split; [reflexivity | exact Hs2]].
      unfold P in Hs2. rewrite Hs2.
      unfold createFieldDecoratorLivePreview. simpl.
      eexists. split; [reflexivity | exact Hs2]. }
  { exact Hlp. }
  unfold updateFields. rewrite Ef. simpl.
  unfold P in H1. rewrite H1. simpl. unfold updateQueries.
  destruct (@foldM_returns (Z * Z) (PluginValue V) P
              (fun this '(a, b) =>
                 foldM (queryStep host settings view) (iterate view a b) this)
              (visibleRanges view)) with (s := this1) as [this2 [Eq _]];
    [ | exact H1 | exists this2; exact Eq ].
  intros s [x y] _ Hs.
  apply foldM_returns with (P := P); [|exact Hs].
  intros s1 node _ Hs1. unfold queryStep.
  destruct (queryRenderInfo settings view node) as [render isQuery].
  destruct (negb render && isQuery);
    [eexists; split; [reflexivity | exact Hs1]|].
  destruct render; [|eexists; split; [reflexivity | exact Hs1]].
  unfold addQueryDecorator.
  destruct (existsBetween _ _ _);
    [eexists; split; [reflexivity | exact Hs1]|].
  destruct (activeFile view) as [f|];
    [|eexists; split; [reflexivity | exact Hs1]].
  destruct (@createQueryWidget_returns Expr V host settings node view f)
    as [r Hr]; [intros script e; apply Hconv|].
  rewrite Hr. simpl.
  destruct r; eexists; (split; [reflexivity | exact Hs1]).
Qed.

(** Witness of X26: the pass over [Demo.rejectDoc], whose script is
    rejected; the scripts of [Demo.host] throw an [Error] or nothing. *)
Lemma live_preview_pass_returns_witness :
  exists this',
    updateTree Demo.host Demo.scanner Demo.settings Demo.rejectView
               (mkPlugin [] true) = Ok this'.
Proof.
  apply (@live_preview_pass_returns
           string string Demo.host Demo.scanner Demo.settings Demo.rejectView
           (mkPlugin [] true)).
  - reflexivity.
  - intros x y [H|[]]. inversion H. subst. simpl. lia.
  - intros script currentFile e. simpl.
    destruct (startsWith script "(async"); [discriminate|].
    destruct (str_includes "throw" script); discriminate.
Defined.
